(** * NetworkRequestReponseEncrypterDecrypter.py: the encryption envelope

    A shallow embedding of the envelope encoder [encrypt_aes_payload], the
    decoder [decrypt_and_decompress_payload], [encrypt_rsa] and the request
    driver [perform_request], with the properties of the specification
    stated and proved over it, followed by the reading of the credentials
    and the tallying loop of [main] and further properties of the code.

    Python values are modelled as follows.
    - [bytes] is [list byte]; an [int] is an [N] or a [Z].
    - [str] is the list of its code points.
    - A call that may raise returns a [result]; [try ... except Exception]
      is the combinator [try_except].
    - [base64], UTF-8 and AES in CBC mode are written out and evaluated.
    - [zlib], [json], RSA and the HTTP transport are parameters of the
      sections that use them. *)

From Stdlib Require Import String Ascii Strings.Byte NArith ZArith Bool Lia List.
From Stdlib Require Import Floats.SpecFloat DecimalString Btauto Permutation.
Import ListNotations.

Set Warnings "-register-all".
Local Open Scope N_scope.

(** ** Exceptions *)

Inductive exn_class : Type :=
| ValueError | TypeError | IndexError | AttributeError
| UnicodeEncodeError | UnicodeDecodeError
| BinasciiError | ZlibError | JSONDecodeError
| RequestException | HTTPError
| PlainException.

(** A [str]: the sequence of its code points. *)
Definition str : Type := list N.

Definition bytes : Type := list byte.

Record exn : Type := Exn { exn_kind : exn_class; exn_msg : str }.

Inductive result (A : Type) : Type :=
| Ok (a : A)
| Raise (e : exn).

Arguments Ok {A} a.
Arguments Raise {A} e.

Definition bind {A B : Type} (m : result A) (k : A -> result B) : result B :=
  match m with
  | Ok a => k a
  | Raise e => Raise e
  end.

Notation "x <- m ;; k" := (bind m (fun x => k))
  (at level 61, m at next level, right associativity).

(** [try: body except Exception as e: handler e].  Every class of
    [exn_class] derives from [Exception], so the handler sees them all. *)
Definition try_except {A : Type} (body : result A) (handler : exn -> result A)
  : result A :=
  match body with
  | Ok a => Ok a
  | Raise e => handler e
  end.

(** ** Strings *)

(** A literal of the source, as a [str]. *)
Definition lit (s : string) : str :=
  map N_of_ascii (list_ascii_of_string s).

Fixpoint str_eqb (a b : str) : bool :=
  match a, b with
  | [], [] => true
  | x :: a', y :: b' => (x =? y) && str_eqb a' b'
  | _, _ => false
  end.

Fixpoint starts_with (p s : str) : bool :=
  match p, s with
  | [], _ => true
  | _ :: _, [] => false
  | a :: p', b :: s' => (a =? b) && starts_with p' s'
  end.

(** [p in s] on two [str]. *)
Fixpoint str_in (p s : str) : bool :=
  starts_with p s ||
  match s with
  | [] => false
  | _ :: s' => str_in p s'
  end.

(** ** Bytes *)

Definition byte_of_N (n : N) : byte :=
  match Byte.of_N (n mod 256) with
  | Some b => b
  | None => x00
  end.

Definition all_bytes : list byte :=
  Eval vm_compute in map (fun n => byte_of_N (N.of_nat n)) (seq 0 256).

(** [bytes([n])]: one byte, or ValueError outside [range(256)]. *)
Definition py_bytes1 (n : N) : result bytes :=
  if n <? 256 then Ok [byte_of_N n]
  else Raise (Exn ValueError (lit "bytes must be in range(0, 256)")).

(** [b * n] for a byte string [b]. *)
Fixpoint bytes_mul (b : bytes) (n : nat) : bytes :=
  match n with
  | O => []
  | S n' => b ++ bytes_mul b n'
  end.

(** [b[-1]] *)
Definition index_last (b : bytes) : result N :=
  match rev b with
  | [] => Raise (Exn IndexError (lit "index out of range"))
  | x :: _ => Ok (Byte.to_N x)
  end.

(** [b[:-n]] for [n > 0]. *)
Definition slice_drop_last (b : bytes) (n : N) : bytes :=
  firstn (length b - N.to_nat n) b.


(** ** The UTF-8 codec: [s.encode('utf-8')] and [b.decode('utf-8')]

    The texts of the messages raised by library calls are shortened; no
    statement below depends on their wording. *)

Definition is_surrogate (c : N) : bool := (0xD800 <=? c) && (c <=? 0xDFFF).

Definition utf8_encode_cp (c : N) : result bytes :=
  if c <? 0x80 then Ok [byte_of_N c]
  else if c <? 0x800 then
    Ok [byte_of_N (0xC0 + c / 64); byte_of_N (0x80 + c mod 64)]
  else if is_surrogate c then
    Raise (Exn UnicodeEncodeError (lit "'utf-8' codec can't encode character: surrogates not allowed"))
  else if c <? 0x10000 then
    Ok [byte_of_N (0xE0 + c / 4096); byte_of_N (0x80 + (c / 64) mod 64);
        byte_of_N (0x80 + c mod 64)]
  else if c <? 0x110000 then
    Ok [byte_of_N (0xF0 + c / 262144); byte_of_N (0x80 + (c / 4096) mod 64);
        byte_of_N (0x80 + (c / 64) mod 64); byte_of_N (0x80 + c mod 64)]
  else
    Raise (Exn UnicodeEncodeError (lit "'utf-8' codec can't encode character: not a code point")).

Fixpoint utf8_encode (s : str) : result bytes :=
  match s with
  | [] => Ok []
  | c :: s' =>
      h <- utf8_encode_cp c ;;
      t <- utf8_encode s' ;;
      Ok (h ++ t)
  end.

Definition is_cont (b : byte) : bool :=
  (0x80 <=? Byte.to_N b) && (Byte.to_N b <? 0xC0).

Definition cont_bits (b : byte) : N := Byte.to_N b - 0x80.

Definition utf8_decode_error : exn :=
  Exn UnicodeDecodeError (lit "'utf-8' codec can't decode bytes: invalid byte sequence").

Definition cons_ok {A : Type} (a : A) (r : result (list A)) : result (list A) :=
  t <- r ;; Ok (a :: t).

Fixpoint utf8_decode (b : bytes) : result str :=
  match b with
  | [] => Ok []
  | b0 :: r0 =>
    let n0 := Byte.to_N b0 in
    if n0 <? 0x80 then cons_ok n0 (utf8_decode r0)
    else if n0 <? 0xC0 then Raise utf8_decode_error
    else if n0 <? 0xE0 then
      match r0 with
      | b1 :: r1 =>
        let c := (n0 - 0xC0) * 64 + cont_bits b1 in
        if is_cont b1 && (0x80 <=? c) then cons_ok c (utf8_decode r1)
        else Raise utf8_decode_error
      | _ => Raise utf8_decode_error
      end
    else if n0 <? 0xF0 then
      match r0 with
      | b1 :: b2 :: r2 =>
        let c := (n0 - 0xE0) * 4096 + cont_bits b1 * 64 + cont_bits b2 in
        if is_cont b1 && is_cont b2 && (0x800 <=? c) && negb (is_surrogate c)
        then cons_ok c (utf8_decode r2)
        else Raise utf8_decode_error
      | _ => Raise utf8_decode_error
      end
    else if n0 <? 0xF8 then
      match r0 with
      | b1 :: b2 :: b3 :: r3 =>
        let c := (n0 - 0xF0) * 262144 + cont_bits b1 * 4096
                 + cont_bits b2 * 64 + cont_bits b3 in
        if is_cont b1 && is_cont b2 && is_cont b3
           && (0x10000 <=? c) && (c <? 0x110000)
        then cons_ok c (utf8_decode r3)
        else Raise utf8_decode_error
      | _ => Raise utf8_decode_error
      end
    else Raise utf8_decode_error
  end.


(** ** [base64.b64encode] and [base64.b64decode]

    The decoder is the non-strict parser of [binascii.a2b_base64] that
    [base64.b64decode] calls with its default [validate=False]: characters
    outside the alphabet are skipped, a pad character that completes a
    quad stops the parse, and data that ends inside a quad is an error. *)

Module Base64.

Definition pad_char : byte := "="%byte.

Definition table_b2a (v : N) : byte :=
  if v <? 26 then byte_of_N (65 + v)
  else if v <? 52 then byte_of_N (97 + (v - 26))
  else if v <? 62 then byte_of_N (48 + (v - 52))
  else if v =? 62 then "+"%byte
  else "/"%byte.

Definition table_a2b (c : byte) : option N :=
  let n := Byte.to_N c in
  if (65 <=? n) && (n <=? 90) then Some (n - 65)
  else if (97 <=? n) && (n <=? 122) then Some (n - 97 + 26)
  else if (48 <=? n) && (n <=? 57) then Some (n - 48 + 52)
  else if n =? 43 then Some 62
  else if n =? 47 then Some 63
  else None.

Definition sextet0 (b0 : byte) : N := N.shiftr (Byte.to_N b0) 2.
Definition sextet1 (b0 b1 : byte) : N :=
  N.lor (N.shiftl (N.land (Byte.to_N b0) 3) 4) (N.shiftr (Byte.to_N b1) 4).
Definition sextet2 (b1 b2 : byte) : N :=
  N.lor (N.shiftl (N.land (Byte.to_N b1) 15) 2) (N.shiftr (Byte.to_N b2) 6).
Definition sextet3 (b2 : byte) : N := N.land (Byte.to_N b2) 63.

Fixpoint b2a_base64 (b : bytes) : bytes :=
  match b with
  | [] => []
  | [b0] =>
      [table_b2a (sextet0 b0); table_b2a (sextet1 b0 x00); pad_char; pad_char]
  | [b0; b1] =>
      [table_b2a (sextet0 b0); table_b2a (sextet1 b0 b1);
       table_b2a (sextet2 b1 x00); pad_char]
  | b0 :: b1 :: b2 :: r =>
      table_b2a (sextet0 b0) :: table_b2a (sextet1 b0 b1)
      :: table_b2a (sextet2 b1 b2) :: table_b2a (sextet3 b2) :: b2a_base64 r
  end.

Definition b64encode (b : bytes) : bytes := b2a_base64 b.

Definition invalid_length : exn :=
  Exn BinasciiError (lit "Invalid base64-encoded string: number of data characters cannot be 1 more than a multiple of 4").

Definition incorrect_padding : exn :=
  Exn BinasciiError (lit "Incorrect padding").

Fixpoint a2b_base64 (s : bytes) (quad_pos : nat) (leftchar : N) (pads : nat)
  : result bytes :=
  match s with
  | [] =>
      match quad_pos with
      | O => Ok []
      | S O => Raise invalid_length
      | _ => Raise incorrect_padding
      end
  | this_ch :: s' =>
      if Byte.eqb this_ch pad_char then
        if (2 <=? quad_pos)%nat then
          if (4 <=? quad_pos + S pads)%nat then Ok []
          else a2b_base64 s' quad_pos leftchar (S pads)
        else a2b_base64 s' quad_pos leftchar pads
      else
        match table_a2b this_ch with
        | None => a2b_base64 s' quad_pos leftchar pads
        | Some v =>
            match quad_pos with
            | O => a2b_base64 s' 1%nat v O
            | S O =>
                cons_ok (byte_of_N (N.lor (N.shiftl leftchar 2) (N.shiftr v 4)))
                        (a2b_base64 s' 2%nat (N.land v 15) O)
            | S (S O) =>
                cons_ok (byte_of_N (N.lor (N.shiftl leftchar 4) (N.shiftr v 2)))
                        (a2b_base64 s' 3%nat (N.land v 3) O)
            | _ =>
                cons_ok (byte_of_N (N.lor (N.shiftl leftchar 6) v))
                        (a2b_base64 s' O 0 O)
            end
        end
  end.

(** [s.encode('ascii')] as [b64decode] applies it to a [str] argument. *)
Definition encode_ascii (s : str) : result bytes :=
  if forallb (fun c => c <? 128) s then Ok (map byte_of_N s)
  else Raise (Exn ValueError (lit "string argument should contain only ASCII characters")).

Definition b64decode (s : str) : result bytes :=
  b <- encode_ascii s ;;
  a2b_base64 b O 0 O.

Definition opt_N_eqb (a : option N) (b : N) : bool :=
  match a with Some x => x =? b | None => false end.

(** What the decoder needs of one encoded character. *)
Definition char_ok (v : N) : bool :=
  negb (Byte.eqb (table_b2a v) pad_char) && opt_N_eqb (table_a2b (table_b2a v)) v.

End Base64.


(** ** AES in CBC mode: [AES.new(key, AES.MODE_CBC, iv)], [encrypt], [decrypt]

    FIPS 197 on 16-byte states in input order (byte [r + 4c] is row [r] of
    column [c]), with the key sizes and the checks of the library. *)

Module AES.

Definition block_size : N := 16.

(** *** The field GF(2^8) *)

Definition bxor (a b : byte) : byte :=
  byte_of_N (N.lxor (Byte.to_N a) (Byte.to_N b)).

Definition xtime (a : byte) : byte :=
  let n := Byte.to_N a in
  byte_of_N (N.lxor (N.shiftl n 1) (if 128 <=? n then 0x11b else 0)).

Fixpoint gmul_loop (fuel : nat) (a b : byte) (acc : byte) : byte :=
  match fuel with
  | O => acc
  | S fuel' =>
      gmul_loop fuel' (xtime a) (byte_of_N (N.shiftr (Byte.to_N b) 1))
                (if N.odd (Byte.to_N b) then bxor acc a else acc)
  end.

Definition gmul (a b : byte) : byte := gmul_loop 8 a b x00.

Definition gsquare (a : byte) : byte := gmul a a.

(** [a^254], the inverse of a non-zero [a]. *)
Definition ginv (a : byte) : byte :=
  let a2 := gsquare a in
  let a4 := gsquare a2 in
  let a8 := gsquare a4 in
  let a16 := gsquare a8 in
  let a32 := gsquare a16 in
  let a64 := gsquare a32 in
  let a128 := gsquare a64 in
  gmul a128 (gmul a64 (gmul a32 (gmul a16 (gmul a8 (gmul a4 a2))))).

Definition rotl8 (a : byte) (k : N) : byte :=
  let n := Byte.to_N a in
  byte_of_N (N.lor (N.shiftl n k) (N.shiftr n (8 - k))).

Definition sbox_formula (a : byte) : byte :=
  let b := ginv a in
  bxor b (bxor (rotl8 b 1) (bxor (rotl8 b 2) (bxor (rotl8 b 3)
       (bxor (rotl8 b 4) x63)))).

Definition sbox_table : list byte :=
  Eval vm_compute in map sbox_formula all_bytes.

Definition sbox (a : byte) : byte := nth (Byte.to_nat a) sbox_table x00.

Definition inv_sbox_table : list byte :=
  Eval vm_compute in
    map (fun y => match find (fun x => Byte.eqb (sbox x) y) all_bytes with
                  | Some x => x
                  | None => x00
                  end) all_bytes.

Definition inv_sbox (a : byte) : byte := nth (Byte.to_nat a) inv_sbox_table x00.

(** *** The four transformations and their inverses *)

Definition state : Type := list byte.

Fixpoint xor_bytes (a b : bytes) : bytes :=
  match a, b with
  | x :: a', y :: b' => bxor x y :: xor_bytes a' b'
  | _, _ => []
  end.

Definition add_round_key (s : state) (k : bytes) : state := xor_bytes s k.

Definition sub_bytes (s : state) : state := map sbox s.
Definition inv_sub_bytes (s : state) : state := map inv_sbox s.

Definition shift_rows (s : state) : state :=
  match s with
  | [s0; s1; s2; s3; s4; s5; s6; s7; s8; s9; s10; s11; s12; s13; s14; s15] =>
      [s0; s5; s10; s15; s4; s9; s14; s3; s8; s13; s2; s7; s12; s1; s6; s11]
  | _ => s
  end.

Definition inv_shift_rows (s : state) : state :=
  match s with
  | [s0; s1; s2; s3; s4; s5; s6; s7; s8; s9; s10; s11; s12; s13; s14; s15] =>
      [s0; s13; s10; s7; s4; s1; s14; s11; s8; s5; s2; s15; s12; s9; s6; s3]
  | _ => s
  end.

Definition mul2 (a : byte) : byte := xtime a.
Definition mul3 (a : byte) : byte := bxor (xtime a) a.
Definition mul9 (a : byte) : byte := bxor (xtime (xtime (xtime a))) a.
Definition mul11 (a : byte) : byte :=
  bxor (xtime (xtime (xtime a))) (bxor (xtime a) a).
Definition mul13 (a : byte) : byte :=
  bxor (xtime (xtime (xtime a))) (bxor (xtime (xtime a)) a).
Definition mul14 (a : byte) : byte :=
  bxor (xtime (xtime (xtime a))) (bxor (xtime (xtime a)) (xtime a)).

Definition xor4 (a b c d : byte) : byte := bxor (bxor a b) (bxor c d).

Definition mix_column (a0 a1 a2 a3 : byte) : list byte :=
  [xor4 (mul2 a0) (mul3 a1) a2 a3;
   xor4 a0 (mul2 a1) (mul3 a2) a3;
   xor4 a0 a1 (mul2 a2) (mul3 a3);
   xor4 (mul3 a0) a1 a2 (mul2 a3)].

Definition inv_mix_column (a0 a1 a2 a3 : byte) : list byte :=
  [xor4 (mul14 a0) (mul11 a1) (mul13 a2) (mul9 a3);
   xor4 (mul9 a0) (mul14 a1) (mul11 a2) (mul13 a3);
   xor4 (mul13 a0) (mul9 a1) (mul14 a2) (mul11 a3);
   xor4 (mul11 a0) (mul13 a1) (mul9 a2) (mul14 a3)].

Fixpoint mix_columns (s : state) : state :=
  match s with
  | a0 :: a1 :: a2 :: a3 :: s' => mix_column a0 a1 a2 a3 ++ mix_columns s'
  | _ => s
  end.

Fixpoint inv_mix_columns (s : state) : state :=
  match s with
  | a0 :: a1 :: a2 :: a3 :: s' => inv_mix_column a0 a1 a2 a3 ++ inv_mix_columns s'
  | _ => s
  end.

(** *** Key expansion *)

Definition word : Type := list byte.

Definition rot_word (w : word) : word :=
  match w with
  | a :: w' => w' ++ [a]
  | [] => []
  end.

Definition sub_word (w : word) : word := map sbox w.

Fixpoint rcon (i : nat) : byte :=
  match i with
  | O => x00
  | S O => x01
  | S i' => xtime (rcon i')
  end.

Fixpoint words_of (b : bytes) : list word :=
  match b with
  | a0 :: a1 :: a2 :: a3 :: b' => [a0; a1; a2; a3] :: words_of b'
  | _ => []
  end.

(** [w] holds the words [0 .. i-1]; [n] more are appended. *)
Fixpoint expand (nk : nat) (n : nat) (i : nat) (w : list word) : list word :=
  match n with
  | O => w
  | S n' =>
      let temp := nth (i - 1) w [] in
      let temp :=
        if (i mod nk =? 0)%nat then
          xor_bytes (sub_word (rot_word temp)) [rcon (i / nk); x00; x00; x00]
        else if (6 <? nk)%nat && (i mod nk =? 4)%nat then sub_word temp
        else temp in
      expand nk n' (S i) (w ++ [xor_bytes (nth (i - nk) w []) temp])
  end.

Fixpoint round_keys_of (w : list word) : list bytes :=
  match w with
  | w0 :: w1 :: w2 :: w3 :: w' => (w0 ++ w1 ++ w2 ++ w3) :: round_keys_of w'
  | _ => []
  end.

(** The round keys of a key of 16, 24 or 32 bytes: 11, 13 or 15 of them. *)
Definition key_expansion (key : bytes) : list bytes :=
  let nk := (length key / 4)%nat in
  let nr := (nk + 6)%nat in
  round_keys_of (expand nk (4 * (nr + 1) - nk) nk (words_of key)).

(** *** The cipher and the inverse cipher on one block *)

Definition round (s : state) (k : bytes) : state :=
  add_round_key (mix_columns (shift_rows (sub_bytes s))) k.

Definition final_round (s : state) (k : bytes) : state :=
  add_round_key (shift_rows (sub_bytes s)) k.

Definition inv_round (s : state) (k : bytes) : state :=
  inv_sub_bytes (inv_shift_rows (inv_mix_columns (add_round_key s k))).

Definition inv_final_round (s : state) (k : bytes) : state :=
  inv_sub_bytes (inv_shift_rows (add_round_key s k)).

(** Rounds with the keys [ks] in order, the last one without MixColumns. *)
Fixpoint rounds (s : state) (ks : list bytes) : state :=
  match ks with
  | [] => s
  | [k] => final_round s k
  | k :: ks' => rounds (round s k) ks'
  end.

(** The inverse of [rounds]: the keys are undone last to first. *)
Fixpoint inv_rounds (s : state) (ks : list bytes) : state :=
  match ks with
  | [] => s
  | [k] => inv_final_round s k
  | k :: ks' => inv_round (inv_rounds s ks') k
  end.

Definition encrypt_block (rk : list bytes) (s : state) : state :=
  match rk with
  | [] => s
  | k0 :: ks => rounds (add_round_key s k0) ks
  end.

Definition decrypt_block (rk : list bytes) (s : state) : state :=
  match rk with
  | [] => s
  | k0 :: ks => add_round_key (inv_rounds s ks) k0
  end.

(** *** CBC chaining *)

Fixpoint blocks (b : bytes) : list bytes :=
  match b with
  | b0 :: b1 :: b2 :: b3 :: b4 :: b5 :: b6 :: b7
    :: b8 :: b9 :: b10 :: b11 :: b12 :: b13 :: b14 :: b15 :: b' =>
      [b0; b1; b2; b3; b4; b5; b6; b7; b8; b9; b10; b11; b12; b13; b14; b15]
      :: blocks b'
  | _ => []
  end.

Fixpoint cbc_encrypt (rk : list bytes) (prev : bytes) (bs : list bytes) : bytes :=
  match bs with
  | [] => []
  | p :: bs' =>
      let c := encrypt_block rk (xor_bytes p prev) in
      c ++ cbc_encrypt rk c bs'
  end.

Fixpoint cbc_decrypt (rk : list bytes) (prev : bytes) (bs : list bytes) : bytes :=
  match bs with
  | [] => []
  | c :: bs' => xor_bytes (decrypt_block rk c) prev ++ cbc_decrypt rk c bs'
  end.

(** *** The object returned by [AES.new] *)

Inductive mode : Type := MODE_CBC.

Record cipher : Type := Cipher { cipher_round_keys : list bytes; cipher_iv : bytes }.

Definition valid_key_length (n : nat) : bool :=
  (n =? 16)%nat || (n =? 24)%nat || (n =? 32)%nat.

Definition new (key : bytes) (m : mode) (iv : bytes) : result cipher :=
  if negb (valid_key_length (length key)) then
    Raise (Exn ValueError (lit "Incorrect AES key length"))
  else if negb (length iv =? 16)%nat then
    Raise (Exn ValueError (lit "Incorrect IV length (it must be 16 bytes long)"))
  else Ok (Cipher (key_expansion key) iv).

Definition not_padded : exn :=
  Exn ValueError (lit "Data must be padded to 16 byte boundary in CBC mode").

Definition encrypt (c : cipher) (data : bytes) : result bytes :=
  if negb (length data mod 16 =? 0)%nat then Raise not_padded
  else Ok (cbc_encrypt (cipher_round_keys c) (cipher_iv c) (blocks data)).

Definition decrypt (c : cipher) (data : bytes) : result bytes :=
  if negb (length data mod 16 =? 0)%nat then Raise not_padded
  else Ok (cbc_decrypt (cipher_round_keys c) (cipher_iv c) (blocks data)).

(** *** Shapes *)

Definition keys16 (ks : list bytes) : Prop :=
  Forall (fun k => length k = 16%nat) ks.

Definition blocks16 (bs : list bytes) : Prop :=
  Forall (fun b => length b = 16%nat) bs.

Definition words4 (w : list word) : Prop :=
  Forall (fun x => length x = 4%nat) w.

End AES.


(** Byte strings written in hexadecimal, for test vectors. *)

Definition hex_digit (c : ascii) : N :=
  let n := N_of_ascii c in
  if n <? 58 then n - 48 else if n <? 71 then n - 55 else n - 87.

Fixpoint unhex (s : string) : bytes :=
  match s with
  | String a (String b s') => byte_of_N (16 * hex_digit a + hex_digit b) :: unhex s'
  | _ => []
  end.


(** ** Values exchanged with [json]

    What [json.loads] returns and [json.dumps] accepts.  A [dict] keeps
    its items in insertion order; its keys are pairwise distinct. *)

Inductive json : Type :=
| JNull
| JBool (b : bool)
| JInt (z : Z)
| JFloat (f : spec_float)
| JStr (s : str)
| JList (l : list json)
| JDict (d : list (str * json)).

Definition dict : Type := list (str * json).

Fixpoint dict_get (k : str) (d : dict) : option json :=
  match d with
  | [] => None
  | (k', v) :: d' => if str_eqb k k' then Some v else dict_get k d'
  end.

(** [bool(v)], the test of an [if] and of [and]. *)
Definition truthy (v : json) : bool :=
  match v with
  | JNull => false
  | JBool b => b
  | JInt z => negb (z =? 0)%Z
  | JFloat (S754_zero _) => false
  | JFloat _ => true
  | JStr [] => false
  | JStr _ => true
  | JList [] => false
  | JList _ => true
  | JDict [] => false
  | JDict _ => true
  end.

(** [isinstance(v, dict)] *)
Definition is_dict (v : json) : bool :=
  match v with
  | JDict _ => true
  | _ => false
  end.

(** [v.get(k)]: [None] for a missing key, AttributeError when [v] is
    not a [dict]. *)
Definition py_get (v : json) (k : str) : result json :=
  match v with
  | JDict d =>
      Ok (match dict_get k d with
          | Some x => x
          | None => JNull
          end)
  | _ => Raise (Exn AttributeError (lit "object has no attribute 'get'"))
  end.

(** A record: string keys, string values. *)
Definition record : Type := list (str * str).

Definition json_of_record (r : record) : json :=
  JDict (map (fun kv => (fst kv, JStr (snd kv))) r).

(** [s * n] for a [str]. *)
Fixpoint str_mul (s : str) (n : nat) : str :=
  match n with
  | O => []
  | S n' => s ++ str_mul s n'
  end.

(** ** The libraries that are parameters

    [zlib] and [json] are pure; RSA encryption draws random padding and
    [requests.post] talks to a server, so both thread a [World]. *)

Class ZlibLib : Type := {
  (** [c = zlib.compressobj(level, zlib.DEFLATED, wbits)], then
      [c.compress(data) + c.flush()] *)
  zlib_compress : Z -> Z -> bytes -> result bytes;
  (** [zlib.decompress(data, wbits)] *)
  zlib_decompress : bytes -> Z -> result bytes
}.

Class JsonLib : Type := {
  (** [json.dumps(v, separators=(',', ':'), sort_keys=False, ensure_ascii=True)] *)
  json_dumps : json -> result str;
  (** [json.loads(s)] *)
  json_loads : str -> result json
}.

(** A [requests.Response], as far as the driver looks at it. *)
Record Response : Type := {
  status_code : Z;
  reason : str;
  text : str
}.

Class Env : Type := {
  World : Type;
  RsaKey : Type;
  (** [RSA.import_key(pem)] *)
  RSA_import_key : str -> result RsaKey;
  (** [PKCS1_v1_5.new(k).encrypt(m)] *)
  PKCS1_v1_5_encrypt : RsaKey -> bytes -> World -> result bytes * World;
  (** [requests.post(url, json=body, headers=headers)] *)
  requests_post : str -> json -> list (str * str) -> World -> result Response * World
}.

(** Calls that act on the world. *)
Definition io `{Env} (A : Type) : Type := World -> result A * World.

Definition io_ret `{Env} {A : Type} (a : A) : io A := fun w => (Ok a, w).

Definition io_raise `{Env} {A : Type} (e : exn) : io A := fun w => (Raise e, w).

Definition io_lift `{Env} {A : Type} (r : result A) : io A := fun w => (r, w).

Definition io_bind `{Env} {A B : Type} (m : io A) (k : A -> io B) : io B :=
  fun w =>
    match m w with
    | (Ok a, w') => k a w'
    | (Raise e, w') => (Raise e, w')
    end.

Definition io_try_except `{Env} {A : Type} (body : io A) (handler : exn -> io A)
  : io A :=
  fun w =>
    match body w with
    | (Ok a, w') => (Ok a, w')
    | (Raise e, w') => handler e w'
    end.

Notation "x <~ m ;; k" := (io_bind m (fun x => k))
  (at level 61, m at next level, right associativity).

(** ** The program *)

Definition nl : str := [10].

Definition RSA_PUBLIC_KEY_PEM : str :=
  lit "-----BEGIN PUBLIC KEY-----" ++ nl ++
  lit "MIGfMA0GCSqGSIb3DQEBAQUAA4GNADCBiQKBgQCx2UKNVOg0dYx1R3p7GNAXcrRQ" ++ nl ++
  lit "7QkiE43UFbHxLPJ8gpWFxhSb6ZoCGO/8AkAFEgroJ7NKUhRyq71vCjDFJh8n7zjA" ++ nl ++
  lit "6rgIxKOPNwndHlXBLBj60avRb14BrunQ5EijwGpUF9jUeLrLO3GNd39T4l1RC0jj" ++ nl ++
  lit "TBa0hpKpGNGfQAd7rwIDAQAB" ++ nl ++
  lit "-----END PUBLIC KEY-----".

Section Envelope.
Context {zlib : ZlibLib} {jsonlib : JsonLib}.

(** The body of the [try] of [encrypt_aes_payload]. *)
Definition encrypt_aes_payload_body (data_dict : json) (key_string iv_string : str)
  : result str :=
  json_string <- json_dumps data_dict ;;
  json_bytes <- utf8_encode json_string ;;
  compressed_bytes <- zlib_compress 1 (-15) json_bytes ;;
  let pad_len :=
    AES.block_size - (N.of_nat (length compressed_bytes) mod AES.block_size) in
  pad <- py_bytes1 pad_len ;;
  let padded_bytes := compressed_bytes ++ bytes_mul pad (N.to_nat pad_len) in
  key_bytes <- utf8_encode key_string ;;
  iv_bytes <- utf8_encode iv_string ;;
  cipher <- AES.new key_bytes AES.MODE_CBC iv_bytes ;;
  encrypted_bytes <- AES.encrypt cipher padded_bytes ;;
  utf8_decode (Base64.b64encode encrypted_bytes).

Definition encrypt_aes_payload (data_dict : json) (key_string iv_string : str)
  : result str :=
  try_except (encrypt_aes_payload_body data_dict key_string iv_string)
             (fun e => Ok (lit "AES Encryption Error: " ++ exn_msg e)).

Definition invalid_padding : exn := Exn ValueError (lit "Invalid padding value.").

(** The name of the type of a value, as the messages of [TypeError]
    print it. *)
Definition type_name (v : json) : str :=
  match v with
  | JNull => lit "NoneType"
  | JBool _ => lit "bool"
  | JInt _ => lit "int"
  | JFloat _ => lit "float"
  | JStr _ => lit "str"
  | JList _ => lit "list"
  | JDict _ => lit "dict"
  end.

(** [len(v)] *)
Definition py_len (v : json) : result nat :=
  match v with
  | JStr s => Ok (length s)
  | JList l => Ok (length l)
  | JDict d => Ok (length d)
  | _ => Raise (Exn TypeError
                  (lit "object of type '" ++ type_name v ++ lit "' has no len()"))
  end.

(** [v += pad] for a [str] [pad]: what the name is bound to afterwards.
    A [str] gives a new [str]; a [list] is extended in place by the
    characters of [pad] and stays the same object. *)
Definition py_iadd_str (v : json) (pad : str) : result json :=
  match v with
  | JStr s => Ok (JStr (s ++ pad))
  | JList l => Ok (JList (l ++ map (fun c => JStr [c]) pad))
  | _ => Raise (Exn TypeError
                  (lit "unsupported operand type(s) for +=: '" ++ type_name v
                   ++ lit "' and 'str'"))
  end.

(** [base64.b64decode(v)] *)
Definition b64decode_value (v : json) : result bytes :=
  match v with
  | JStr s => Base64.b64decode s
  | _ => Raise (Exn TypeError
                  (lit "argument should be a bytes-like object or ASCII string, not '"
                   ++ type_name v ++ lit "'"))
  end.

(** Lines 60 to 62: the local [encrypted_data_b64] after the padding. *)
Definition padded_argument (encrypted_data_b64 : json) : result json :=
  n <- py_len encrypted_data_b64 ;;
  let padding_needed := (n mod 4)%nat in
  if (padding_needed =? 0)%nat then Ok encrypted_data_b64
  else py_iadd_str encrypted_data_b64 (str_mul (lit "=") (4 - padding_needed)).

(** The object that the caller passed as [encrypted_data_b64], after the
    call.  Line 62 extends a list in place, so the caller sees its new
    items; a [str] is immutable, and on the other values the call raises
    without changing them. *)
Definition argument_after (encrypted_data_b64 : json) : json :=
  match encrypted_data_b64, padded_argument encrypted_data_b64 with
  | JList _, Ok extended => extended
  | _, _ => encrypted_data_b64
  end.

(** The body of the [try] of [decrypt_and_decompress_payload]. *)
Definition decrypt_and_decompress_payload_body
    (encrypted_data_b64 : json) (key_string iv_string : str) : result json :=
  encrypted_data_b64 <- padded_argument encrypted_data_b64 ;;
  encrypted_bytes <- b64decode_value encrypted_data_b64 ;;
  key_bytes <- utf8_encode key_string ;;
  iv_bytes <- utf8_encode iv_string ;;
  cipher <- AES.new key_bytes AES.MODE_CBC iv_bytes ;;
  padded_plaintext <- AES.decrypt cipher encrypted_bytes ;;
  pad_len <- index_last padded_plaintext ;;
  if (AES.block_size <? pad_len) || (pad_len =? 0) then Raise invalid_padding
  else
    let plaintext_bytes := slice_drop_last padded_plaintext pad_len in
    decompressed_bytes <- zlib_decompress plaintext_bytes (-15) ;;
    decompressed_text <- utf8_decode decompressed_bytes ;;
    json_loads decompressed_text.

(** What the body raises on an argument that is no [str]: [len] rejects
    [None], a boolean and a number; [+=] rejects a [dict] whose length
    is no multiple of 4; [b64decode] rejects a list and the other
    dicts. *)
Definition non_str_error (v : json) : exn :=
  match v with
  | JList _ =>
      Exn TypeError
        (lit "argument should be a bytes-like object or ASCII string, not 'list'")
  | JDict d =>
      if (length d mod 4 =? 0)%nat then
        Exn TypeError
          (lit "argument should be a bytes-like object or ASCII string, not 'dict'")
      else
        Exn TypeError (lit "unsupported operand type(s) for +=: 'dict' and 'str'")
  | _ =>
      Exn TypeError
        (lit "object of type '" ++ type_name v ++ lit "' has no len()")
  end.

(** The record returned by the [except] clause. *)
Definition error_record (e : exn) : json :=
  JDict [(lit "error", JStr (lit "Decryption Failed: " ++ exn_msg e))].

Definition decrypt_and_decompress_payload
    (encrypted_data_b64 : json) (key_string iv_string : str) : result json :=
  try_except
    (decrypt_and_decompress_payload_body encrypted_data_b64 key_string iv_string)
    (fun e => Ok (error_record e)).

(** [response.raise_for_status()] *)
Definition raise_for_status (r : Response) : result unit :=
  if ((400 <=? status_code r) && (status_code r <? 600))%Z
  then Raise (Exn HTTPError (lit "Client or Server Error: " ++ reason r))
  else Ok tt.

(** [response.json()] *)
Definition Response_json (r : Response) : result json := json_loads (text r).

Context {env : Env}.

(** The body of the [try] of [encrypt_rsa]. *)
Definition encrypt_rsa_body (data_string : str) : io str :=
  rsa_key <~ io_lift (RSA_import_key RSA_PUBLIC_KEY_PEM) ;;
  data_bytes <~ io_lift (utf8_encode data_string) ;;
  encrypted_data <~ PKCS1_v1_5_encrypt rsa_key data_bytes ;;
  io_lift (utf8_decode (Base64.b64encode encrypted_data)).

Definition encrypt_rsa (data_string : str) : io str :=
  io_try_except (encrypt_rsa_body data_string)
                (fun e => io_ret (lit "RSA Encryption Error: " ++ exn_msg e)).

(** The locals [key] and [iv] of [perform_request]. *)
Definition fixed_key : str := lit "cfc0d8be37e5ca838da40740d6723a0f".
Definition fixed_iv : str := lit "7b242d789da2c4c7".

Definition plaintext_data (username password : str) : json :=
  JDict [(lit "versionCode", JStr (lit "211"));
         (lit "from", JStr (lit "1201"));
         (lit "fp", JStr (lit "f271d21900168bbf9125654e33b3b6db"));
         (lit "referer", JStr (lit ""));
         (lit "uuid", JStr (lit "f6d98180-876d-11f0-bd09-fdf3fcb93db6"));
         (lit "cur", JStr (lit "USD"));
         (lit "username", JStr username);
         (lit "password", JStr password);
         (lit "captcha", JStr (lit ""))].

Definition encryption_failed : exn :=
  Exn PlainException (lit "Encryption failed during payload creation.").

(** The test of line 92. *)
Definition error_in (encrypted_data encrypted_key_rsa encrypted_iv_rsa : str) : bool :=
  str_in (lit "Error") encrypted_data
  || str_in (lit "Error") encrypted_key_rsa
  || str_in (lit "Error") encrypted_iv_rsa.

Definition request_body (encrypted_data encrypted_key_rsa encrypted_iv_rsa : str)
  : json :=
  JDict [(lit "data", JStr encrypted_data);
         (lit "req_code", JInt 4);
         (lit "key", JStr encrypted_key_rsa);
         (lit "iv", JStr encrypted_iv_rsa)].

(** Lines 101 to 106: the classification of a parsed response. *)
Definition is_hit_of (response_json : json) : result bool :=
  encrypted_response_data <- py_get response_json (lit "data") ;;
  if truthy encrypted_response_data then
    decrypted_response <-
      decrypt_and_decompress_payload encrypted_response_data fixed_key fixed_iv ;;
    if is_dict decrypted_response then
      token <- py_get decrypted_response (lit "token") ;;
      Ok (truthy token)
    else Ok false
  else Ok false.

Definition credentials (username password : str) : str :=
  username ++ lit ":" ++ password.

(** [d[k] = v] for a key that [d] holds: the item keeps its place. *)
Fixpoint dict_replace (k : str) (v : json) (d : dict) : dict :=
  match d with
  | [] => []
  | (k', v') :: d' =>
      if str_eqb k k' then (k', v) :: d' else (k', v') :: dict_replace k v d'
  end.

(** [response_json] when line 108 returns it.  Its [data] item is the
    object that line 104 passed to the decoder: a list that the decoder
    has extended in place shows its new items. *)
Definition returned_json (response_json : json) : json :=
  match response_json with
  | JDict d =>
      match dict_get (lit "data") d with
      | Some encrypted_response_data =>
          if truthy encrypted_response_data then
            JDict (dict_replace (lit "data")
                     (argument_after encrypted_response_data) d)
          else response_json
      | None => response_json
      end
  | _ => response_json
  end.

(** The body of the [try] of [perform_request]. *)
Definition perform_request_body (username password url : str)
  : io (bool * str * json) :=
  encrypted_data <~
    io_lift (encrypt_aes_payload (plaintext_data username password)
                                 fixed_key fixed_iv) ;;
  encrypted_key_rsa <~ encrypt_rsa fixed_key ;;
  encrypted_iv_rsa <~ encrypt_rsa fixed_iv ;;
  if error_in encrypted_data encrypted_key_rsa encrypted_iv_rsa
  then io_raise encryption_failed
  else
    response <~
      requests_post url
        (request_body encrypted_data encrypted_key_rsa encrypted_iv_rsa)
        [(lit "Content-Type", lit "application/json")] ;;
    _ <~ io_lift (raise_for_status response) ;;
    response_json <~ io_lift (Response_json response) ;;
    is_hit <~ io_lift (is_hit_of response_json) ;;
    io_ret (is_hit, credentials username password, returned_json response_json).

Definition perform_request (username password url : str)
  : io (bool * str * json) :=
  io_try_except
    (perform_request_body username password url)
    (fun e => io_ret (false, credentials username password,
                      JDict [(lit "error", JStr (exn_msg e))])).

End Envelope.

(** ** The stages of the two pipelines

    Each stage repeats a run of consecutive lines of the source; the
    properties section shows that the bodies above are their
    compositions. *)

Section Stages.
Context {zlib : ZlibLib} {jsonlib : JsonLib}.

(** Lines 36 to 38: serialise and compress. *)
Definition compressed_bytes_of (data_dict : json) : result bytes :=
  json_string <- json_dumps data_dict ;;
  json_bytes <- utf8_encode json_string ;;
  zlib_compress 1 (-15) json_bytes.

(** Line 39. *)
Definition pad_len_of (compressed_bytes : bytes) : N :=
  AES.block_size - (N.of_nat (length compressed_bytes) mod AES.block_size).

(** Lines 39 and 40: pad. *)
Definition padded_bytes_of (compressed_bytes : bytes) : result bytes :=
  let pad_len := pad_len_of compressed_bytes in
  pad <- py_bytes1 pad_len ;;
  Ok (compressed_bytes ++ bytes_mul pad (N.to_nat pad_len)).

(** Lines 41 to 43: the cipher object of both directions. *)
Definition cipher_of (key_string iv_string : str) : result AES.cipher :=
  key_bytes <- utf8_encode key_string ;;
  iv_bytes <- utf8_encode iv_string ;;
  AES.new key_bytes AES.MODE_CBC iv_bytes.

(** Lines 41 to 45: encrypt and encode. *)
Definition encrypt_and_encode (padded_bytes : bytes) (key_string iv_string : str)
  : result str :=
  cipher <- cipher_of key_string iv_string ;;
  encrypted_bytes <- AES.encrypt cipher padded_bytes ;;
  utf8_decode (Base64.b64encode encrypted_bytes).

(** Lines 60 to 62: restore the base64 padding. *)
Definition restore_padding (encrypted_data_b64 : str) : str :=
  let padding_needed := (length encrypted_data_b64 mod 4)%nat in
  if (padding_needed =? 0)%nat then encrypted_data_b64
  else encrypted_data_b64 ++ str_mul (lit "=") (4 - padding_needed).

(** Lines 60 to 67: decode and decrypt. *)
Definition padded_plaintext_of (encrypted_data_b64 key_string iv_string : str)
  : result bytes :=
  encrypted_bytes <- Base64.b64decode (restore_padding encrypted_data_b64) ;;
  cipher <- cipher_of key_string iv_string ;;
  AES.decrypt cipher encrypted_bytes.

(** Lines 72 and 73: inflate and parse. *)
Definition inflate_and_parse (plaintext_bytes : bytes) : result json :=
  decompressed_bytes <- zlib_decompress plaintext_bytes (-15) ;;
  decompressed_text <- utf8_decode decompressed_bytes ;;
  json_loads decompressed_text.

(** Lines 68 to 73: check the last byte, strip, inflate and parse. *)
Definition unpad_and_parse (padded_plaintext : bytes) : result json :=
  pad_len <- index_last padded_plaintext ;;
  if (AES.block_size <? pad_len) || (pad_len =? 0) then Raise invalid_padding
  else inflate_and_parse (slice_drop_last padded_plaintext pad_len).

Context {env : Env}.

Definition headers : list (str * str) :=
  [(lit "Content-Type", lit "application/json")].

(** Lines 89 and 90: the three strings of the envelope. *)
Definition encrypt_request (username password : str) : io (str * str * str) :=
  encrypted_data <~
    io_lift (encrypt_aes_payload (plaintext_data username password)
                                 fixed_key fixed_iv) ;;
  encrypted_key_rsa <~ encrypt_rsa fixed_key ;;
  encrypted_iv_rsa <~ encrypt_rsa fixed_iv ;;
  io_ret (encrypted_data, encrypted_key_rsa, encrypted_iv_rsa).

(** Lines 98 to 108: what follows a response. *)
Definition classify (username password : str) (response : Response)
  : result (bool * str * json) :=
  _ <- raise_for_status response ;;
  response_json <- Response_json response ;;
  is_hit <- is_hit_of response_json ;;
  Ok (is_hit, credentials username password, returned_json response_json).

(** Lines 95 to 108: send the envelope and classify the answer. *)
Definition send_and_classify (username password url : str)
    (encrypted_data encrypted_key_rsa encrypted_iv_rsa : str)
  : io (bool * str * json) :=
  response <~
    requests_post url
      (request_body encrypted_data encrypted_key_rsa encrypted_iv_rsa)
      headers ;;
  io_lift (classify username password response).

(** The outcome reported by the [except] clause of [perform_request]. *)
Definition failure_outcome (username password : str) (e : exn)
  : bool * str * json :=
  (false, credentials username password, JDict [(lit "error", JStr (exn_msg e))]).

(** The record of the example of the specification. *)
Definition example_record : record :=
  [(lit "versionCode", lit "211");
   (lit "from", lit "1201");
   (lit "fp", lit "f271d21900168bbf9125654e33b3b6db");
   (lit "referer", lit "");
   (lit "uuid", lit "f6d98180-876d-11f0-bd09-fdf3fcb93db6");
   (lit "cur", lit "USD");
   (lit "username", lit "a@b.com");
   (lit "password", lit "x");
   (lit "captcha", lit "")].

(** A truthy [token] in a decoded record. *)
Definition has_token (decoded : json) : Prop :=
  exists d t, decoded = JDict d /\ dict_get (lit "token") d = Some t
              /\ truthy t = true.

End Stages.

(** The characters of a base64 text. *)
Definition is_b64_char (c : N) : bool :=
  ((65 <=? c) && (c <=? 90)) || ((97 <=? c) && (c <=? 122))
  || ((48 <=? c) && (c <=? 57)) || (c =? 43) || (c =? 47) || (c =? 61).

(** The text of an encoded byte string, as a [str]. *)
Definition b64text (b : bytes) : str := map Byte.to_N (Base64.b64encode b).


(** The reading of C8: the cipher of the example is the one of the first
    16 bytes of the key string. *)
Definition example_key_used_as_aes128 : Prop :=
  cipher_of fixed_key fixed_iv = cipher_of (firstn 16 fixed_key) fixed_iv.


(** ** Reference libraries

    Instances of the library parameters on which the program can be
    evaluated: a JSON writer and reader for values without floats, an
    inflater for raw DEFLATE streams, recorded runs of the compressor of
    zlib 1.2.13 with stored blocks for everything else, RSA ciphertexts
    drawn from a tape, and a scripted server. *)

Module Ref.

(** *** [json.dumps] with compact separators and [ensure_ascii] *)

Definition quote : N := 34.
Definition backslash : N := 92.

Definition hex_char (n : N) : N := if n <? 10 then 48 + n else 87 + n.

Definition hex4 (n : N) : str :=
  [hex_char ((n / 4096) mod 16); hex_char ((n / 256) mod 16);
   hex_char ((n / 16) mod 16); hex_char (n mod 16)].

Definition escape_char (c : N) : str :=
  if c =? quote then [backslash; quote]
  else if c =? backslash then [backslash; backslash]
  else if c =? 10 then backslash :: lit "n"
  else if c =? 13 then backslash :: lit "r"
  else if c =? 9 then backslash :: lit "t"
  else if c =? 8 then backslash :: lit "b"
  else if c =? 12 then backslash :: lit "f"
  else if (32 <=? c) && (c <=? 126) then [c]
  else if c <? 0x10000 then backslash :: lit "u" ++ hex4 c
  else
    let v := c - 0x10000 in
    backslash :: lit "u" ++ hex4 (0xD800 + v / 1024)
    ++ backslash :: lit "u" ++ hex4 (0xDC00 + v mod 1024).

Definition dumps_str (s : str) : str :=
  quote :: flat_map escape_char s ++ [quote].

Definition dumps_int (z : Z) : str :=
  match z with
  | Z0 => lit "0"
  | Zpos p => lit (NilEmpty.string_of_uint (Pos.to_uint p))
  | Zneg p => lit "-" ++ lit (NilEmpty.string_of_uint (Pos.to_uint p))
  end.

Definition float_unsupported : exn :=
  Exn ValueError (lit "reference json: floats are not supported").

Fixpoint join (sep : str) (l : list str) : str :=
  match l with
  | [] => []
  | [x] => x
  | x :: l' => x ++ sep ++ join sep l'
  end.

Fixpoint sequence {A : Type} (l : list (result A)) : result (list A) :=
  match l with
  | [] => Ok []
  | r :: l' => a <- r ;; t <- sequence l' ;; Ok (a :: t)
  end.

Fixpoint dumps (v : json) : result str :=
  match v with
  | JNull => Ok (lit "null")
  | JBool true => Ok (lit "true")
  | JBool false => Ok (lit "false")
  | JInt z => Ok (dumps_int z)
  | JFloat _ => Raise float_unsupported
  | JStr s => Ok (dumps_str s)
  | JList l =>
      items <- sequence (map dumps l) ;;
      Ok (lit "[" ++ join (lit ",") items ++ lit "]")
  | JDict d =>
      items <- sequence (map (fun kv =>
                 t <- dumps (snd kv) ;;
                 Ok (dumps_str (fst kv) ++ lit ":" ++ t)) d) ;;
      Ok (lit "{" ++ join (lit ",") items ++ lit "}")
  end.

(** *** [json.loads] *)

Definition decode_error : exn :=
  Exn JSONDecodeError (lit "Expecting value").

Definition is_ws (c : N) : bool :=
  (c =? 32) || (c =? 9) || (c =? 10) || (c =? 13).

Fixpoint skip_ws (s : str) : str :=
  match s with
  | c :: s' => if is_ws c then skip_ws s' else s
  | [] => []
  end.

Definition hex_value (c : N) : option N :=
  if (48 <=? c) && (c <=? 57) then Some (c - 48)
  else if (97 <=? c) && (c <=? 102) then Some (c - 87)
  else if (65 <=? c) && (c <=? 70) then Some (c - 55)
  else None.

Definition hex4_value (a b c d : N) : option N :=
  match hex_value a, hex_value b, hex_value c, hex_value d with
  | Some x, Some y, Some z, Some t => Some (x * 4096 + y * 256 + z * 16 + t)
  | _, _, _, _ => None
  end.

Definition simple_escape (c : N) : option N :=
  if c =? quote then Some quote
  else if c =? backslash then Some backslash
  else if c =? 47 then Some 47
  else if c =? 98 then Some 8
  else if c =? 102 then Some 12
  else if c =? 110 then Some 10
  else if c =? 114 then Some 13
  else if c =? 116 then Some 9
  else None.

Definition is_high (u : N) : bool := (0xD800 <=? u) && (u <=? 0xDBFF).
Definition is_low (u : N) : bool := (0xDC00 <=? u) && (u <=? 0xDFFF).

(** After the opening quote: the string and what follows its closing
    quote.  A high surrogate escape followed by a low one is one code
    point. *)
Fixpoint loads_string (s : str) : result (str * str) :=
  match s with
  | [] => Raise decode_error
  | c :: s1 =>
    if c =? quote then Ok ([], s1)
    else if c <? 32 then Raise decode_error
    else if c =? backslash then
      match s1 with
      | e :: s2 =>
        if e =? 117 then
          match s2 with
          | h1 :: h2 :: h3 :: h4 :: s6 =>
            match hex4_value h1 h2 h3 h4 with
            | None => Raise decode_error
            | Some u =>
              let single :=
                r <- loads_string s6 ;; Ok (u :: fst r, snd r) in
              match s6 with
              | b :: x :: l1 :: l2 :: l3 :: l4 :: s12 =>
                if is_high u && (b =? backslash) && (x =? 117) then
                  match hex4_value l1 l2 l3 l4 with
                  | Some u2 =>
                    if is_low u2 then
                      r <- loads_string s12 ;;
                      Ok (0x10000 + (u - 0xD800) * 1024 + (u2 - 0xDC00) :: fst r,
                          snd r)
                    else single
                  | None => single
                  end
                else single
              | _ => single
              end
            end
          | _ => Raise decode_error
          end
        else
          match simple_escape e with
          | Some v => r <- loads_string s2 ;; Ok (v :: fst r, snd r)
          | None => Raise decode_error
          end
      | [] => Raise decode_error
      end
    else r <- loads_string s1 ;; Ok (c :: fst r, snd r)
  end.

Definition is_digit (c : N) : bool := (48 <=? c) && (c <=? 57).

Fixpoint loads_digits (s : str) (acc : N) : N * str :=
  match s with
  | c :: s' => if is_digit c then loads_digits s' (10 * acc + (c - 48)) else (acc, s)
  | [] => (acc, [])
  end.

(** An integer; a fraction or an exponent would make a float. *)
Definition loads_number (negative : bool) (s : str) : result (json * str) :=
  match s with
  | c :: s' =>
    if is_digit c then
      let (n, rest) := if c =? 48 then (0, s') else loads_digits s 0 in
      match rest with
      | d :: _ =>
        if (d =? 46) || (d =? 101) || (d =? 69) then Raise float_unsupported
        else Ok (JInt (if negative then - Z.of_N n else Z.of_N n), rest)
      | [] => Ok (JInt (if negative then - Z.of_N n else Z.of_N n), rest)
      end
    else Raise decode_error
  | [] => Raise decode_error
  end.

(** The first value for a key stays in place and takes the last value. *)
Fixpoint dict_set (k : str) (v : json) (d : dict) : dict :=
  match d with
  | [] => [(k, v)]
  | (k', v') :: d' =>
      if str_eqb k k' then (k', v) :: d' else (k', v') :: dict_set k v d'
  end.

Fixpoint loads_value (fuel : nat) (s : str) : result (json * str) :=
  match fuel with
  | O => Raise decode_error
  | S fuel' =>
    let fix loads_items (n : nat) (s : str) (acc : list json)
        : result (json * str) :=
      match n with
      | O => Raise decode_error
      | S n' =>
        r <- loads_value fuel' s ;;
        match skip_ws (snd r) with
        | c :: s' =>
          if c =? 44 then loads_items n' s' (fst r :: acc)
          else if c =? 93 then Ok (JList (rev (fst r :: acc)), s')
          else Raise decode_error
        | [] => Raise decode_error
        end
      end in
    let fix loads_members (n : nat) (s : str) (acc : dict)
        : result (json * str) :=
      match n with
      | O => Raise decode_error
      | S n' =>
        match skip_ws s with
        | q :: s1 =>
          if q =? quote then
            k <- loads_string s1 ;;
            match skip_ws (snd k) with
            | c :: s2 =>
              if c =? 58 then
                r <- loads_value fuel' s2 ;;
                match skip_ws (snd r) with
                | c' :: s3 =>
                  if c' =? 44 then loads_members n' s3 (dict_set (fst k) (fst r) acc)
                  else if c' =? 125 then
                    Ok (JDict (dict_set (fst k) (fst r) acc), s3)
                  else Raise decode_error
                | [] => Raise decode_error
                end
              else Raise decode_error
            | [] => Raise decode_error
            end
          else Raise decode_error
        | [] => Raise decode_error
        end
      end in
    match skip_ws s with
    | [] => Raise decode_error
    | c :: s1 =>
      if c =? quote then r <- loads_string s1 ;; Ok (JStr (fst r), snd r)
      else if c =? 123 then
        match skip_ws s1 with
        | c' :: s2 =>
          if c' =? 125 then Ok (JDict [], s2)
          else loads_members (length s1) s1 []
        | [] => Raise decode_error
        end
      else if c =? 91 then
        match skip_ws s1 with
        | c' :: s2 =>
          if c' =? 93 then Ok (JList [], s2)
          else loads_items (length s1) s1 []
        | [] => Raise decode_error
        end
      else if c =? 45 then loads_number true s1
      else if starts_with (lit "true") (c :: s1) then Ok (JBool true, skipn 3 s1)
      else if starts_with (lit "false") (c :: s1) then Ok (JBool false, skipn 4 s1)
      else if starts_with (lit "null") (c :: s1) then Ok (JNull, skipn 3 s1)
      else loads_number false (c :: s1)
    end
  end.

Definition loads (s : str) : result json :=
  r <- loads_value (S (length s)) s ;;
  match skip_ws (snd r) with
  | [] => Ok (fst r)
  | _ => Raise (Exn JSONDecodeError (lit "Extra data"))
  end.

#[export] Instance jsonlib : JsonLib := {|
  json_dumps := dumps;
  json_loads := loads
|}.


(** *** [zlib.decompress] with [wbits=-15]: raw DEFLATE, RFC 1951 *)

Definition data_error : exn :=
  Exn ZlibError (lit "Error -3 while decompressing data").

Definition truncated : exn :=
  Exn ZlibError (lit "Error -5 while decompressing data: incomplete or truncated stream").

(** The bits of a byte string, the least significant bit of a byte first. *)
Definition bits_of_byte (b : byte) : list bool :=
  let n := Byte.to_N b in
  map (fun i => N.testbit n i) [0; 1; 2; 3; 4; 5; 6; 7].

Definition bits_of_bytes (b : bytes) : list bool := flat_map bits_of_byte b.

(** [n] bits, the first one the least significant. *)
Fixpoint take_bits (n : nat) (s : list bool) : result (N * list bool) :=
  match n with
  | O => Ok (0, s)
  | S n' =>
      match s with
      | [] => Raise truncated
      | b :: s' =>
          r <- take_bits n' s' ;;
          Ok ((if b then 1 else 0) + 2 * fst r, snd r)
      end
  end.

(** A canonical Huffman code: how many symbols have a code of 1, 2, ...
    15 bits, and the symbols in the order of their codes. *)
Record huffman : Type := { counts : list N; symbols : list N }.

Definition count_of (lengths : list N) (l : N) : N :=
  N.of_nat (length (filter (fun x => x =? l) lengths)).

Fixpoint symbols_of (lengths : list N) (sym : N) (l : N) : list N :=
  match lengths with
  | [] => []
  | x :: lengths' =>
      if x =? l then sym :: symbols_of lengths' (sym + 1) l
      else symbols_of lengths' (sym + 1) l
  end.

Definition code_lengths : list N := [1; 2; 3; 4; 5; 6; 7; 8; 9; 10; 11; 12; 13; 14; 15].

Definition construct (lengths : list N) : huffman :=
  {| counts := map (count_of lengths) code_lengths;
     symbols := flat_map (symbols_of lengths 0) code_lengths |}.

(** One symbol, bit by bit: [code] is the bits read so far, [first] the
    first code of the current length, [index] the rank of its symbol. *)
Fixpoint decode_loop (cs : list N) (syms : list N) (code first index : N)
    (s : list bool) : result (N * list bool) :=
  match cs with
  | [] => Raise data_error
  | count :: cs' =>
      match s with
      | [] => Raise truncated
      | b :: s' =>
          let code := code + (if b then 1 else 0) in
          if code <? first + count then
            Ok (nth (N.to_nat (index + (code - first))) syms 0, s')
          else
            decode_loop cs' syms (2 * code) (2 * (first + count))
                        (index + count) s'
      end
  end.

Definition decode (h : huffman) (s : list bool) : result (N * list bool) :=
  decode_loop (counts h) (symbols h) 0 0 0 s.

Definition length_base : list N :=
  [3; 4; 5; 6; 7; 8; 9; 10; 11; 13; 15; 17; 19; 23; 27; 31; 35; 43; 51; 59;
   67; 83; 99; 115; 131; 163; 195; 227; 258].
Definition length_extra : list nat :=
  [0; 0; 0; 0; 0; 0; 0; 0; 1; 1; 1; 1; 2; 2; 2; 2; 3; 3; 3; 3; 4; 4; 4; 4;
   5; 5; 5; 5; 0]%nat.
Definition distance_base : list N :=
  [1; 2; 3; 4; 5; 7; 9; 13; 17; 25; 33; 49; 65; 97; 129; 193; 257; 385; 513;
   769; 1025; 1537; 2049; 3073; 4097; 6145; 8193; 12289; 16385; 24577].
Definition distance_extra : list nat :=
  [0; 0; 0; 0; 1; 1; 2; 2; 3; 3; 4; 4; 5; 5; 6; 6; 7; 7; 8; 8; 9; 9; 10; 10;
   11; 11; 12; 12; 13; 13]%nat.

(** [len] bytes copied from [dist] bytes back; [out] is the output so
    far, last byte first. *)
Fixpoint copy_back (len : nat) (dist : nat) (out : bytes) : bytes :=
  match len with
  | O => out
  | S len' => copy_back len' dist (nth (dist - 1) out x00 :: out)
  end.

(** The symbols of one compressed block. *)
Fixpoint inflate_codes (fuel : nat) (lencode distcode : huffman)
    (s : list bool) (out : bytes) : result (list bool * bytes) :=
  match fuel with
  | O => Raise truncated
  | S fuel' =>
      r <- decode lencode s ;;
      let sym := fst r in
      let s := snd r in
      if sym <? 256 then
        inflate_codes fuel' lencode distcode s (byte_of_N sym :: out)
      else if sym =? 256 then Ok (s, out)
      else
        let i := N.to_nat (sym - 257) in
        if (29 <=? i)%nat then Raise data_error
        else
          e <- take_bits (nth i length_extra O) s ;;
          let len := nth i length_base 0 + fst e in
          d <- decode distcode (snd e) ;;
          let j := N.to_nat (fst d) in
          if (30 <=? j)%nat then Raise data_error
          else
            x <- take_bits (nth j distance_extra O) (snd d) ;;
            let dist := nth j distance_base 0 + fst x in
            if N.of_nat (length out) <? dist then Raise data_error
            else
              inflate_codes fuel' lencode distcode (snd x)
                (copy_back (N.to_nat len) (N.to_nat dist) out)
  end.

Definition fixed_lencode : huffman :=
  construct (repeat 8 144 ++ repeat 9 112 ++ repeat 7 24 ++ repeat 8 8).

Definition fixed_distcode : huffman := construct (repeat 5 30).

Definition length_order : list nat :=
  [16; 17; 18; 0; 8; 7; 9; 6; 10; 5; 11; 4; 12; 3; 13; 2; 14; 1; 15]%nat.

(** [n] code lengths of three bits each, in the order of
    [length_order]. *)
Fixpoint read_length_lengths (n : nat) (order : list nat) (s : list bool)
    (acc : list (nat * N)) : result (list (nat * N) * list bool) :=
  match n, order with
  | S n', i :: order' =>
      r <- take_bits 3 s ;;
      read_length_lengths n' order' (snd r) ((i, fst r) :: acc)
  | _, _ => Ok (acc, s)
  end.

Definition lookup_length (table : list (nat * N)) (i : nat) : N :=
  match find (fun p => (fst p =? i)%nat) table with
  | Some p => snd p
  | None => 0
  end.

(** The code lengths of the literal/length and distance codes, with the
    repeat symbols 16, 17 and 18; [acc] holds them last first. *)
Fixpoint read_lengths (fuel : nat) (total : nat) (lencode : huffman)
    (s : list bool) (acc : list N) : result (list N * list bool) :=
  match fuel with
  | O => Raise data_error
  | S fuel' =>
      if (total <=? length acc)%nat then
        if (length acc =? total)%nat then Ok (rev acc, s) else Raise data_error
      else
        r <- decode lencode s ;;
        let sym := fst r in
        if sym <? 16 then read_lengths fuel' total lencode (snd r) (sym :: acc)
        else if sym =? 16 then
          match acc with
          | [] => Raise data_error
          | prev :: _ =>
              e <- take_bits 2 (snd r) ;;
              read_lengths fuel' total lencode (snd e)
                (repeat prev (3 + N.to_nat (fst e)) ++ acc)
          end
        else if sym =? 17 then
          e <- take_bits 3 (snd r) ;;
          read_lengths fuel' total lencode (snd e)
            (repeat 0 (3 + N.to_nat (fst e)) ++ acc)
        else
          e <- take_bits 7 (snd r) ;;
          read_lengths fuel' total lencode (snd e)
            (repeat 0 (11 + N.to_nat (fst e)) ++ acc)
  end.

Definition inflate_dynamic (s : list bool) (out : bytes)
  : result (list bool * bytes) :=
  a <- take_bits 5 s ;;
  b <- take_bits 5 (snd a) ;;
  c <- take_bits 4 (snd b) ;;
  let nlen := (N.to_nat (fst a) + 257)%nat in
  let ndist := (N.to_nat (fst b) + 1)%nat in
  let ncode := (N.to_nat (fst c) + 4)%nat in
  if (286 <? nlen)%nat || (30 <? ndist)%nat then Raise data_error
  else
    t <- read_length_lengths ncode length_order (snd c) [] ;;
    let lencode := construct (map (lookup_length (fst t)) (seq 0 19)) in
    l <- read_lengths (S (nlen + ndist)) (nlen + ndist) lencode (snd t) [] ;;
    if nth 256 (fst l) 0 =? 0 then Raise data_error
    else
      inflate_codes (S (length (snd l)))
        (construct (firstn nlen (fst l))) (construct (skipn nlen (fst l)))
        (snd l) out.

(** A stored block: the rest of the current byte is skipped. *)
Definition inflate_stored (s : list bool) (out : bytes)
  : result (list bool * bytes) :=
  let s := skipn (length s mod 8) s in
  a <- take_bits 16 s ;;
  b <- take_bits 16 (snd a) ;;
  if negb (fst b =? 65535 - fst a) then Raise data_error
  else
    let n := (8 * N.to_nat (fst a))%nat in
    if (length (snd b) <? n)%nat then Raise truncated
    else
      let fix bytes_of (k : nat) (s : list bool) (out : bytes) : bytes :=
        match k with
        | O => out
        | S k' =>
            match take_bits 8 s with
            | Ok r => bytes_of k' (snd r) (byte_of_N (fst r) :: out)
            | Raise _ => out
            end
        end in
      Ok (skipn n (snd b), bytes_of (N.to_nat (fst a)) (snd b) out).

Fixpoint inflate_blocks (fuel : nat) (s : list bool) (out : bytes)
  : result bytes :=
  match fuel with
  | O => Raise truncated
  | S fuel' =>
      final <- take_bits 1 s ;;
      type <- take_bits 2 (snd final) ;;
      r <- (if fst type =? 0 then inflate_stored (snd type) out
            else if fst type =? 1 then
              inflate_codes (S (length s)) fixed_lencode fixed_distcode
                            (snd type) out
            else if fst type =? 2 then inflate_dynamic (snd type) out
            else Raise data_error) ;;
      if fst final =? 1 then Ok (rev (snd r))
      else inflate_blocks fuel' (fst r) (snd r)
  end.

(** Data after the final block is ignored. *)
Definition inflate (data : bytes) : result bytes :=
  let s := bits_of_bytes data in
  inflate_blocks (S (length s)) s [].

(** *** [zlib.compressobj]

    Outputs of zlib 1.2.13 at level 1 with [wbits=-15], recorded for the
    texts used below; any other data travels in one stored block. *)

Definition recorded_runs : list (bytes * bytes) :=
  [(unhex "7b2276657273696f6e436f6465223a22323131222c2266726f6d223a2231323031222c226670223a226632373164323139303031363862626639313235363534653333623362366462222c2272656665726572223a22222c2275756964223a2266366439383138302d383736642d313166302d626430392d666466336663623933646236222c22637572223a22555344222c22757365726e616d65223a227573657232383338383231406578616d706c652e636f6d222c2270617373776f7264223a2278222c2263617074636861223a22227d",
    unhex "1d8e410ec2201444efc2ba183e580aae4cf406c60300ff139b582160b589f1ee82bb79c9bccc7cd88b4a9dd3e39490d881490036b058d2d200a4f8536e39ca0950821502b4f13e5a90a31ef7a494575ea36f56a148854a2b3758d719bba6d11a30829b49230788827b1496478c2a066f157addda61eddaf572ee66a5f2704b7fd3a334ca180947dadc92efb40beddac0b2abf59d4a9fd8baeff233dc5c23f6fd01");
   (unhex "7b2276657273696f6e436f6465223a22323131222c2266726f6d223a2231323031222c226670223a226632373164323139303031363862626639313235363534653333623362366462222c2272656665726572223a22222c2275756964223a2266366439383138302d383736642d313166302d626430392d666466336663623933646236222c22637572223a22555344222c22757365726e616d65223a226140622e636f6d222c2270617373776f7264223a2278222c2263617074636861223a22227d",
    unhex "1d8e410ec2201045efc2ba18062c0557267a03e301180662179506ac9a18efeee06e5ef2dee47fc433d53697fba9501207a101c420722d0b0368f5a795efac27200d5e29b00e317bd0a31df7c918346809b9aa29a79a2acb0cdb3653cf2c79074e4937599200594924e565a66c72446f082ddb71ebd9f572ee654bf51e96be261c711779ca20d6d0daabd4fef2ddfdb03ee22d3089ef0f");
   (unhex "7b22746f6b656e223a22616263227d", unhex "ab562ac9cf4ecd53b2524a4c4a56aa0500");
   (unhex "7b22746f6b656e223a22227d", unhex "ab562ac9cf4ecd53b25252aa0500");
   (unhex "7b7d", unhex "abae0500");
   (unhex "7b226b223a225c75643833645c7564653030227d",
    unhex "ab56ca56b2528a294db1304e0192a906064ab500")].

Fixpoint bytes_eqb (a b : bytes) : bool :=
  match a, b with
  | [], [] => true
  | x :: a', y :: b' => Byte.eqb x y && bytes_eqb a' b'
  | _, _ => false
  end.

Definition stored_block (data : bytes) : bytes :=
  let n := N.of_nat (length data) in
  x01 :: byte_of_N n :: byte_of_N (n / 256)
      :: byte_of_N (255 - n mod 256) :: byte_of_N (255 - (n / 256) mod 256)
      :: data.

Definition compress (level wbits : Z) (data : bytes) : result bytes :=
  match find (fun r => bytes_eqb (fst r) data) recorded_runs with
  | Some r => Ok (snd r)
  | None =>
      if N.of_nat (length data) <? 65536 then Ok (stored_block data)
      else Raise (Exn ZlibError (lit "reference zlib: more than one stored block"))
  end.

Definition decompress (data : bytes) (wbits : Z) : result bytes := inflate data.

#[export] Instance zlib : ZlibLib := {|
  zlib_compress := compress;
  zlib_decompress := decompress
|}.

(** *** RSA and the server

    The encryption pads with random bytes: a world holds the ciphertexts
    that the next encryptions return, besides the server and the requests
    sent so far. *)

Definition server_fn : Type := str -> json -> result Response.

Record world : Type := {
  ciphertexts : list bytes;
  server : server_fn;
  sent : list (str * json)
}.

Definition import_key (pem : str) : result unit :=
  if starts_with (lit "-----BEGIN PUBLIC KEY-----") pem then Ok tt
  else Raise (Exn ValueError (lit "RSA key format is not supported")).

(** A 1024-bit modulus takes at most 128 - 11 bytes. *)
Definition pkcs1_encrypt (k : unit) (m : bytes) (w : world)
  : result bytes * world :=
  if (128 - 11 <? length m)%nat then
    (Raise (Exn ValueError (lit "Plaintext is too long.")), w)
  else
    (Ok (match ciphertexts w with
         | c :: _ => c
         | [] => repeat x00 128
         end),
     {| ciphertexts := tl (ciphertexts w); server := server w; sent := sent w |}).

Definition post (url : str) (body : json) (headers : list (str * str)) (w : world)
  : result Response * world :=
  (server w url body,
   {| ciphertexts := ciphertexts w; server := server w;
      sent := sent w ++ [(url, body)] |}).

#[export] Instance env : Env := {|
  World := world;
  RsaKey := unit;
  RSA_import_key := import_key;
  PKCS1_v1_5_encrypt := pkcs1_encrypt;
  requests_post := post
|}.

End Ref.

(** ** Scenarios

    Envelopes and servers on which the program is run below.  The
    envelopes were encrypted with AES-256-CBC under [fixed_key] and
    [fixed_iv]. *)

Module Scenario.

(** The padded compression of the text of an object whose [token] is
    [abc], encrypted. *)
Definition token_envelope : str :=
  lit "HFO538p2//HPXsuYqEqmShAbAKzAM3qUdlymSJFNhvE=".

(** The same for an object whose [token] is the empty string. *)
Definition empty_token_envelope : str := lit "PtnxvCjowFC1gohmDxOvNg==".

(** The same for the empty object. *)
Definition empty_envelope : str := lit "XDUuh3p+ymW/1Kk6LHlrdg==".

(** The empty object under AES-128 with the first 16 bytes of the key
    string. *)
Definition aes128_envelope : str := lit "hXMqXehYVYX7MV4odiaung==".

(** The empty object again, without its two pad characters. *)
Definition stripped_envelope : str := lit "XDUuh3p+ymW/1Kk6LHlrdg".

(** Sixteen bytes that end in 0c after the compression of the empty
    object, the eleven bytes before the last one counting from 00. *)
Definition odd_padding : bytes := unhex "abae0500000102030405060708090a0c".
Definition odd_padding_envelope : str := lit "MMbdN6rqKBbzoTTyUpAEuQ==".

(** Sixteen bytes that end in 11. *)
Definition long_padding : bytes := unhex "abae0500111111111111111111111111".
Definition long_padding_envelope : str := lit "XMkfFcl9v+5/vGU7anBfvQ==".

(** The text of an object with the one field [data]. *)
Definition answer (envelope : str) : str :=
  [123; 34] ++ lit "data" ++ [34; 58; 34] ++ envelope ++ [34; 125].

(** The ciphertexts of the key and of the IV under the public key of
    the source, with padding strings of ff bytes. *)
Definition key_ciphertext : bytes :=
  unhex "0ba6d6d199bfe342f92edf77cdedb829caea2e3c1c822242a287cce29eecfe9a94489f0948f75c817286e2825e212559a2f4947f2682c722a4ccf1869d32c3c6f25b0ae55d75dd3233f0c026b1fb7c9f349ef1be8f747ebcf3e48174d8326e187bfbede3721eb9fe1a41cb3d3b5030dd60e86e25807ffe6d52a96c68bdbf2a9d".
Definition iv_ciphertext : bytes :=
  unhex "54fbb536f3797094336b9c16fd076eb6b97b0c9c27c9e614c13e018923fea481c8a22407f9f37faf7e2f1102bd91c8197cfab10ba05139948a17ac8d590850e2c9263877d4b3f30420517267a84caae50bab2fd25b8ff72573ccc050bc98b172641224862956776680a629de78db540396fd9be52fca69c2795d40bf34646685".

(** A server that answers every request with one status and one text. *)
Definition answering (status : Z) (answer_text : str) : Ref.world :=
  {| Ref.ciphertexts := [key_ciphertext; iv_ciphertext];
     Ref.server := fun _ _ =>
       Ok {| status_code := status; reason := lit "-"; text := answer_text |};
     Ref.sent := [] |}.

Definition url : str := lit "https://hbapi.kakobuy.com/api/user/login".

(** The credentials whose envelope holds the marker, and the envelope. *)
Definition marked_username : str := lit "user2838821@example.com".
Definition marked_password : str := lit "x".
Definition marked_envelope : str :=
  lit "pVFbAdqMfkD0j0VDk0rhJjI8JKpi1PyqL+HUb9BHqT7bGOGSA+fK1n3Gc6KX5czBDJjtTMIRmTYheEnv6ejy3RZz2jXzyx+uCTxan3fS6TAuTPgMa2Wa4KovAZle3uP3T4hEjS7ISTk+tjbdxcvQo1RuGCudsCDMbBPWa/XMqBpE+bUOQzEtw7+qG0i17Ud/QY0dot+moErrorCrnhbcGEautoU1Ayzs3lng4q9Ddy4=".

(** The envelope of the example record. *)
Definition example_envelope : str :=
  lit "u2u7et4tzk7esjYX303HDVljyz6MbZyGTRKaMnaj5Execo/BdT68YakHKV6ity2VMmW3a3ntThCeX71a5rXyLc+lPwY/Yw2dqXn0j1NE+dPgHBOOf5G23QnoaNEZ9KxNsmPR8/PI29ZAlCR7JvNHOM7p5sYM1JCr9qgikMx92BsrpC0SdLx1SOLnXtW6ocPruGbd58WwxU/uKfkJVUWwiA==".

(** What the two RSA encryptions of a run on [answering] return. *)
Definition key_rsa : str :=
  lit "C6bW0Zm/40L5Lt93ze24KcrqLjwcgiJCoofM4p7s/pqUSJ8JSPdcgXKG4oJeISVZovSUfyaCxyKkzPGGnTLDxvJbCuVddd0yM/DAJrH7fJ80nvG+j3R+vPPkgXTYMm4Ye/vt43Ieuf4aQcs9O1Aw3WDobiWAf/5tUqlsaL2/Kp0=".

Definition iv_rsa : str :=
  lit "VPu1NvN5cJQza5wW/Qdutrl7DJwnyeYUwT4BiSP+pIHIoiQH+fN/r34vEQK9kcgZfPqxC6BROZSKF6yNWQhQ4skmOHfUs/MEIFFyZ6hMquULqy/SW4/3JXPMwFC8mLFyZBIkhilWd2aApineeNtUA5b9m+UvymnCeV1AvzRkZoU=".

(** The world after the two encryptions of a run on [answering]. *)
Definition drained (status : Z) (answer_text : str) : Ref.world :=
  {| Ref.ciphertexts := [];
     Ref.server := Ref.server (answering status answer_text);
     Ref.sent := [] |}.

(** The world after one request to [answering]. *)
Definition answered (status : Z) (answer_text envelope : str) : Ref.world :=
  {| Ref.ciphertexts := [];
     Ref.server := Ref.server (answering status answer_text);
     Ref.sent := [(url, request_body envelope key_rsa iv_rsa)] |}.

End Scenario.

(** ** Records and [json]

    [json.dumps] with [ensure_ascii] writes a code point above U+FFFF as
    the escapes of a surrogate pair, and [json.loads] reads the escapes of
    a high surrogate followed by those of a low one as one code point: a
    [str] that holds such a pair of surrogates is not read back. *)

(** The code points of a [str]. *)
Definition is_code_point (c : N) : bool := c <? 0x110000.

(** A high surrogate directly followed by a low one. *)
Fixpoint has_surrogate_pair (s : str) : bool :=
  match s with
  | a :: s' =>
      match s' with
      | b :: _ => (Ref.is_high a && Ref.is_low b) || has_surrogate_pair s'
      | [] => false
      end
  | [] => false
  end.

(** The keys and the values of a record are [str] without such a
    pair. *)
Definition plain_str (s : str) : bool :=
  forallb is_code_point s && negb (has_surrogate_pair s).

Definition plain_record (R : record) : bool :=
  forallb (fun kv => plain_str (fst kv) && plain_str (snd kv)) R.

(** The reading of C1 on the reference libraries: every record of [str]
    keys, pairwise distinct, and [str] values is recovered. *)
Definition every_record_is_recovered : Prop :=
  forall (R : record) (key_string iv_string envelope : str) (kb ivb : bytes),
    NoDup (map fst R) ->
    forallb (fun kv => forallb is_code_point (fst kv)
                       && forallb is_code_point (snd kv)) R = true ->
    utf8_encode key_string = Ok kb ->
    AES.valid_key_length (length kb) = true ->
    utf8_encode iv_string = Ok ivb ->
    length ivb = 16%nat ->
    @encrypt_aes_payload_body Ref.zlib Ref.jsonlib
      (json_of_record R) key_string iv_string = Ok envelope ->
    @decrypt_and_decompress_payload Ref.zlib Ref.jsonlib
      (JStr envelope) key_string iv_string = Ok (json_of_record R).

(** A record whose value is the surrogate pair of U+1F600, and its
    envelope under [fixed_key] and [fixed_iv]. *)
Definition paired_record : record := [(lit "k", [0xD83D; 0xDE00])].

Definition paired_envelope : str :=
  lit "NMkWmTXSQ4e2SUSiEXgp4U9DfVDTvqtKNNHD3cUsbCk=".

(** The text that the reference writer gives for a record. *)
Definition record_item (kv : str * str) : str :=
  Ref.dumps_str (fst kv) ++ lit ":" ++ Ref.dumps_str (snd kv).

Definition record_text (R : record) : str :=
  lit "{" ++ Ref.join (lit ",") (map record_item R) ++ lit "}".

(** ** The batch mode of [main]

    [main] reads the credentials of a file, submits one [perform_request]
    per credential to a pool of threads and tallies the results as they
    complete.  The reading of the lines and the tallying loop are written
    out; the loop takes the results in the order of completion, each with
    the state of the stop event at the head of its iteration.  A printed line is kept
    as the values of its replacement fields; [print] is taken not to
    fail. *)

(** [c.isspace()]: the characters that [str.strip] removes. *)
Definition isspace (c : N) : bool :=
  ((9 <=? c) && (c <=? 13)) || ((28 <=? c) && (c <=? 32))
  || (c =? 133) || (c =? 160) || (c =? 5760)
  || ((8192 <=? c) && (c <=? 8202))
  || (c =? 8232) || (c =? 8233) || (c =? 8239) || (c =? 8287) || (c =? 12288).

(** [s.lstrip()] *)
Fixpoint lstrip (s : str) : str :=
  match s with
  | [] => []
  | c :: s' => if isspace c then lstrip s' else s
  end.

(** [s.rstrip()] *)
Definition rstrip (s : str) : str := rev (lstrip (rev s)).

(** [s.strip()] *)
Definition strip (s : str) : str := rstrip (lstrip s).

Definition colon : N := 58.

(** The text before the first colon and the text after it. *)
Fixpoint partition_colon (s : str) : option (str * str) :=
  match s with
  | [] => None
  | c :: s' =>
      if c =? colon then Some ([], s')
      else match partition_colon s' with
           | Some (a, b) => Some (c :: a, b)
           | None => None
           end
  end.

(** [s.split(':', 1)] *)
Definition split_colon (s : str) : list str :=
  match partition_colon s with
  | Some (a, b) => [a; b]
  | None => [s]
  end.

(** Line 125:
    [[line.strip().split(':', 1) for line in f if ':' in line]]. *)
Definition credentials_of_lines (lines : list str) : list (list str) :=
  map (fun line => split_colon (strip line))
      (filter (fun line => str_in (lit ":") line) lines).

(** The unpacking [for u, p in credentials] of line 146. *)
Definition unpack_pair (item : list str) : result (str * str) :=
  match item with
  | [u; p] => Ok (u, p)
  | [] => Raise (Exn ValueError
                   (lit "not enough values to unpack (expected 2, got 0)"))
  | [_] => Raise (Exn ValueError
                    (lit "not enough values to unpack (expected 2, got 1)"))
  | _ => Raise (Exn ValueError (lit "too many values to unpack (expected 2)"))
  end.

(** The arguments of the calls submitted at line 146, in order. *)
Fixpoint submitted (credentials : list (list str)) : result (list (str * str)) :=
  match credentials with
  | [] => Ok []
  | item :: rest =>
      up <- unpack_pair item ;;
      ups <- submitted rest ;;
      Ok (up :: ups)
  end.

(** [v.get(k, default)] *)
Definition py_get_default (v : json) (k : str) (default : json) : result json :=
  match v with
  | JDict d =>
      Ok (match dict_get k d with
          | Some x => x
          | None => default
          end)
  | _ => Raise (Exn AttributeError (lit "object has no attribute 'get'"))
  end.

(** What [perform_request] returns. *)
Definition outcome : Type := (bool * str * json)%type.

(** The lines that the loop prints, by the values of their replacement
    fields: [[+] HIT: {creds}] at line 158,
    [[-] FAIL: {creds} -> {error_msg}] at line 162 and
    [[-] FAIL: {creds} -> Request Exception] at line 166. *)
Inductive line : Type :=
| Hit (creds : str)
| Fail (creds : str) (error_msg : json)
| FailException (creds : str).

(** The locals [checked], [hits], [fails] and [creds] of [main] (the
    last one unbound until a result is unpacked), and the lines printed
    by the loop. *)
Record tally : Type := {
  checked : nat;
  hits : nat;
  fails : nat;
  creds : option str;
  printed : list line
}.

(** Lines 131 to 133. *)
Definition start : tally :=
  {| checked := O; hits := O; fails := O; creds := None; printed := [] |}.

(** Lines 154 to 162, the [try] of the loop: the locals when the block
    ends, and the exception that ended it, if any. *)
Definition count_result (fut : result outcome) (s : tally)
  : tally * option exn :=
  match fut with
  | Raise e => (s, Some e)
  | Ok (is_hit, c, response_data) =>
      let checked1 := S (checked s) in
      if is_hit then
        ({| checked := checked1; hits := S (hits s); fails := fails s;
            creds := Some c; printed := printed s ++ [Hit c] |}, None)
      else
        let fails1 := S (fails s) in
        match py_get_default response_data (lit "msg")
                (JStr (lit "Unknown error")) with
        | Ok error_msg =>
            ({| checked := checked1; hits := hits s; fails := fails1;
                creds := Some c;
                printed := printed s ++ [Fail c error_msg] |},
             None)
        | Raise e =>
            ({| checked := checked1; hits := hits s; fails := fails1;
                creds := Some c; printed := printed s |}, Some e)
        end
  end.






(** ** Environments that fail

    A library that rejects the public key, and a transport that cannot
    reach the server; the rest is the reference environment. *)

Module Faulty.

Definition no_key (pem : str) : result unit :=
  Raise (Exn ValueError (lit "RSA key format is not supported")).

#[export] Instance keyless : Env := {|
  World := Ref.world;
  RsaKey := unit;
  RSA_import_key := no_key;
  PKCS1_v1_5_encrypt := Ref.pkcs1_encrypt;
  requests_post := Ref.post
|}.

Definition refused (url : str) (body : json) (headers : list (str * str))
    (w : Ref.world) : result Response * Ref.world :=
  (Raise (Exn RequestException (lit "Connection refused")), w).

#[export] Instance offline : Env := {|
  World := Ref.world;
  RsaKey := unit;
  RSA_import_key := Ref.import_key;
  PKCS1_v1_5_encrypt := Ref.pkcs1_encrypt;
  requests_post := refused
|}.

End Faulty.

(** * Properties

    ** Bytes *)

Lemma to_N_byte_of_N n : Byte.to_N (byte_of_N n) = n mod 256.
Proof.
  unfold byte_of_N.
  destruct (Byte.of_N (n mod 256)) eqn:E.
  - now apply Byte.to_of_N.
  - apply Byte.of_N_None_iff in E.
    pose proof (N.mod_upper_bound n 256). lia.
Qed.

Lemma byte_of_N_to_N b : byte_of_N (Byte.to_N b) = b.
Proof.
  unfold byte_of_N.
  pose proof (Byte.to_N_bounded b).
  rewrite N.mod_small by lia.
  now rewrite Byte.of_to_N.
Qed.

Lemma all_bytes_complete b : In b all_bytes.
Proof.
  assert (H : existsb (Byte.eqb b) all_bytes = true)
    by (destruct b; vm_compute; reflexivity).
  apply existsb_exists in H. destruct H as [x [Hin Hx]].
  apply Byte.byte_dec_bl in Hx. now subst.
Qed.

Lemma forall_byte (P : byte -> bool) :
  forallb P all_bytes = true -> forall b, P b = true.
Proof.
  intros H b. rewrite forallb_forall in H. apply H, all_bytes_complete.
Qed.

Lemma forall_byte2 (P : byte -> byte -> bool) :
  forallb (fun a => forallb (P a) all_bytes) all_bytes = true ->
  forall a b, P a b = true.
Proof.
  intros H a b.
  apply (forall_byte (P a)).
  apply (forall_byte (fun a => forallb (P a) all_bytes)), H.
Qed.


Lemma str_eqb_eq a b : str_eqb a b = true <-> a = b.
Proof.
  revert b. induction a as [|x a IH]; intros [|y b]; cbn; split;
    try discriminate; try reflexivity.
  - intros H. apply andb_prop in H. destruct H as [H1 H2].
    apply N.eqb_eq in H1. apply IH in H2. congruence.
  - intros [= -> ->]. rewrite N.eqb_refl. now apply IH.
Qed.

(** ** The UTF-8 codec *)

Example utf8_encode_ascii : utf8_encode (lit "7b242d78") =
  Ok [x37; x62; x32; x34; x32; x64; x37; x38].
Proof. reflexivity. Qed.

Example utf8_encode_euro : utf8_encode [0xE9; 0x20AC; 0x1F600] =
  Ok [xc3; xa9; xe2; x82; xac; xf0; x9f; x98; x80].
Proof. reflexivity. Qed.

Example utf8_decode_euro :
  utf8_decode [xc3; xa9; xe2; x82; xac; xf0; x9f; x98; x80] =
  Ok [0xE9; 0x20AC; 0x1F600].
Proof. reflexivity. Qed.

Example utf8_decode_overlong : utf8_decode [xc0; x80] = Raise utf8_decode_error.
Proof. reflexivity. Qed.

Ltac Zify.zify_post_hook ::= Z.to_euclidean_division_equations.

Lemma utf8_decode_encode_cp c h rest :
  utf8_encode_cp c = Ok h ->
  utf8_decode (h ++ rest) = cons_ok c (utf8_decode rest).
Proof.
  unfold utf8_encode_cp.
  destruct (c <? 0x80) eqn:E1.
  { intros [= <-]. apply N.ltb_lt in E1. cbn [app utf8_decode].
    rewrite to_N_byte_of_N, N.mod_small by lia.
    apply N.ltb_lt in E1. now rewrite E1. }
  apply N.ltb_ge in E1.
  destruct (c <? 0x800) eqn:E2.
  { intros [= <-]. apply N.ltb_lt in E2. cbn [app utf8_decode].
    unfold is_cont, cont_bits. rewrite !to_N_byte_of_N.
    rewrite (N.mod_small (0xC0 + c / 64)) by lia.
    rewrite (N.mod_small (0x80 + c mod 64)) by lia.
    replace (0xC0 + c / 64 <? 0x80) with false by (symmetry; apply N.ltb_ge; lia).
    replace (0xC0 + c / 64 <? 0xC0) with false by (symmetry; apply N.ltb_ge; lia).
    replace (0xC0 + c / 64 <? 0xE0) with true by (symmetry; apply N.ltb_lt; lia).
    replace (0x80 <=? 0x80 + c mod 64) with true by (symmetry; apply N.leb_le; lia).
    replace (0x80 + c mod 64 <? 0xC0) with true by (symmetry; apply N.ltb_lt; lia).
    replace ((0xC0 + c / 64 - 0xC0) * 64 + (0x80 + c mod 64 - 0x80)) with c by lia.
    replace (0x80 <=? c) with true by (symmetry; apply N.leb_le; lia).
    reflexivity. }
  apply N.ltb_ge in E2.
  destruct (is_surrogate c) eqn:E3; [discriminate|].
  destruct (c <? 0x10000) eqn:E4.
  { intros [= <-]. apply N.ltb_lt in E4. cbn [app utf8_decode].
    unfold is_cont, cont_bits. rewrite !to_N_byte_of_N.
    rewrite (N.mod_small (0xE0 + c / 4096)) by lia.
    rewrite (N.mod_small (0x80 + (c / 64) mod 64)) by lia.
    rewrite (N.mod_small (0x80 + c mod 64)) by lia.
    replace (0xE0 + c / 4096 <? 0x80) with false by (symmetry; apply N.ltb_ge; lia).
    replace (0xE0 + c / 4096 <? 0xC0) with false by (symmetry; apply N.ltb_ge; lia).
    replace (0xE0 + c / 4096 <? 0xE0) with false by (symmetry; apply N.ltb_ge; lia).
    replace (0xE0 + c / 4096 <? 0xF0) with true by (symmetry; apply N.ltb_lt; lia).
    replace (0x80 <=? 0x80 + (c / 64) mod 64) with true by (symmetry; apply N.leb_le; lia).
    replace (0x80 + (c / 64) mod 64 <? 0xC0) with true by (symmetry; apply N.ltb_lt; lia).
    replace (0x80 <=? 0x80 + c mod 64) with true by (symmetry; apply N.leb_le; lia).
    replace (0x80 + c mod 64 <? 0xC0) with true by (symmetry; apply N.ltb_lt; lia).
    replace ((0xE0 + c / 4096 - 0xE0) * 4096 + (0x80 + (c / 64) mod 64 - 0x80) * 64
             + (0x80 + c mod 64 - 0x80)) with c by lia.
    replace (0x800 <=? c) with true by (symmetry; apply N.leb_le; lia).
    rewrite E3. reflexivity. }
  apply N.ltb_ge in E4.
  destruct (c <? 0x110000) eqn:E5; [|discriminate].
  intros [= <-]. apply N.ltb_lt in E5. cbn [app utf8_decode].
  unfold is_cont, cont_bits. rewrite !to_N_byte_of_N.
  rewrite (N.mod_small (0xF0 + c / 262144)) by lia.
  rewrite (N.mod_small (0x80 + (c / 4096) mod 64)) by lia.
  rewrite (N.mod_small (0x80 + (c / 64) mod 64)) by lia.
  rewrite (N.mod_small (0x80 + c mod 64)) by lia.
  replace (0xF0 + c / 262144 <? 0x80) with false by (symmetry; apply N.ltb_ge; lia).
  replace (0xF0 + c / 262144 <? 0xC0) with false by (symmetry; apply N.ltb_ge; lia).
  replace (0xF0 + c / 262144 <? 0xE0) with false by (symmetry; apply N.ltb_ge; lia).
  replace (0xF0 + c / 262144 <? 0xF0) with false by (symmetry; apply N.ltb_ge; lia).
  replace (0xF0 + c / 262144 <? 0xF8) with true by (symmetry; apply N.ltb_lt; lia).
  replace (0x80 <=? 0x80 + (c / 4096) mod 64) with true by (symmetry; apply N.leb_le; lia).
  replace (0x80 + (c / 4096) mod 64 <? 0xC0) with true by (symmetry; apply N.ltb_lt; lia).
  replace (0x80 <=? 0x80 + (c / 64) mod 64) with true by (symmetry; apply N.leb_le; lia).
  replace (0x80 + (c / 64) mod 64 <? 0xC0) with true by (symmetry; apply N.ltb_lt; lia).
  replace (0x80 <=? 0x80 + c mod 64) with true by (symmetry; apply N.leb_le; lia).
  replace (0x80 + c mod 64 <? 0xC0) with true by (symmetry; apply N.ltb_lt; lia).
  replace ((0xF0 + c / 262144 - 0xF0) * 262144
           + (0x80 + (c / 4096) mod 64 - 0x80) * 4096
           + (0x80 + (c / 64) mod 64 - 0x80) * 64
           + (0x80 + c mod 64 - 0x80)) with c by lia.
  replace (0x10000 <=? c) with true by (symmetry; apply N.leb_le; lia).
  replace (c <? 0x110000) with true by (symmetry; apply N.ltb_lt; lia).
  reflexivity.
Qed.

Lemma utf8_decode_encode s b :
  utf8_encode s = Ok b -> utf8_decode b = Ok s.
Proof.
  revert b. induction s as [|c s IH]; cbn [utf8_encode]; intros b.
  - now intros [= <-].
  - destruct (utf8_encode_cp c) as [h|] eqn:Eh; cbn [bind]; [|discriminate].
    destruct (utf8_encode s) as [t|] eqn:Et; cbn [bind]; [|discriminate].
    intros [= <-].
    rewrite (utf8_decode_encode_cp c h t Eh), (IH t eq_refl). reflexivity.
Qed.


(** ** Base64 *)

Example b64encode_foobar :
  Base64.b64encode (list_byte_of_string "fooba") = list_byte_of_string "Zm9vYmE=".
Proof. reflexivity. Qed.

Example b64decode_foobar :
  Base64.b64decode (lit "Zm9vYmE=") = Ok (list_byte_of_string "fooba").
Proof. reflexivity. Qed.

Example b64decode_skips_newline :
  Base64.b64decode (lit "Zm9v YmE= trailing") = Ok (list_byte_of_string "fooba").
Proof. reflexivity. Qed.

Example b64decode_incorrect_padding :
  Base64.b64decode (lit "Zm9vYmE") = Raise Base64.incorrect_padding.
Proof. reflexivity. Qed.

Example b64decode_one_data_char :
  Base64.b64decode (lit "A===") = Raise Base64.invalid_length.
Proof. reflexivity. Qed.

Module Base64Facts.
Import Base64.

Lemma opt_N_eqb_eq a b : opt_N_eqb a b = true -> a = Some b.
Proof. destruct a; cbn; [intros H; apply N.eqb_eq in H; now subst | discriminate]. Qed.

Lemma char_ok_spec v :
  char_ok v = true ->
  Byte.eqb (table_b2a v) pad_char = false /\ table_a2b (table_b2a v) = Some v.
Proof.
  unfold char_ok. intros H. apply andb_prop in H. destruct H as [H1 H2].
  split; [now apply negb_true_iff | now apply opt_N_eqb_eq].
Qed.

Lemma sextet0_ok b0 : char_ok (sextet0 b0) = true.
Proof. revert b0. apply forall_byte. vm_compute. reflexivity. Qed.

Lemma sextet1_ok b0 b1 : char_ok (sextet1 b0 b1) = true.
Proof. revert b0 b1. apply forall_byte2. vm_compute. reflexivity. Qed.

Lemma sextet2_ok b1 b2 : char_ok (sextet2 b1 b2) = true.
Proof. revert b1 b2. apply forall_byte2. vm_compute. reflexivity. Qed.

Lemma sextet3_ok b2 : char_ok (sextet3 b2) = true.
Proof. revert b2. apply forall_byte. vm_compute. reflexivity. Qed.

Lemma out0_ok b0 b1 :
  byte_of_N (N.lor (N.shiftl (sextet0 b0) 2) (N.shiftr (sextet1 b0 b1) 4)) = b0.
Proof.
  apply Byte.byte_dec_bl. revert b0 b1.
  apply (forall_byte2 (fun b0 b1 => Byte.eqb (byte_of_N (N.lor (N.shiftl (sextet0 b0) 2) (N.shiftr (sextet1 b0 b1) 4))) b0)).
  vm_compute. reflexivity.
Qed.

Lemma left1_ok b0 b1 : N.land (sextet1 b0 b1) 15 = N.shiftr (Byte.to_N b1) 4.
Proof.
  apply N.eqb_eq. revert b0 b1.
  apply (forall_byte2 (fun b0 b1 => N.land (sextet1 b0 b1) 15 =? N.shiftr (Byte.to_N b1) 4)).
  vm_compute. reflexivity.
Qed.

Lemma out1_ok b1 b2 :
  byte_of_N (N.lor (N.shiftl (N.shiftr (Byte.to_N b1) 4) 4) (N.shiftr (sextet2 b1 b2) 2)) = b1.
Proof.
  apply Byte.byte_dec_bl. revert b1 b2.
  apply (forall_byte2 (fun b1 b2 => Byte.eqb (byte_of_N (N.lor (N.shiftl (N.shiftr (Byte.to_N b1) 4) 4) (N.shiftr (sextet2 b1 b2) 2))) b1)).
  vm_compute. reflexivity.
Qed.

Lemma out2_ok b1 b2 :
  byte_of_N (N.lor (N.shiftl (N.land (sextet2 b1 b2) 3) 6) (sextet3 b2)) = b2.
Proof.
  apply Byte.byte_dec_bl. revert b1 b2.
  apply (forall_byte2 (fun b1 b2 => Byte.eqb (byte_of_N (N.lor (N.shiftl (N.land (sextet2 b1 b2) 3) 6) (sextet3 b2))) b2)).
  vm_compute. reflexivity.
Qed.

Ltac step_char H :=
  let A := fresh in let B := fresh in
  destruct (char_ok_spec _ H) as [A B];
  cbn [a2b_base64]; rewrite A, B; clear A B.

Lemma a2b_quad b0 b1 b2 rest :
  a2b_base64 (table_b2a (sextet0 b0) :: table_b2a (sextet1 b0 b1)
              :: table_b2a (sextet2 b1 b2) :: table_b2a (sextet3 b2) :: rest)
             O 0 O
  = cons_ok b0 (cons_ok b1 (cons_ok b2 (a2b_base64 rest O 0 O))).
Proof.
  step_char (sextet0_ok b0).
  step_char (sextet1_ok b0 b1).
  step_char (sextet2_ok b1 b2).
  step_char (sextet3_ok b2).
  now rewrite out0_ok, left1_ok, out1_ok, out2_ok.
Qed.

Lemma list_ind3 {A} (P : list A -> Prop) :
  P [] -> (forall a, P [a]) -> (forall a b, P [a; b]) ->
  (forall a b c l, P l -> P (a :: b :: c :: l)) ->
  forall l, P l.
Proof.
  intros H0 H1 H2 H3.
  fix IH 1. intros [|a [|b [|c l]]];
    [apply H0 | apply H1 | apply H2 | apply H3, IH].
Qed.

Lemma a2b_b2a b : a2b_base64 (b2a_base64 b) O 0 O = Ok b.
Proof.
  induction b as [|b0|b0 b1|b0 b1 b2 r IH] using list_ind3.
  - reflexivity.
  - cbn [b2a_base64].
    step_char (sextet0_ok b0). step_char (sextet1_ok b0 x00).
    rewrite out0_ok. reflexivity.
  - cbn [b2a_base64].
    step_char (sextet0_ok b0). step_char (sextet1_ok b0 b1).
    step_char (sextet2_ok b1 x00).
    rewrite out0_ok, left1_ok, out1_ok. reflexivity.
  - cbn [b2a_base64]. rewrite a2b_quad, IH. reflexivity.
Qed.

End Base64Facts.

(** ** AES *)

Lemma byte_ext (f g : byte -> byte) :
  forallb (fun a => Byte.eqb (f a) (g a)) all_bytes = true ->
  forall a, f a = g a.
Proof.
  intros H a. apply Byte.byte_dec_bl.
  apply (forall_byte (fun a => Byte.eqb (f a) (g a))), H.
Qed.

Lemma byte_ext2 (f g : byte -> byte -> byte) :
  forallb (fun a => forallb (fun b => Byte.eqb (f a b) (g a b)) all_bytes)
          all_bytes = true ->
  forall a b, f a b = g a b.
Proof.
  intros H a b. apply Byte.byte_dec_bl.
  apply (forall_byte2 (fun a b => Byte.eqb (f a b) (g a b))), H.
Qed.

Ltac byte_brute :=
  match goal with
  | |- forall a : byte, @?f a = @?g a =>
      apply (byte_ext f g); vm_compute; reflexivity
  | |- forall a b : byte, @?f a b = @?g a b =>
      apply (byte_ext2 f g); vm_compute; reflexivity
  end.

Module AESFacts.
Import AES.

Lemma lxor_byte_bound : forall a b,
  (N.lxor (Byte.to_N a) (Byte.to_N b) <? 256) = true.
Proof. apply forall_byte2. vm_compute. reflexivity. Qed.

Lemma to_N_bxor a b :
  Byte.to_N (bxor a b) = N.lxor (Byte.to_N a) (Byte.to_N b).
Proof.
  unfold bxor. rewrite to_N_byte_of_N.
  apply N.mod_small, N.ltb_lt, lxor_byte_bound.
Qed.

Lemma to_N_inj a b : Byte.to_N a = Byte.to_N b -> a = b.
Proof.
  intros H. rewrite <- (byte_of_N_to_N a), <- (byte_of_N_to_N b). now rewrite H.
Qed.

Lemma bxor_cancel a b : bxor (bxor a b) b = a.
Proof.
  apply to_N_inj. rewrite !to_N_bxor.
  now rewrite N.lxor_assoc, N.lxor_nilpotent, N.lxor_0_r.
Qed.

(** Equations between sums in GF(2^8), bit by bit. *)
Ltac bxor_solve :=
  apply to_N_inj; unfold xor4; rewrite !to_N_bxor;
  apply N.bits_inj; intros i; rewrite !N.lxor_spec;
  repeat match goal with
         | |- context [N.testbit ?x i] =>
             let v := fresh "v" in generalize (N.testbit x i); intros v
         end;
  btauto.

Lemma xor4_unit0 : forall a, xor4 a x00 x00 x00 = a.
Proof. byte_brute. Qed.
Lemma xor4_unit1 : forall a, xor4 x00 a x00 x00 = a.
Proof. byte_brute. Qed.
Lemma xor4_unit2 : forall a, xor4 x00 x00 a x00 = a.
Proof. byte_brute. Qed.
Lemma xor4_unit3 : forall a, xor4 x00 x00 x00 a = a.
Proof. byte_brute. Qed.

(** Sixteen terms summed by rows or by columns. *)
Lemma xor4_transpose a00 a01 a02 a03 a10 a11 a12 a13 a20 a21 a22 a23 a30 a31 a32 a33 :
  xor4 (xor4 a00 a01 a02 a03) (xor4 a10 a11 a12 a13)
       (xor4 a20 a21 a22 a23) (xor4 a30 a31 a32 a33)
  = xor4 (xor4 a00 a10 a20 a30) (xor4 a01 a11 a21 a31)
         (xor4 a02 a12 a22 a32) (xor4 a03 a13 a23 a33).
Proof. bxor_solve. Qed.

Lemma xtime_xor : forall a b, xtime (bxor a b) = bxor (xtime a) (xtime b).
Proof. byte_brute. Qed.

Lemma mul2_xor a b : mul2 (bxor a b) = bxor (mul2 a) (mul2 b).
Proof. apply xtime_xor. Qed.

Lemma mul3_xor a b : mul3 (bxor a b) = bxor (mul3 a) (mul3 b).
Proof. unfold mul3. rewrite !xtime_xor. bxor_solve. Qed.

Lemma mul9_xor a b : mul9 (bxor a b) = bxor (mul9 a) (mul9 b).
Proof. unfold mul9. rewrite !xtime_xor. bxor_solve. Qed.

Lemma mul11_xor a b : mul11 (bxor a b) = bxor (mul11 a) (mul11 b).
Proof. unfold mul11. rewrite !xtime_xor. bxor_solve. Qed.

Lemma mul13_xor a b : mul13 (bxor a b) = bxor (mul13 a) (mul13 b).
Proof. unfold mul13. rewrite !xtime_xor. bxor_solve. Qed.

Lemma mul14_xor a b : mul14 (bxor a b) = bxor (mul14 a) (mul14 b).
Proof. unfold mul14. rewrite !xtime_xor. bxor_solve. Qed.

Lemma linear_xor4 (f : byte -> byte) :
  (forall a b, f (bxor a b) = bxor (f a) (f b)) ->
  forall a b c d, f (xor4 a b c d) = xor4 (f a) (f b) (f c) (f d).
Proof. intros H a b c d. unfold xor4. now rewrite !H. Qed.

(** The product of the two matrices of FIPS 197, 5.1.3 and 5.3.3, entry
    by entry: the diagonal is the identity and the rest vanishes. *)
Lemma row0_col0 : forall a, xor4 (mul14 (mul2 a)) (mul11 a) (mul13 a) (mul9 (mul3 a)) = a.
Proof. byte_brute. Qed.
Lemma row0_col1 : forall a, xor4 (mul14 (mul3 a)) (mul11 (mul2 a)) (mul13 a) (mul9 a) = x00.
Proof. byte_brute. Qed.
Lemma row0_col2 : forall a, xor4 (mul14 a) (mul11 (mul3 a)) (mul13 (mul2 a)) (mul9 a) = x00.
Proof. byte_brute. Qed.
Lemma row0_col3 : forall a, xor4 (mul14 a) (mul11 a) (mul13 (mul3 a)) (mul9 (mul2 a)) = x00.
Proof. byte_brute. Qed.

Lemma row1_col0 : forall a, xor4 (mul9 (mul2 a)) (mul14 a) (mul11 a) (mul13 (mul3 a)) = x00.
Proof. byte_brute. Qed.
Lemma row1_col1 : forall a, xor4 (mul9 (mul3 a)) (mul14 (mul2 a)) (mul11 a) (mul13 a) = a.
Proof. byte_brute. Qed.
Lemma row1_col2 : forall a, xor4 (mul9 a) (mul14 (mul3 a)) (mul11 (mul2 a)) (mul13 a) = x00.
Proof. byte_brute. Qed.
Lemma row1_col3 : forall a, xor4 (mul9 a) (mul14 a) (mul11 (mul3 a)) (mul13 (mul2 a)) = x00.
Proof. byte_brute. Qed.

Lemma row2_col0 : forall a, xor4 (mul13 (mul2 a)) (mul9 a) (mul14 a) (mul11 (mul3 a)) = x00.
Proof. byte_brute. Qed.
Lemma row2_col1 : forall a, xor4 (mul13 (mul3 a)) (mul9 (mul2 a)) (mul14 a) (mul11 a) = x00.
Proof. byte_brute. Qed.
Lemma row2_col2 : forall a, xor4 (mul13 a) (mul9 (mul3 a)) (mul14 (mul2 a)) (mul11 a) = a.
Proof. byte_brute. Qed.
Lemma row2_col3 : forall a, xor4 (mul13 a) (mul9 a) (mul14 (mul3 a)) (mul11 (mul2 a)) = x00.
Proof. byte_brute. Qed.

Lemma row3_col0 : forall a, xor4 (mul11 (mul2 a)) (mul13 a) (mul9 a) (mul14 (mul3 a)) = x00.
Proof. byte_brute. Qed.
Lemma row3_col1 : forall a, xor4 (mul11 (mul3 a)) (mul13 (mul2 a)) (mul9 a) (mul14 a) = x00.
Proof. byte_brute. Qed.
Lemma row3_col2 : forall a, xor4 (mul11 a) (mul13 (mul3 a)) (mul9 (mul2 a)) (mul14 a) = x00.
Proof. byte_brute. Qed.
Lemma row3_col3 : forall a, xor4 (mul11 a) (mul13 a) (mul9 (mul3 a)) (mul14 (mul2 a)) = a.
Proof. byte_brute. Qed.

Ltac mix_row :=
  cbv [mix_column inv_mix_column];
  rewrite ?(linear_xor4 mul9 mul9_xor), ?(linear_xor4 mul11 mul11_xor),
          ?(linear_xor4 mul13 mul13_xor), ?(linear_xor4 mul14 mul14_xor);
  rewrite xor4_transpose.

Lemma inv_mix_row0 a0 a1 a2 a3 :
  xor4 (mul14 (xor4 (mul2 a0) (mul3 a1) a2 a3)) (mul11 (xor4 a0 (mul2 a1) (mul3 a2) a3))
       (mul13 (xor4 a0 a1 (mul2 a2) (mul3 a3))) (mul9 (xor4 (mul3 a0) a1 a2 (mul2 a3)))
  = a0.
Proof.
  mix_row. now rewrite row0_col0, row0_col1, row0_col2, row0_col3, xor4_unit0.
Qed.

Lemma inv_mix_row1 a0 a1 a2 a3 :
  xor4 (mul9 (xor4 (mul2 a0) (mul3 a1) a2 a3)) (mul14 (xor4 a0 (mul2 a1) (mul3 a2) a3))
       (mul11 (xor4 a0 a1 (mul2 a2) (mul3 a3))) (mul13 (xor4 (mul3 a0) a1 a2 (mul2 a3)))
  = a1.
Proof.
  mix_row. now rewrite row1_col0, row1_col1, row1_col2, row1_col3, xor4_unit1.
Qed.

Lemma inv_mix_row2 a0 a1 a2 a3 :
  xor4 (mul13 (xor4 (mul2 a0) (mul3 a1) a2 a3)) (mul9 (xor4 a0 (mul2 a1) (mul3 a2) a3))
       (mul14 (xor4 a0 a1 (mul2 a2) (mul3 a3))) (mul11 (xor4 (mul3 a0) a1 a2 (mul2 a3)))
  = a2.
Proof.
  mix_row. now rewrite row2_col0, row2_col1, row2_col2, row2_col3, xor4_unit2.
Qed.

Lemma inv_mix_row3 a0 a1 a2 a3 :
  xor4 (mul11 (xor4 (mul2 a0) (mul3 a1) a2 a3)) (mul13 (xor4 a0 (mul2 a1) (mul3 a2) a3))
       (mul9 (xor4 a0 a1 (mul2 a2) (mul3 a3))) (mul14 (xor4 (mul3 a0) a1 a2 (mul2 a3)))
  = a3.
Proof.
  mix_row. now rewrite row3_col0, row3_col1, row3_col2, row3_col3, xor4_unit3.
Qed.

Lemma inv_mix_columns_mix_columns s : inv_mix_columns (mix_columns s) = s.
Proof.
  revert s. fix IH 1.
  intros [|a0 [|a1 [|a2 [|a3 s]]]]; try reflexivity.
  cbn [mix_columns mix_column app inv_mix_columns inv_mix_column].
  rewrite inv_mix_row0, inv_mix_row1, inv_mix_row2, inv_mix_row3, IH.
  reflexivity.
Qed.

Lemma inv_sbox_sbox : forall a, inv_sbox (sbox a) = a.
Proof. byte_brute. Qed.

Lemma inv_sub_bytes_sub_bytes s : inv_sub_bytes (sub_bytes s) = s.
Proof.
  unfold inv_sub_bytes, sub_bytes. rewrite map_map.
  induction s as [|a s IH]; cbn [map]; [reflexivity|].
  now rewrite inv_sbox_sbox, IH.
Qed.

(** A list of sixteen elements, spelled out. *)
Lemma length16_inv {A} (s : list A) :
  length s = 16%nat ->
  exists s0 s1 s2 s3 s4 s5 s6 s7 s8 s9 s10 s11 s12 s13 s14 s15,
    s = [s0; s1; s2; s3; s4; s5; s6; s7; s8; s9; s10; s11; s12; s13; s14; s15].
Proof.
  intros H.
  do 16 (destruct s as [|? s]; [discriminate H|]).
  destruct s; [|discriminate H].
  repeat eexists.
Qed.

Ltac explode16 s H :=
  let E := fresh in
  destruct (length16_inv s H) as (?&?&?&?&?&?&?&?&?&?&?&?&?&?&?&?&E); subst s.

Lemma inv_shift_rows_shift_rows s :
  length s = 16%nat -> inv_shift_rows (shift_rows s) = s.
Proof. intros H. explode16 s H. reflexivity. Qed.

Lemma shift_rows_length s : length (shift_rows s) = length s.
Proof.
  destruct (Nat.eq_dec (length s) 16) as [H|H].
  - explode16 s H. reflexivity.
  - unfold shift_rows.
    do 16 (destruct s as [|? s]; [reflexivity|]).
    destruct s; [exfalso; apply H; reflexivity | reflexivity].
Qed.

Lemma xor_bytes_length a b : length (xor_bytes a b) = Nat.min (length a) (length b).
Proof.
  revert b. induction a as [|x a IH]; intros [|y b]; cbn; auto.
Qed.

Lemma xor_bytes_cancel a b :
  length a = length b -> xor_bytes (xor_bytes a b) b = a.
Proof.
  revert b. induction a as [|x a IH]; intros [|y b]; cbn; try discriminate; auto.
  intros [= H]. now rewrite bxor_cancel, IH.
Qed.

Lemma sub_bytes_length s : length (sub_bytes s) = length s.
Proof. apply length_map. Qed.

Lemma mix_columns_length s : length (mix_columns s) = length s.
Proof.
  revert s. fix IH 1.
  intros [|a0 [|a1 [|a2 [|a3 s]]]]; try reflexivity.
  cbn [mix_columns mix_column app length]. now rewrite IH.
Qed.

Lemma add_round_key_length s k :
  length s = 16%nat -> length k = 16%nat -> length (add_round_key s k) = 16%nat.
Proof.
  intros Hs Hk. unfold add_round_key. rewrite xor_bytes_length, Hs, Hk. reflexivity.
Qed.

Lemma round_length s k :
  length s = 16%nat -> length k = 16%nat -> length (round s k) = 16%nat.
Proof.
  intros Hs Hk. unfold round. apply add_round_key_length; [|exact Hk].
  now rewrite mix_columns_length, shift_rows_length, sub_bytes_length.
Qed.

Lemma final_round_length s k :
  length s = 16%nat -> length k = 16%nat -> length (final_round s k) = 16%nat.
Proof.
  intros Hs Hk. unfold final_round. apply add_round_key_length; [|exact Hk].
  now rewrite shift_rows_length, sub_bytes_length.
Qed.

Lemma inv_round_round s k :
  length s = 16%nat -> length k = 16%nat -> inv_round (round s k) k = s.
Proof.
  intros Hs Hk. unfold inv_round, round, add_round_key.
  rewrite xor_bytes_cancel
    by now rewrite mix_columns_length, shift_rows_length, sub_bytes_length, Hs, Hk.
  rewrite inv_mix_columns_mix_columns.
  rewrite inv_shift_rows_shift_rows by now rewrite sub_bytes_length.
  apply inv_sub_bytes_sub_bytes.
Qed.

Lemma inv_final_round_final_round s k :
  length s = 16%nat -> length k = 16%nat -> inv_final_round (final_round s k) k = s.
Proof.
  intros Hs Hk. unfold inv_final_round, final_round, add_round_key.
  rewrite xor_bytes_cancel
    by now rewrite shift_rows_length, sub_bytes_length, Hs, Hk.
  rewrite inv_shift_rows_shift_rows by now rewrite sub_bytes_length.
  apply inv_sub_bytes_sub_bytes.
Qed.

Lemma rounds_length ks : forall s,
  keys16 ks -> length s = 16%nat -> length (rounds s ks) = 16%nat.
Proof.
  induction ks as [|k ks IH]; intros s Hk Hs; [exact Hs|].
  inversion Hk as [|? ? Hk1 Hk2]; subst.
  destruct ks as [|k2 ks'].
  - cbn [rounds]. now apply final_round_length.
  - change (rounds s (k :: k2 :: ks')) with (rounds (round s k) (k2 :: ks')).
    apply IH; [exact Hk2 | now apply round_length].
Qed.

Lemma inv_rounds_rounds ks : forall s,
  keys16 ks -> length s = 16%nat -> inv_rounds (rounds s ks) ks = s.
Proof.
  induction ks as [|k ks IH]; intros s Hk Hs; [reflexivity|].
  inversion Hk as [|? ? Hk1 Hk2]; subst.
  destruct ks as [|k2 ks'].
  - cbn [rounds inv_rounds]. now apply inv_final_round_final_round.
  - change (rounds s (k :: k2 :: ks')) with (rounds (round s k) (k2 :: ks')).
    change (inv_rounds ?x (k :: k2 :: ks'))
      with (inv_round (inv_rounds x (k2 :: ks')) k).
    rewrite IH by (try exact Hk2; now apply round_length).
    now apply inv_round_round.
Qed.

Lemma encrypt_block_length rk s :
  keys16 rk -> length s = 16%nat -> length (encrypt_block rk s) = 16%nat.
Proof.
  intros Hk Hs. destruct rk as [|k0 ks]; [exact Hs|].
  inversion Hk; subst. cbn [encrypt_block].
  apply rounds_length; [assumption | now apply add_round_key_length].
Qed.

(** The inverse cipher undoes the cipher on every block. *)
Lemma decrypt_block_encrypt_block rk s :
  keys16 rk -> length s = 16%nat -> decrypt_block rk (encrypt_block rk s) = s.
Proof.
  intros Hk Hs. destruct rk as [|k0 ks]; [reflexivity|].
  inversion Hk; subst. cbn [encrypt_block decrypt_block].
  rewrite inv_rounds_rounds by (try assumption; now apply add_round_key_length).
  unfold add_round_key. apply xor_bytes_cancel. congruence.
Qed.

(** *** CBC *)

Lemma blocks_app c rest :
  length c = 16%nat -> blocks (c ++ rest) = c :: blocks rest.
Proof. intros H. explode16 c H. reflexivity. Qed.

Lemma blocks_wf : forall b, blocks16 (blocks b).
Proof.
  fix IH 1. intros b.
  do 16 (destruct b as [|? b]; [constructor|]).
  cbn [blocks]. constructor; [reflexivity | apply IH].
Qed.

Lemma concat_blocks : forall b,
  (length b mod 16 = 0)%nat -> concat (blocks b) = b.
Proof.
  intros b. remember (length b) as n eqn:Hn. revert b Hn.
  induction n as [n IH] using lt_wf_ind. intros b Hn Hm.
  destruct (Nat.eq_dec n 0) as [->|Hnz].
  { destruct b; [reflexivity | discriminate]. }
  assert (16 <= n)%nat.
  { destruct (Nat.lt_ge_cases n 16) as [Hlt|]; [|assumption].
    rewrite Nat.mod_small in Hm by assumption. contradiction. }
  do 16 (destruct b as [|? b]; [cbn in Hn; lia|]).
  cbn [blocks concat app]. do 16 f_equal.
  apply (IH (n - 16)%nat); [lia | cbn in Hn; lia |].
  rewrite <- (Nat.Div0.mod_add (n - 16) 1 16).
  replace (n - 16 + 1 * 16)%nat with n by lia. exact Hm.
Qed.

Lemma cbc_encrypt_length rk bs : forall prev,
  keys16 rk -> blocks16 bs -> length prev = 16%nat ->
  length (cbc_encrypt rk prev bs) = (16 * length bs)%nat.
Proof.
  induction bs as [|p bs IH]; intros prev Hk Hb Hp; [reflexivity|].
  inversion Hb; subst. cbn [cbc_encrypt length].
  assert (Hc : length (encrypt_block rk (xor_bytes p prev)) = 16%nat).
  { apply encrypt_block_length; [assumption|].
    rewrite xor_bytes_length. lia. }
  rewrite length_app, Hc, IH by assumption. lia.
Qed.

Lemma cbc_decrypt_encrypt rk bs : forall prev,
  keys16 rk -> blocks16 bs -> length prev = 16%nat ->
  cbc_decrypt rk prev (blocks (cbc_encrypt rk prev bs)) = concat bs.
Proof.
  induction bs as [|p bs IH]; intros prev Hk Hb Hp; [reflexivity|].
  inversion Hb as [|? ? Hp16 Hbs]; subst. cbn [cbc_encrypt concat].
  assert (Hx : length (xor_bytes p prev) = 16%nat)
    by (rewrite xor_bytes_length; lia).
  assert (Hc : length (encrypt_block rk (xor_bytes p prev)) = 16%nat)
    by now apply encrypt_block_length.
  rewrite blocks_app by exact Hc. cbn [cbc_decrypt].
  rewrite decrypt_block_encrypt_block by assumption.
  rewrite xor_bytes_cancel by congruence.
  now rewrite IH.
Qed.

(** *** The key schedule yields 16-byte round keys *)

Lemma words_of_wf : forall b, words4 (words_of b).
Proof.
  fix IH 1. intros [|a0 [|a1 [|a2 [|a3 b]]]]; try constructor.
  - reflexivity.
  - apply IH.
Qed.

Lemma words_of_length : forall b, length (words_of b) = (length b / 4)%nat.
Proof.
  intros b. remember (length b) as n eqn:Hn. revert b Hn.
  induction n as [n IH] using lt_wf_ind. intros b Hn.
  destruct b as [|a0 [|a1 [|a2 [|a3 b]]]]; cbn in Hn; subst n;
    try reflexivity.
  cbn [words_of length].
  rewrite (IH (length b)) by (try reflexivity; lia).
  replace (S (S (S (S (length b))))) with (length b + 1 * 4)%nat by lia.
  rewrite Nat.div_add by lia. lia.
Qed.

Lemma nth_words4 w i : words4 w -> (i < length w)%nat -> length (nth i w []) = 4%nat.
Proof.
  intros Hw Hi. unfold words4 in Hw. rewrite Forall_forall in Hw.
  apply Hw, nth_In, Hi.
Qed.

Lemma rot_word_length w : length (rot_word w) = length w.
Proof. destruct w; cbn; [reflexivity|]. rewrite length_app. cbn. lia. Qed.

Lemma expand_wf nk n : forall i w,
  (0 < nk <= i)%nat -> length w = i -> words4 w -> words4 (expand nk n i w).
Proof.
  induction n as [|n IH]; intros i w Hi Hl Hw; [exact Hw|].
  cbn [expand]. apply IH.
  - lia.
  - rewrite length_app. cbn. lia.
  - apply Forall_app. split; [exact Hw|]. constructor; [|constructor].
    assert (H1 : length (nth (i - 1) w []) = 4%nat) by (apply nth_words4; [assumption | lia]).
    assert (H2 : length (nth (i - nk) w []) = 4%nat) by (apply nth_words4; [assumption | lia]).
    rewrite xor_bytes_length, H2.
    destruct (i mod nk =? 0)%nat.
    + rewrite xor_bytes_length. unfold sub_word.
      rewrite length_map, rot_word_length, H1. reflexivity.
    + destruct ((6 <? nk)%nat && (i mod nk =? 4)%nat).
      * unfold sub_word. rewrite length_map, H1. reflexivity.
      * rewrite H1. reflexivity.
Qed.

Lemma round_keys_of_wf : forall w, words4 w -> keys16 (round_keys_of w).
Proof.
  fix IH 1. intros [|w0 [|w1 [|w2 [|w3 w]]]] H; try constructor.
  - inversion H as [|? ? H0 Ha]; subst. inversion Ha as [|? ? H1 Hb]; subst.
    inversion Hb as [|? ? H2 Hc]; subst. inversion Hc as [|? ? H3 H4]; subst.
    rewrite !length_app. lia.
  - apply IH.
    inversion H as [|? ? H0 Ha]; subst. inversion Ha as [|? ? H1 Hb]; subst.
    inversion Hb as [|? ? H2 Hc]; subst. inversion Hc as [|? ? H3 H4]; subst.
    exact H4.
Qed.

Lemma key_expansion_wf key :
  valid_key_length (length key) = true -> keys16 (key_expansion key).
Proof.
  intros H. unfold key_expansion.
  apply round_keys_of_wf, expand_wf.
  - unfold valid_key_length in H.
    apply orb_prop in H. destruct H as [H|H].
    + apply orb_prop in H. destruct H as [H|H]; apply Nat.eqb_eq in H; rewrite H; cbn; lia.
    + apply Nat.eqb_eq in H; rewrite H; cbn; lia.
  - apply words_of_length.
  - apply words_of_wf.
Qed.

(** *** The library calls *)

Lemma new_ok key iv :
  valid_key_length (length key) = true -> length iv = 16%nat ->
  new key MODE_CBC iv = Ok (Cipher (key_expansion key) iv).
Proof.
  intros Hk Hi. unfold new. rewrite Hk, Hi. reflexivity.
Qed.

Lemma new_inv key iv c :
  new key MODE_CBC iv = Ok c ->
  valid_key_length (length key) = true /\ length iv = 16%nat
  /\ c = Cipher (key_expansion key) iv.
Proof.
  unfold new.
  destruct (valid_key_length (length key)); cbn [negb]; [|discriminate].
  destruct (length iv =? 16)%nat eqn:E; cbn [negb]; [|discriminate].
  intros [= <-]. apply Nat.eqb_eq in E. auto.
Qed.

Lemma encrypt_ok c data :
  (length data mod 16 = 0)%nat ->
  encrypt c data = Ok (cbc_encrypt (cipher_round_keys c) (cipher_iv c) (blocks data)).
Proof. intros H. unfold encrypt. rewrite H. reflexivity. Qed.

(** Decrypting what was encrypted under the same key and IV gives the
    data back. *)
Lemma decrypt_encrypt key iv c data enc :
  new key MODE_CBC iv = Ok c ->
  encrypt c data = Ok enc ->
  decrypt c enc = Ok data.
Proof.
  intros Hn He. apply new_inv in Hn. destruct Hn as (Hk & Hi & ->).
  unfold encrypt in He. cbn [cipher_round_keys cipher_iv] in He.
  destruct (length data mod 16 =? 0)%nat eqn:Em; cbn [negb] in He; [|discriminate].
  injection He as <-. apply Nat.eqb_eq in Em.
  pose proof (key_expansion_wf key Hk) as Hrk.
  pose proof (blocks_wf data) as Hb.
  unfold decrypt. cbn [cipher_round_keys cipher_iv].
  rewrite cbc_encrypt_length by assumption.
  replace (16 * length (blocks data))%nat with (0 + length (blocks data) * 16)%nat by lia.
  rewrite Nat.Div0.mod_add. cbn [Nat.modulo Nat.eqb negb].
  rewrite cbc_decrypt_encrypt by assumption.
  now rewrite concat_blocks.
Qed.

Lemma inv_shift_rows_length s : length (inv_shift_rows s) = length s.
Proof.
  destruct (Nat.eq_dec (length s) 16) as [H|H].
  - explode16 s H. reflexivity.
  - unfold inv_shift_rows.
    do 16 (destruct s as [|? s]; [reflexivity|]).
    destruct s; [exfalso; apply H; reflexivity | reflexivity].
Qed.

Lemma inv_mix_columns_length s : length (inv_mix_columns s) = length s.
Proof.
  revert s. fix IH 1.
  intros [|a0 [|a1 [|a2 [|a3 s]]]]; try reflexivity.
  cbn [inv_mix_columns inv_mix_column app length]. now rewrite IH.
Qed.

Lemma inv_round_length s k :
  length s = 16%nat -> length k = 16%nat -> length (inv_round s k) = 16%nat.
Proof.
  intros Hs Hk. unfold inv_round, inv_sub_bytes, add_round_key.
  now rewrite length_map, inv_shift_rows_length, inv_mix_columns_length,
    xor_bytes_length, Hs, Hk.
Qed.

Lemma inv_final_round_length s k :
  length s = 16%nat -> length k = 16%nat -> length (inv_final_round s k) = 16%nat.
Proof.
  intros Hs Hk. unfold inv_final_round, inv_sub_bytes, add_round_key.
  now rewrite length_map, inv_shift_rows_length, xor_bytes_length, Hs, Hk.
Qed.

Lemma inv_rounds_length ks : forall s,
  keys16 ks -> length s = 16%nat -> length (inv_rounds s ks) = 16%nat.
Proof.
  induction ks as [|k ks IH]; intros s Hk Hs; [exact Hs|].
  inversion Hk as [|? ? Hk1 Hk2]; subst.
  destruct ks as [|k2 ks'].
  - cbn [inv_rounds]. now apply inv_final_round_length.
  - change (inv_rounds s (k :: k2 :: ks'))
      with (inv_round (inv_rounds s (k2 :: ks')) k).
    apply inv_round_length; [now apply IH | exact Hk1].
Qed.

Lemma decrypt_block_length rk s :
  keys16 rk -> length s = 16%nat -> length (decrypt_block rk s) = 16%nat.
Proof.
  intros Hk Hs. destruct rk as [|k0 ks]; [exact Hs|].
  inversion Hk; subst. cbn [decrypt_block].
  apply add_round_key_length; [|assumption].
  now apply inv_rounds_length.
Qed.

Lemma cbc_decrypt_length rk bs : forall prev,
  keys16 rk -> blocks16 bs -> length prev = 16%nat ->
  length (cbc_decrypt rk prev bs) = (16 * length bs)%nat.
Proof.
  induction bs as [|c bs IH]; intros prev Hk Hb Hp; [reflexivity|].
  inversion Hb; subst. cbn [cbc_decrypt length].
  rewrite length_app, xor_bytes_length, decrypt_block_length, IH by assumption.
  lia.
Qed.

Lemma blocks_count b :
  (length b mod 16 = 0)%nat -> (16 * length (blocks b) = length b)%nat.
Proof.
  intros H. rewrite <- (concat_blocks b H) at 2.
  pose proof (blocks_wf b) as Hw. unfold blocks16 in Hw.
  induction Hw as [|x l Hx Hl IH]; [reflexivity|].
  cbn [concat length]. rewrite length_app. lia.
Qed.

(** Decryption keeps the length. *)
Lemma decrypt_length key iv c data p :
  new key MODE_CBC iv = Ok c -> decrypt c data = Ok p -> length p = length data.
Proof.
  intros Hn Hd. apply new_inv in Hn. destruct Hn as (Hk & Hi & ->).
  unfold decrypt in Hd. cbn [cipher_round_keys cipher_iv] in Hd.
  destruct (length data mod 16 =? 0)%nat eqn:Em; cbn [negb] in Hd; [|discriminate].
  injection Hd as <-. apply Nat.eqb_eq in Em.
  rewrite cbc_decrypt_length;
    [now apply blocks_count | now apply key_expansion_wf | apply blocks_wf | exact Hi].
Qed.

End AESFacts.

(** FIPS 197, appendix C.1 and C.3. *)
Example fips197_aes128 :
  AES.encrypt_block (AES.key_expansion (unhex "000102030405060708090a0b0c0d0e0f"))
                    (unhex "00112233445566778899aabbccddeeff")
  = unhex "69c4e0d86a7b0430d8cdb78070b4c55a".
Proof. vm_compute. reflexivity. Qed.

Example fips197_aes192 :
  AES.encrypt_block (AES.key_expansion (unhex "000102030405060708090a0b0c0d0e0f1011121314151617"))
                    (unhex "00112233445566778899aabbccddeeff")
  = unhex "dda97ca4864cdfe06eaf70a0ec0d7191".
Proof. vm_compute. reflexivity. Qed.

Example fips197_aes256 :
  AES.encrypt_block (AES.key_expansion (unhex "000102030405060708090a0b0c0d0e0f101112131415161718191a1b1c1d1e1f"))
                    (unhex "00112233445566778899aabbccddeeff")
  = unhex "8ea2b7ca516745bfeafc49904b496089".
Proof. vm_compute. reflexivity. Qed.

Example fips197_aes256_inverse :
  AES.decrypt_block (AES.key_expansion (unhex "000102030405060708090a0b0c0d0e0f101112131415161718191a1b1c1d1e1f"))
                    (unhex "8ea2b7ca516745bfeafc49904b496089")
  = unhex "00112233445566778899aabbccddeeff".
Proof. vm_compute. reflexivity. Qed.


(** ** The envelope *)

Lemma bind_assoc {A B C} (m : result A) (f : A -> result B) (g : B -> result C) :
  bind (bind m f) g = bind m (fun a => bind (f a) g).
Proof. now destruct m. Qed.

Lemma bind_ok {A B} (m : result A) (f : A -> result B) b :
  bind m f = Ok b -> exists a, m = Ok a /\ f a = Ok b.
Proof. destruct m as [a|e]; cbn; [eauto | discriminate]. Qed.

Lemma try_except_total {A} (body : result A) (h : exn -> A) :
  exists a, try_except body (fun e => Ok (h e)) = Ok a.
Proof. destruct body; cbn; eauto. Qed.

Lemma forallb_Forall {A} (f : A -> bool) l :
  forallb f l = true -> Forall (fun x => f x = true) l.
Proof. intros H. apply Forall_forall. now apply forallb_forall. Qed.

(** *** Padding *)

Lemma pad_len_range c : 1 <= pad_len_of c <= 16.
Proof.
  unfold pad_len_of, AES.block_size.
  pose proof (N.mod_upper_bound (N.of_nat (length c)) 16). lia.
Qed.

Lemma bytes_mul_one b n : bytes_mul [b] n = repeat b n.
Proof. induction n; cbn; congruence. Qed.

Lemma padded_bytes_of_eq c :
  padded_bytes_of c =
  Ok (c ++ repeat (byte_of_N (pad_len_of c)) (N.to_nat (pad_len_of c))).
Proof.
  unfold padded_bytes_of, py_bytes1.
  pose proof (pad_len_range c).
  replace (pad_len_of c <? 256) with true by (symmetry; apply N.ltb_lt; lia).
  cbn [bind]. now rewrite bytes_mul_one.
Qed.

Lemma padded_length c :
  (length (c ++ repeat (byte_of_N (pad_len_of c)) (N.to_nat (pad_len_of c)))
   mod 16 = 0)%nat.
Proof.
  rewrite length_app, repeat_length.
  unfold pad_len_of, AES.block_size.
  pose proof (N.mod_upper_bound (N.of_nat (length c)) 16 ltac:(lia)) as Hb.
  assert (E : N.to_nat (16 - N.of_nat (length c) mod 16)
              = (16 - length c mod 16)%nat).
  { rewrite N2Nat.inj_sub, N2Nat.inj_mod, Nat2N.id. reflexivity. }
  rewrite E.
  pose proof (Nat.mod_upper_bound (length c) 16 ltac:(lia)).
  pose proof (Nat.div_mod_eq (length c) 16) as Hd.
  replace (length c + (16 - length c mod 16))%nat
    with (0 + (S (length c / 16)) * 16)%nat by lia.
  apply Nat.Div0.mod_add.
Qed.

Lemma index_last_app b x : index_last (b ++ [x]) = Ok (Byte.to_N x).
Proof. unfold index_last. now rewrite rev_app_distr. Qed.

Lemma repeat_snoc {A} (x : A) n : repeat x (S n) = repeat x n ++ [x].
Proof. induction n; cbn in *; congruence. Qed.

Lemma index_last_padded c :
  index_last (c ++ repeat (byte_of_N (pad_len_of c)) (N.to_nat (pad_len_of c)))
  = Ok (pad_len_of c).
Proof.
  pose proof (pad_len_range c) as H.
  destruct (N.to_nat (pad_len_of c)) as [|n] eqn:E; [lia|].
  rewrite repeat_snoc, app_assoc, index_last_app, to_N_byte_of_N.
  f_equal. apply N.mod_small. lia.
Qed.

Lemma slice_drop_last_padded c :
  slice_drop_last
    (c ++ repeat (byte_of_N (pad_len_of c)) (N.to_nat (pad_len_of c)))
    (pad_len_of c) = c.
Proof.
  unfold slice_drop_last. rewrite length_app, repeat_length.
  replace (length c + N.to_nat (pad_len_of c) - N.to_nat (pad_len_of c))%nat
    with (length c + 0)%nat by lia.
  rewrite firstn_app_2. cbn. apply app_nil_r.
Qed.

(** *** Base64 texts *)

Lemma b2a_char v : is_b64_char (Byte.to_N (Base64.table_b2a v)) = true.
Proof.
  unfold Base64.table_b2a.
  destruct (v <? 26) eqn:E1.
  { apply N.ltb_lt in E1. rewrite to_N_byte_of_N, N.mod_small by lia.
    unfold is_b64_char.
    replace (65 <=? 65 + v) with true by (symmetry; apply N.leb_le; lia).
    replace (65 + v <=? 90) with true by (symmetry; apply N.leb_le; lia).
    reflexivity. }
  apply N.ltb_ge in E1.
  destruct (v <? 52) eqn:E2.
  { apply N.ltb_lt in E2. rewrite to_N_byte_of_N, N.mod_small by lia.
    unfold is_b64_char.
    replace (97 <=? 97 + (v - 26)) with true by (symmetry; apply N.leb_le; lia).
    replace (97 + (v - 26) <=? 122) with true by (symmetry; apply N.leb_le; lia).
    now rewrite orb_true_r. }
  apply N.ltb_ge in E2.
  destruct (v <? 62) eqn:E3.
  { apply N.ltb_lt in E3. rewrite to_N_byte_of_N, N.mod_small by lia.
    unfold is_b64_char.
    replace (48 <=? 48 + (v - 52)) with true by (symmetry; apply N.leb_le; lia).
    replace (48 + (v - 52) <=? 57) with true by (symmetry; apply N.leb_le; lia).
    now rewrite !orb_true_r. }
  destruct (v =? 62); reflexivity.
Qed.

Lemma b64encode_chars : forall b,
  Forall (fun c => is_b64_char (Byte.to_N c) = true) (Base64.b64encode b).
Proof.
  unfold Base64.b64encode.
  induction b as [|b0|b0 b1|b0 b1 b2 r IH] using Base64Facts.list_ind3;
    cbn [Base64.b2a_base64]; repeat constructor; auto using b2a_char.
Qed.

Lemma b64encode_length : forall b, (length (Base64.b64encode b) mod 4 = 0)%nat.
Proof.
  unfold Base64.b64encode.
  induction b as [|b0|b0 b1|b0 b1 b2 r IH] using Base64Facts.list_ind3;
    try reflexivity.
  cbn [Base64.b2a_base64 length].
  replace (S (S (S (S (length (Base64.b2a_base64 r))))))
    with (length (Base64.b2a_base64 r) + 1 * 4)%nat by lia.
  now rewrite Nat.Div0.mod_add.
Qed.

Lemma is_b64_char_ascii c : is_b64_char c = true -> c < 128.
Proof.
  unfold is_b64_char. intros H.
  repeat (apply orb_prop in H; destruct H as [H|H]);
    try (apply andb_prop in H; destruct H as [H1 H2];
         apply N.leb_le in H1, H2; lia);
    apply N.eqb_eq in H; lia.
Qed.

Lemma utf8_decode_ascii b :
  Forall (fun c => Byte.to_N c < 128) b -> utf8_decode b = Ok (map Byte.to_N b).
Proof.
  induction 1 as [|c b Hc Hb IH]; [reflexivity|].
  cbn [utf8_decode map]. apply N.ltb_lt in Hc. rewrite Hc, IH. reflexivity.
Qed.

Lemma encode_ascii_bytes b :
  Forall (fun c => Byte.to_N c < 128) b ->
  Base64.encode_ascii (map Byte.to_N b) = Ok b.
Proof.
  intros H. unfold Base64.encode_ascii.
  replace (forallb (fun c => c <? 128) (map Byte.to_N b)) with true.
  - rewrite map_map. f_equal.
    rewrite <- (map_id b) at 2. apply map_ext. intros; apply byte_of_N_to_N.
  - symmetry. apply forallb_forall. intros c Hc.
    apply in_map_iff in Hc. destruct Hc as (x & <- & Hx).
    rewrite Forall_forall in H. apply N.ltb_lt. auto.
Qed.

Lemma b64encode_ascii b : Forall (fun c => Byte.to_N c < 128) (Base64.b64encode b).
Proof.
  eapply Forall_impl; [|apply b64encode_chars].
  intros c H. now apply is_b64_char_ascii.
Qed.

Lemma b64text_decode b : utf8_decode (Base64.b64encode b) = Ok (b64text b).
Proof. apply utf8_decode_ascii, b64encode_ascii. Qed.

Lemma b64decode_b64text b : Base64.b64decode (b64text b) = Ok b.
Proof.
  unfold Base64.b64decode, b64text.
  rewrite encode_ascii_bytes by apply b64encode_ascii.
  cbn [bind]. apply Base64Facts.a2b_b2a.
Qed.

Lemma b64text_chars b : Forall (fun c => is_b64_char c = true) (b64text b).
Proof.
  unfold b64text. apply Forall_map. apply b64encode_chars.
Qed.

Lemma b64text_length b : (length (b64text b) mod 4 = 0)%nat.
Proof. unfold b64text. rewrite length_map. apply b64encode_length. Qed.

Section EnvelopeFacts.
Context {zlib : ZlibLib} {jsonlib : JsonLib}.

(** *** The bodies are the compositions of the stages *)

Lemma encrypt_body_stages data_dict key_string iv_string :
  encrypt_aes_payload_body data_dict key_string iv_string =
  (compressed_bytes <- compressed_bytes_of data_dict ;;
   padded_bytes <- padded_bytes_of compressed_bytes ;;
   encrypt_and_encode padded_bytes key_string iv_string).
Proof.
  unfold encrypt_aes_payload_body, compressed_bytes_of, padded_bytes_of,
    encrypt_and_encode, cipher_of, pad_len_of.
  destruct (json_dumps data_dict) as [t|]; cbn [bind]; [|reflexivity].
  destruct (utf8_encode t) as [r|]; cbn [bind]; [|reflexivity].
  destruct (zlib_compress 1 (-15) r) as [c|]; cbn [bind]; [|reflexivity].
  destruct (py_bytes1 _) as [p|]; cbn [bind]; [|reflexivity].
  destruct (utf8_encode key_string) as [k|]; cbn [bind]; [|reflexivity].
  destruct (utf8_encode iv_string) as [i|]; cbn [bind]; reflexivity.
Qed.

Lemma padded_argument_str s : padded_argument (JStr s) = Ok (JStr (restore_padding s)).
Proof.
  unfold padded_argument, restore_padding. cbn [py_len bind py_iadd_str].
  destruct (length s mod 4 =? 0)%nat; reflexivity.
Qed.

Lemma decrypt_body_stages s key_string iv_string :
  decrypt_and_decompress_payload_body (JStr s) key_string iv_string =
  (padded_plaintext <- padded_plaintext_of s key_string iv_string ;;
   unpad_and_parse padded_plaintext).
Proof.
  unfold decrypt_and_decompress_payload_body, padded_plaintext_of,
    unpad_and_parse, inflate_and_parse, cipher_of.
  rewrite padded_argument_str. cbn [bind b64decode_value].
  destruct (Base64.b64decode _) as [eb|]; cbn [bind]; [|reflexivity].
  destruct (utf8_encode key_string) as [k|]; cbn [bind]; [|reflexivity].
  destruct (utf8_encode iv_string) as [i|]; cbn [bind]; [|reflexivity].
  destruct (AES.new k AES.MODE_CBC i) as [c|]; cbn [bind]; reflexivity.
Qed.

(** An argument that is no [str] is rejected at line 60, 62 or 63. *)
Lemma decrypt_body_not_str v key_string iv_string :
  (forall s, v <> JStr s) ->
  decrypt_and_decompress_payload_body v key_string iv_string
  = Raise (non_str_error v).
Proof.
  intros H. unfold decrypt_and_decompress_payload_body, padded_argument.
  destruct v as [| | | |s|l|d]; try reflexivity.
  - now destruct (H s).
  - cbn [py_len bind py_iadd_str non_str_error].
    destruct (length l mod 4 =? 0)%nat; reflexivity.
  - cbn [py_len bind py_iadd_str non_str_error].
    destruct (length d mod 4 =? 0)%nat; reflexivity.
Qed.

(** *** Neither function raises *)

Lemma encrypt_aes_payload_total data_dict key_string iv_string :
  exists s, encrypt_aes_payload data_dict key_string iv_string = Ok s.
Proof. apply try_except_total. Qed.

Lemma decrypt_total v key_string iv_string :
  exists r, decrypt_and_decompress_payload v key_string iv_string = Ok r.
Proof. apply try_except_total. Qed.

Lemma decrypt_of_raise v key_string iv_string e :
  decrypt_and_decompress_payload_body v key_string iv_string = Raise e ->
  decrypt_and_decompress_payload v key_string iv_string = Ok (error_record e).
Proof. unfold decrypt_and_decompress_payload. now intros ->. Qed.

Lemma decrypt_of_ok v key_string iv_string r :
  decrypt_and_decompress_payload_body v key_string iv_string = Ok r ->
  decrypt_and_decompress_payload v key_string iv_string = Ok r.
Proof. unfold decrypt_and_decompress_payload. now intros ->. Qed.

(** *** A failure of the encoder *)

Lemma starts_with_app p a m :
  starts_with p a = true -> starts_with p (a ++ m) = true.
Proof.
  revert a. induction p as [|x p IH]; intros [|y a]; cbn; try discriminate;
    auto.
  intros H. apply andb_prop in H. destruct H as [-> H]. cbn. auto.
Qed.

Lemma str_in_app p a m : str_in p a = true -> str_in p (a ++ m) = true.
Proof.
  induction a as [|y a IH]; cbn [str_in app].
  - rewrite orb_false_r. intros H. destruct p; [|discriminate].
    destruct m; reflexivity.
  - intros H. apply orb_prop in H. destruct H as [H|H].
    + change (y :: a ++ m) with ((y :: a) ++ m).
      now rewrite (starts_with_app _ _ m H).
    + rewrite (IH H). apply orb_true_r.
Qed.

(** When a stage of the encoder raises, the encoder returns the error
    string; that string holds the marker on which the driver aborts, and
    a space, which no base64 text holds. *)
Lemma encoder_failure_is_tagged data_dict key_string iv_string e :
  encrypt_aes_payload_body data_dict key_string iv_string = Raise e ->
  encrypt_aes_payload data_dict key_string iv_string
  = Ok (lit "AES Encryption Error: " ++ exn_msg e)
  /\ str_in (lit "Error") (lit "AES Encryption Error: " ++ exn_msg e) = true
  /\ forall b, lit "AES Encryption Error: " ++ exn_msg e <> b64text b.
Proof.
  intros H. split; [|split].
  - unfold encrypt_aes_payload. now rewrite H.
  - apply str_in_app. reflexivity.
  - intros b Hb. pose proof (b64text_chars b) as Hc. rewrite <- Hb in Hc.
    rewrite Forall_forall in Hc.
    specialize (Hc 32 ltac:(right; right; right; left; reflexivity)).
    discriminate Hc.
Qed.

(** *** Restoring the base64 padding *)

Lemma str_mul_length n : length (str_mul (lit "=") n) = n.
Proof. induction n; cbn in *; congruence. Qed.

Lemma restore_padding_aligned s :
  (length s mod 4 = 0)%nat -> restore_padding s = s.
Proof. unfold restore_padding. now intros ->. Qed.

Lemma restore_padding_length s : (length (restore_padding s) mod 4 = 0)%nat.
Proof.
  unfold restore_padding.
  destruct (length s mod 4 =? 0)%nat eqn:E.
  - now apply Nat.eqb_eq.
  - apply Nat.eqb_neq in E.
    rewrite length_app, str_mul_length.
    pose proof (Nat.mod_upper_bound (length s) 4 ltac:(lia)).
    pose proof (Nat.div_mod_eq (length s) 4).
    replace (length s + (4 - length s mod 4))%nat
      with (0 + S (length s / 4) * 4)%nat by lia.
    apply Nat.Div0.mod_add.
Qed.

Lemma str_mul_add n m :
  str_mul (lit "=") (n + m) = str_mul (lit "=") n ++ str_mul (lit "=") m.
Proof. induction n; cbn in *; congruence. Qed.

(** A text that lacks [k] pad characters, [k] at most three, gets exactly
    these back. *)
Lemma restore_padding_stripped s k :
  (k <= 3)%nat -> (length (s ++ str_mul (lit "=") k) mod 4 = 0)%nat ->
  restore_padding s = s ++ str_mul (lit "=") k.
Proof.
  intros Hk Hm. rewrite length_app, str_mul_length in Hm.
  unfold restore_padding.
  pose proof (Nat.mod_upper_bound (length s) 4 ltac:(lia)) as Hb.
  pose proof (Nat.div_mod_eq (length s) 4) as Hd.
  pose proof (Nat.div_mod_eq (length s + k) 4) as Hd'.
  rewrite Hm in Hd'.
  destruct (length s mod 4 =? 0)%nat eqn:E.
  - apply Nat.eqb_eq in E.
    assert (k = 0)%nat by lia. subst k. cbn. now rewrite app_nil_r.
  - apply Nat.eqb_neq in E.
    assert (k = 4 - length s mod 4)%nat by lia. now subst k.
Qed.

(** *** The cipher *)

Lemma cipher_of_inv key_string iv_string c :
  cipher_of key_string iv_string = Ok c ->
  exists kb ivb, utf8_encode key_string = Ok kb /\ utf8_encode iv_string = Ok ivb
                 /\ AES.new kb AES.MODE_CBC ivb = Ok c.
Proof.
  unfold cipher_of. intros H.
  apply bind_ok in H. destruct H as (kb & Hk & H).
  apply bind_ok in H. destruct H as (ivb & Hi & H). eauto.
Qed.

Lemma cipher_of_ok key_string iv_string kb ivb :
  utf8_encode key_string = Ok kb -> AES.valid_key_length (length kb) = true ->
  utf8_encode iv_string = Ok ivb -> length ivb = 16%nat ->
  cipher_of key_string iv_string = Ok (AES.Cipher (AES.key_expansion kb) ivb).
Proof.
  intros Hk Hv Hi Hl. unfold cipher_of. rewrite Hk, Hi. cbn [bind].
  now apply AESFacts.new_ok.
Qed.

(** *** Decoding what the encoder produced *)

Lemma encrypt_and_encode_inv padded key_string iv_string envelope :
  encrypt_and_encode padded key_string iv_string = Ok envelope ->
  exists c enc, cipher_of key_string iv_string = Ok c
                /\ AES.encrypt c padded = Ok enc /\ envelope = b64text enc.
Proof.
  unfold encrypt_and_encode. intros H.
  apply bind_ok in H. destruct H as (c & Hc & H).
  apply bind_ok in H. destruct H as (enc & He & H).
  rewrite b64text_decode in H. injection H as <-. eauto.
Qed.

(** A success of the encoder is a base64 text. *)
Lemma encoder_success_is_base64 data_dict key_string iv_string envelope :
  encrypt_aes_payload_body data_dict key_string iv_string = Ok envelope ->
  exists b, envelope = b64text b.
Proof.
  rewrite encrypt_body_stages. intros H.
  apply bind_ok in H. destruct H as (c & _ & H).
  apply bind_ok in H. destruct H as (p & _ & H).
  apply encrypt_and_encode_inv in H. destruct H as (_ & enc & _ & _ & ->).
  eauto.
Qed.

Lemma padded_plaintext_of_encoded padded key_string iv_string envelope :
  encrypt_and_encode padded key_string iv_string = Ok envelope ->
  padded_plaintext_of envelope key_string iv_string = Ok padded.
Proof.
  intros H. apply encrypt_and_encode_inv in H.
  destruct H as (c & enc & Hc & He & ->).
  unfold padded_plaintext_of.
  rewrite restore_padding_aligned by apply b64text_length.
  rewrite b64decode_b64text. cbn [bind]. rewrite Hc. cbn [bind].
  destruct (cipher_of_inv _ _ _ Hc) as (kb & ivb & _ & _ & Hn).
  exact (AESFacts.decrypt_encrypt kb ivb c padded enc Hn He).
Qed.

Lemma unpad_and_parse_padded c :
  unpad_and_parse
    (c ++ repeat (byte_of_N (pad_len_of c)) (N.to_nat (pad_len_of c)))
  = inflate_and_parse c.
Proof.
  unfold unpad_and_parse. rewrite index_last_padded. cbn [bind].
  pose proof (pad_len_range c) as H. unfold AES.block_size.
  replace (16 <? pad_len_of c) with false by (symmetry; apply N.ltb_ge; lia).
  replace (pad_len_of c =? 0) with false by (symmetry; apply N.eqb_neq; lia).
  cbn [orb]. now rewrite slice_drop_last_padded.
Qed.

(** The decoder undoes the encoder as soon as [zlib] and [json] undo
    themselves on the data at hand. *)
Lemma decode_encode data_dict key_string iv_string envelope text raw comp :
  json_dumps data_dict = Ok text ->
  utf8_encode text = Ok raw ->
  zlib_compress 1 (-15) raw = Ok comp ->
  zlib_decompress comp (-15) = Ok raw ->
  json_loads text = Ok data_dict ->
  encrypt_aes_payload_body data_dict key_string iv_string = Ok envelope ->
  decrypt_and_decompress_payload (JStr envelope) key_string iv_string
  = Ok data_dict.
Proof.
  intros Hd Hr Hc Hi Hl He.
  rewrite encrypt_body_stages in He.
  unfold compressed_bytes_of in He. rewrite Hd in He. cbn [bind] in He.
  rewrite Hr in He. cbn [bind] in He. rewrite Hc in He. cbn [bind] in He.
  rewrite padded_bytes_of_eq in He. cbn [bind] in He.
  apply decrypt_of_ok. rewrite decrypt_body_stages.
  rewrite (padded_plaintext_of_encoded _ _ _ _ He). cbn [bind].
  rewrite unpad_and_parse_padded. unfold inflate_and_parse.
  rewrite Hi. cbn [bind]. rewrite (utf8_decode_encode _ _ Hr). cbn [bind].
  exact Hl.
Qed.

Lemma encrypt_body_ok data_dict key_string iv_string text raw comp kb ivb :
  json_dumps data_dict = Ok text ->
  utf8_encode text = Ok raw ->
  zlib_compress 1 (-15) raw = Ok comp ->
  utf8_encode key_string = Ok kb -> AES.valid_key_length (length kb) = true ->
  utf8_encode iv_string = Ok ivb -> length ivb = 16%nat ->
  encrypt_aes_payload_body data_dict key_string iv_string =
  Ok (b64text
        (AES.cbc_encrypt (AES.key_expansion kb) ivb
           (AES.blocks
              (comp ++ repeat (byte_of_N (pad_len_of comp))
                              (N.to_nat (pad_len_of comp)))))).
Proof.
  intros Hd Hr Hc Hk Hv Hi Hl.
  rewrite encrypt_body_stages. unfold compressed_bytes_of.
  rewrite Hd. cbn [bind]. rewrite Hr. cbn [bind]. rewrite Hc. cbn [bind].
  rewrite padded_bytes_of_eq. cbn [bind].
  unfold encrypt_and_encode.
  rewrite (cipher_of_ok _ _ _ _ Hk Hv Hi Hl). cbn [bind].
  rewrite AESFacts.encrypt_ok by apply padded_length.
  cbn [bind AES.cipher_round_keys AES.cipher_iv].
  apply b64text_decode.
Qed.

(** Encoding succeeds and decoding gives the data back. *)
Lemma encode_then_decode data_dict key_string iv_string text raw comp kb ivb :
  json_dumps data_dict = Ok text ->
  utf8_encode text = Ok raw ->
  zlib_compress 1 (-15) raw = Ok comp ->
  zlib_decompress comp (-15) = Ok raw ->
  json_loads text = Ok data_dict ->
  utf8_encode key_string = Ok kb -> AES.valid_key_length (length kb) = true ->
  utf8_encode iv_string = Ok ivb -> length ivb = 16%nat ->
  exists envelope,
    encrypt_aes_payload data_dict key_string iv_string = Ok envelope
    /\ decrypt_and_decompress_payload (JStr envelope) key_string iv_string
       = Ok data_dict.
Proof.
  intros Hd Hr Hc Hi Hl Hk Hv Hiv Hlen.
  pose proof (encrypt_body_ok _ _ _ _ _ _ _ _ Hd Hr Hc Hk Hv Hiv Hlen) as He.
  eexists. split.
  - unfold encrypt_aes_payload. rewrite He. reflexivity.
  - exact (decode_encode _ _ _ _ _ _ _ Hd Hr Hc Hi Hl He).
Qed.

End EnvelopeFacts.

(** ** The reference reader undoes the reference writer on records *)

Module JsonFacts.
Import Ref.

Lemma hex_value_hex_char d : d < 16 -> hex_value (hex_char d) = Some d.
Proof.
  intros H.
  assert (Hall : forallb (fun d => match hex_value (hex_char d) with
                                   | Some x => x =? d
                                   | None => false
                                   end)
                         (map N.of_nat (seq 0 16)) = true) by reflexivity.
  rewrite forallb_forall in Hall.
  specialize (Hall d). 
  assert (Hin : In d (map N.of_nat (seq 0 16))).
  { rewrite <- (N2Nat.id d). apply in_map. apply in_seq. lia. }
  specialize (Hall Hin).
  destruct (hex_value (hex_char d)); [|discriminate].
  apply N.eqb_eq in Hall. now subst.
Qed.

Lemma hex4_value_hex4 n :
  n < 65536 ->
  hex4_value (hex_char ((n / 4096) mod 16)) (hex_char ((n / 256) mod 16))
             (hex_char ((n / 16) mod 16)) (hex_char (n mod 16)) = Some n.
Proof.
  intros H. unfold hex4_value.
  rewrite !hex_value_hex_char by (apply N.mod_upper_bound; lia).
  f_equal. lia.
Qed.

Ltac step_string :=
  cbn -[hex4_value hex_char is_high is_low N.div N.modulo N.mul N.add N.sub
        flat_map].

(** The escape of a code point below U+10000 that no escape of a low
    surrogate follows, or that is no high surrogate, is read as that code
    point. *)
Lemma loads_escape_single u s6 :
  u < 65536 ->
  (forall l1 l2 l3 l4 s12 u2,
     is_high u = true ->
     s6 = backslash :: 117 :: l1 :: l2 :: l3 :: l4 :: s12 ->
     hex4_value l1 l2 l3 l4 = Some u2 -> is_low u2 = false) ->
  loads_string (backslash :: 117 :: hex4 u ++ s6)
  = (r <- loads_string s6 ;; Ok (u :: fst r, snd r)).
Proof.
  intros Hu Hnext. unfold hex4. cbn [app]. step_string.
  rewrite (hex4_value_hex4 u Hu).
  destruct s6 as [|b [|x [|l1 [|l2 [|l3 [|l4 s12]]]]]]; try reflexivity.
  destruct (is_high u) eqn:Eh; [|reflexivity].
  destruct (b =? backslash) eqn:Eb; [|reflexivity].
  destruct (x =? 117) eqn:Ex; [|reflexivity].
  cbn [andb].
  destruct (hex4_value l1 l2 l3 l4) as [u2|] eqn:E2; [|reflexivity].
  apply N.eqb_eq in Eb, Ex. subst b x.
  now rewrite (Hnext l1 l2 l3 l4 s12 u2 eq_refl eq_refl E2).
Qed.

(** The escapes of a high and of a low surrogate are read as one code
    point. *)
Lemma loads_escape_pair h l rest :
  is_high h = true -> is_low l = true ->
  loads_string (backslash :: 117 :: hex4 h ++ backslash :: 117 :: hex4 l ++ rest)
  = (r <- loads_string rest ;;
     Ok (0x10000 + (h - 0xD800) * 1024 + (l - 0xDC00) :: fst r, snd r)).
Proof.
  intros Hh Hl.
  assert (Bh : h < 65536).
  { unfold is_high in Hh. apply andb_prop in Hh. destruct Hh as [_ Hh].
    apply N.leb_le in Hh. lia. }
  assert (Bl : l < 65536).
  { unfold is_low in Hl. apply andb_prop in Hl. destruct Hl as [_ Hl].
    apply N.leb_le in Hl. lia. }
  unfold hex4. cbn [app]. step_string.
  rewrite (hex4_value_hex4 h Bh), Hh. cbn [andb].
  rewrite (hex4_value_hex4 l Bl), Hl. reflexivity.
Qed.

Ltac second_char E :=
  cbn [app] in E; injection E as E _; vm_compute in E; discriminate E.

(** The escapes of a code point that start like the escape of a code
    unit are the escape of that code point, below U+10000, or start with
    the escape of a high surrogate. *)
Lemma escape_char_unit b t l1 l2 l3 l4 s12 :
  b < 0x110000 ->
  escape_char b ++ t = backslash :: 117 :: l1 :: l2 :: l3 :: l4 :: s12 ->
  exists x, x < 65536 /\ (x = b \/ is_low x = false)
            /\ hex4 x = [l1; l2; l3; l4].
Proof.
  intros Hcb E. unfold escape_char in E.
  destruct (b =? quote); [second_char E|].
  destruct (b =? backslash) eqn:Ebs; [second_char E|].
  destruct (b =? 10); [change (lit "n") with [110] in E; second_char E|].
  destruct (b =? 13); [change (lit "r") with [114] in E; second_char E|].
  destruct (b =? 9); [change (lit "t") with [116] in E; second_char E|].
  destruct (b =? 8); [change (lit "b") with [98] in E; second_char E|].
  destruct (b =? 12); [change (lit "f") with [102] in E; second_char E|].
  destruct ((32 <=? b) && (b <=? 126)) eqn:Ep.
  { cbn [app] in E. apply N.eqb_neq in Ebs. injection E as E _. congruence. }
  change (lit "u") with [117] in E.
  destruct (b <? 65536) eqn:E16.
  - apply N.ltb_lt in E16. exists b. split; [exact E16|]. split; [now left|].
    unfold hex4 in *. cbn [app] in E. injection E as <- <- <- <- _. reflexivity.
  - apply N.ltb_ge in E16.
    remember (0xD800 + (b - 0x10000) / 1024) as x eqn:Ex.
    remember (0xDC00 + (b - 0x10000) mod 1024) as y eqn:Ey.
    exists x. split; [lia|]. split.
    + right. unfold is_low. apply andb_false_iff. left. apply N.leb_gt. lia.
    + clear Ex Ey. unfold hex4 in *. cbn [app] in E.
      injection E as <- <- <- <- _. reflexivity.
Qed.

(** What follows the escapes of a code point that no low surrogate
    follows does not start with the escape of a low surrogate. *)
Lemma no_low_escape_next s rest l1 l2 l3 l4 s12 u2 :
  forallb is_code_point s = true ->
  match s with
  | b :: _ => is_low b = false
  | [] => True
  end ->
  flat_map escape_char s ++ quote :: rest
  = backslash :: 117 :: l1 :: l2 :: l3 :: l4 :: s12 ->
  hex4_value l1 l2 l3 l4 = Some u2 -> is_low u2 = false.
Proof.
  intros Hcp Hb E H2. destruct s as [|b s]; [discriminate E|].
  cbn [flat_map forallb] in *. apply andb_prop in Hcp. destruct Hcp as [Hcb _].
  unfold is_code_point in Hcb. apply N.ltb_lt in Hcb.
  rewrite <- app_assoc in E.
  destruct (escape_char_unit _ _ _ _ _ _ _ Hcb E) as (x & Bx & Hx & E4).
  unfold hex4 in E4. injection E4 as <- <- <- <-.
  rewrite (hex4_value_hex4 x Bx) in H2. injection H2 as <-.
  destruct Hx as [->|Hx]; assumption.
Qed.

Lemma has_surrogate_pair_tail c s :
  has_surrogate_pair (c :: s) = false ->
  has_surrogate_pair s = false
  /\ (is_high c = true -> match s with b :: _ => is_low b = false | [] => True end).
Proof.
  cbn [has_surrogate_pair]. destruct s as [|b s]; [auto|].
  intros H. apply orb_false_iff in H. destruct H as [H1 H2].
  split; [exact H2|]. intros Hc. rewrite Hc in H1. exact H1.
Qed.

(** The reader undoes the writer on a [str] without a pair of
    surrogates. *)
Lemma loads_dumps_string s : forall rest,
  forallb is_code_point s = true ->
  has_surrogate_pair s = false ->
  loads_string (flat_map escape_char s ++ quote :: rest) = Ok (s, rest).
Proof.
  induction s as [|c s IH]; intros rest Hcp Hsp; [reflexivity|].
  destruct (has_surrogate_pair_tail _ _ Hsp) as (Hsp' & Hnext).
  cbn [forallb] in Hcp. apply andb_prop in Hcp. destruct Hcp as [Hc Hcp'].
  specialize (IH rest Hcp' Hsp').
  unfold is_code_point in Hc. apply N.ltb_lt in Hc.
  cbn [flat_map]. rewrite <- app_assoc.
  pose proof (no_low_escape_next s rest) as Hlow.
  remember (flat_map escape_char s ++ quote :: rest) as tail eqn:Et.
  unfold escape_char.
  destruct (c =? quote) eqn:Eq.
  { apply N.eqb_eq in Eq. subst c. step_string. now rewrite IH. }
  destruct (c =? backslash) eqn:Eb.
  { apply N.eqb_eq in Eb. subst c. step_string. now rewrite IH. }
  destruct (c =? 10) eqn:E10.
  { apply N.eqb_eq in E10. subst c. step_string. now rewrite IH. }
  destruct (c =? 13) eqn:E13.
  { apply N.eqb_eq in E13. subst c. step_string. now rewrite IH. }
  destruct (c =? 9) eqn:E9.
  { apply N.eqb_eq in E9. subst c. step_string. now rewrite IH. }
  destruct (c =? 8) eqn:E8.
  { apply N.eqb_eq in E8. subst c. step_string. now rewrite IH. }
  destruct (c =? 12) eqn:E12.
  { apply N.eqb_eq in E12. subst c. step_string. now rewrite IH. }
  destruct ((32 <=? c) && (c <=? 126)) eqn:Ep.
  { apply andb_prop in Ep. destruct Ep as [E32 _]. apply N.leb_le in E32.
    cbn [app loads_string]. rewrite Eq, Eb.
    replace (c <? 32) with false by (symmetry; apply N.ltb_ge; exact E32).
    now rewrite IH. }
  change (lit "u") with [117].
  destruct (c <? 65536) eqn:E16.
  - apply N.ltb_lt in E16. cbn [app].
    rewrite loads_escape_single; [now rewrite IH | exact E16 |].
    intros l1 l2 l3 l4 s12 u2 Hh E H2.
    exact (Hlow l1 l2 l3 l4 s12 u2 Hcp' (Hnext Hh) E H2).
  - apply N.ltb_ge in E16. cbn [app]. rewrite <- !app_assoc. cbn [app].
    rewrite loads_escape_pair.
    + rewrite IH. cbn [bind fst snd].
      match goal with
      | |- Ok (?a :: _, _) = _ => replace a with c by lia
      end.
      reflexivity.
    + unfold is_high. apply andb_true_intro. split; apply N.leb_le; lia.
    + unfold is_low. apply andb_true_intro. split; apply N.leb_le; lia.
Qed.

(** *** Records *)

Lemma loads_value_string fuel t :
  loads_value (S fuel) (quote :: t)
  = (r <- loads_string t ;; Ok (JStr (fst r), snd r)).
Proof. reflexivity. Qed.

Lemma record_item_app kv tail :
  record_item kv ++ tail
  = quote :: flat_map escape_char (fst kv)
    ++ quote :: 58 :: quote :: flat_map escape_char (snd kv) ++ quote :: tail.
Proof.
  unfold record_item, dumps_str. change (lit ":") with [58].
  cbn [app]. repeat (rewrite <- app_assoc; cbn [app]). reflexivity.
Qed.

Lemma plain_str_inv s :
  plain_str s = true ->
  forallb is_code_point s = true /\ has_surrogate_pair s = false.
Proof.
  unfold plain_str. intros H. apply andb_prop in H. destruct H as [H1 H2].
  split; [exact H1|]. now apply negb_true_iff.
Qed.

Lemma join_items_cons kv (R : record) rest :
  join (lit ",") (map record_item (kv :: R)) ++ 125 :: rest
  = record_item kv
    ++ match R with
       | [] => 125 :: rest
       | _ => 44 :: join (lit ",") (map record_item R) ++ 125 :: rest
       end.
Proof.
  destruct R as [|kv' R]; [reflexivity|].
  cbn [map join]. change (lit ",") with [44]. now rewrite <- !app_assoc.
Qed.

Lemma members_record fuel (R : record) : forall n acc rest,
  R <> [] -> (length R <= n)%nat -> plain_record R = true ->
  (fix loads_members (n : nat) (s : str) (acc : dict) {struct n}
     : result (json * str) :=
     match n with
     | O => Raise decode_error
     | S n' =>
       match skip_ws s with
       | q :: s1 =>
         if q =? quote then
           k <- loads_string s1 ;;
           match skip_ws (snd k) with
           | c :: s2 =>
             if c =? 58 then
               r <- loads_value (S fuel) s2 ;;
               match skip_ws (snd r) with
               | c' :: s3 =>
                 if c' =? 44 then loads_members n' s3 (dict_set (fst k) (fst r) acc)
                 else if c' =? 125 then
                   Ok (JDict (dict_set (fst k) (fst r) acc), s3)
                 else Raise decode_error
               | [] => Raise decode_error
               end
             else Raise decode_error
           | [] => Raise decode_error
           end
         else Raise decode_error
       | [] => Raise decode_error
       end
     end) n (join (lit ",") (map record_item R) ++ 125 :: rest) acc
  = Ok (JDict (fold_left (fun a kv => dict_set (fst kv) (JStr (snd kv)) a) R acc),
        rest).
Proof.
  induction R as [|kv R IH]; intros n acc rest Hne Hn Hp; [congruence|].
  destruct n as [|n]; [cbn in Hn; lia|].
  cbn [plain_record forallb] in Hp. apply andb_prop in Hp.
  destruct Hp as [Hkv Hp]. apply andb_prop in Hkv. destruct Hkv as [Hk Hv].
  apply plain_str_inv in Hk, Hv. destruct Hk as [Hk1 Hk2], Hv as [Hv1 Hv2].
  rewrite join_items_cons, record_item_app.
  cbn -[loads_value loads_string flat_map join fold_left dict_set].
  rewrite (loads_dumps_string _ _ Hk1 Hk2).
  cbn -[loads_value loads_string flat_map join fold_left dict_set].
  rewrite loads_value_string, (loads_dumps_string _ _ Hv1 Hv2).
  cbn [bind fst snd fold_left].
  destruct R as [|kv' R].
  - reflexivity.
  - cbn -[loads_value loads_string flat_map join fold_left dict_set map].
    apply (IH n _ rest); [discriminate | cbn [length] in *; lia | exact Hp].
Qed.

Lemma join_length sep (l : list str) :
  Forall (fun x => (1 <= length x)%nat) l ->
  (length l <= length (join sep l))%nat.
Proof.
  induction 1 as [|x l Hx Hl IH]; [reflexivity|].
  destruct l as [|y l]; [cbn [join length]; lia|].
  change (join sep (x :: y :: l)) with (x ++ sep ++ join sep (y :: l)).
  rewrite !length_app. cbn [length] in *. lia.
Qed.

Lemma record_items_length (R : record) :
  (length R <= length (join (lit ",") (map record_item R)))%nat.
Proof.
  rewrite <- (length_map record_item R) at 1. apply join_length.
  apply Forall_forall. intros x Hx. apply in_map_iff in Hx.
  destruct Hx as (kv & <- & _). unfold record_item, dumps_str.
  cbn [app length]. lia.
Qed.

Lemma dict_set_fresh k v (d : dict) :
  ~ In k (map fst d) -> dict_set k v d = d ++ [(k, v)].
Proof.
  induction d as [|[k' v'] d IH]; intros H; [reflexivity|].
  cbn [dict_set map fst In app] in *.
  destruct (str_eqb k k') eqn:E.
  - apply str_eqb_eq in E. subst. exfalso. apply H. now left.
  - rewrite IH; [reflexivity|]. intros Hin. apply H. now right.
Qed.

Lemma fold_dict_set (R : record) : forall acc,
  NoDup (map fst acc ++ map fst R) ->
  fold_left (fun a kv => dict_set (fst kv) (JStr (snd kv)) a) R acc
  = acc ++ map (fun kv => (fst kv, JStr (snd kv))) R.
Proof.
  induction R as [|kv R IH]; intros acc H; cbn [fold_left map].
  - now rewrite app_nil_r.
  - cbn [map] in H.
    rewrite dict_set_fresh.
    + rewrite IH.
      * now rewrite <- app_assoc.
      * rewrite map_app. cbn [map fst]. now rewrite <- app_assoc.
    + apply NoDup_remove_2 in H. intros Hin. apply H. apply in_or_app. now left.
Qed.

Lemma loads_record_text R :
  NoDup (map fst R) -> plain_record R = true ->
  loads (record_text R) = Ok (json_of_record R).
Proof.
  intros Hnd Hp. destruct R as [|kv R]; [reflexivity|].
  unfold loads, record_text. change (lit "{") with [123]. change (lit "}") with [125].
  cbn [app].
  pose proof (record_items_length (kv :: R)) as Hlen.
  pose proof (members_record
                (length (join (lit ",") (map record_item (kv :: R)) ++ [125]))
                (kv :: R)
                (length (join (lit ",") (map record_item (kv :: R)) ++ [125]))
                [] []) as Hm.
  rewrite join_items_cons, record_item_app in Hm |- *.
  remember (flat_map escape_char (fst kv) ++ _) as t eqn:Et in Hm |- *.
  cbn -[length loads_string flat_map join fold_left dict_set].
  change (length (123 :: quote :: t)) with (S (length (quote :: t))).
  rewrite Hm.
  - cbn [bind fst snd skip_ws]. f_equal. unfold json_of_record. f_equal.
    now apply (fold_dict_set (kv :: R) []).
  - discriminate.
  - subst t. rewrite <- record_item_app, <- join_items_cons.
    rewrite length_app. lia.
  - exact Hp.
Qed.

Lemma sequence_map_ok {A B} (f : A -> result B) (g : A -> B) l :
  (forall x, f x = Ok (g x)) -> sequence (map f l) = Ok (map g l).
Proof.
  intros H. induction l as [|x l IH]; [reflexivity|].
  cbn [map sequence]. now rewrite H, IH.
Qed.

Lemma dumps_record R : dumps (json_of_record R) = Ok (record_text R).
Proof.
  unfold json_of_record, record_text. cbn [dumps]. rewrite map_map.
  rewrite (sequence_map_ok _ record_item); [reflexivity|].
  intros kv. reflexivity.
Qed.

End JsonFacts.

(** ** The specification of the encoder and of the decoder *)

Section RoundTrip.
Context {zlib : ZlibLib}.

(** C1, amended. Round trip: a record [R] of [str] keys, pairwise
    distinct, and [str] values in which no high surrogate is directly
    followed by a low one, encoded under a key of a valid length and a
    16-byte IV, decodes under the same key and IV to [R].  The writer and
    the reader of JSON are the reference ones, which the proof runs;
    [zlib] is a parameter, taken to inflate what it compressed of the
    text of [R]. *)
Theorem envelope_roundtrip (R : record) (key_string iv_string text : str)
    (raw comp kb ivb : bytes) :
  NoDup (map fst R) ->
  plain_record R = true ->
  @json_dumps Ref.jsonlib (json_of_record R) = Ok text ->
  utf8_encode text = Ok raw ->
  zlib_compress 1 (-15) raw = Ok comp ->
  zlib_decompress comp (-15) = Ok raw ->
  utf8_encode key_string = Ok kb ->
  AES.valid_key_length (length kb) = true ->
  utf8_encode iv_string = Ok ivb ->
  length ivb = 16%nat ->
  exists envelope,
    @encrypt_aes_payload zlib Ref.jsonlib (json_of_record R)
      key_string iv_string = Ok envelope
    /\ @decrypt_and_decompress_payload zlib Ref.jsonlib (JStr envelope)
         key_string iv_string = Ok (json_of_record R).
Proof.
  intros Hnd Hp Hd Hr Hc Hi Hk Hv Hiv Hlen.
  assert (Hl : @json_loads Ref.jsonlib text = Ok (json_of_record R)).
  { cbn [json_dumps json_loads Ref.jsonlib] in *.
    rewrite JsonFacts.dumps_record in Hd. injection Hd as <-.
    now apply JsonFacts.loads_record_text. }
  exact (encode_then_decode _ _ _ _ _ _ _ _ Hd Hr Hc Hi Hl Hk Hv Hiv Hlen).
Qed.

End RoundTrip.

Section EnvelopeSpec.
Context {zlib : ZlibLib} {jsonlib : JsonLib}.

(** C2. Padding validity: when the last byte of the decrypted data is 0 or
    greater than the block size 16, the body of the decoder raises the
    invalid-padding error and the decoder returns the error record that
    carries its message, not a decoded record. *)
Theorem invalid_padding_rejected (s key_string iv_string : str)
    (padded_plaintext : bytes) (n : N) :
  padded_plaintext_of s key_string iv_string = Ok padded_plaintext ->
  index_last padded_plaintext = Ok n ->
  n = 0 \/ 16 < n ->
  decrypt_and_decompress_payload_body (JStr s) key_string iv_string
  = Raise invalid_padding
  /\ decrypt_and_decompress_payload (JStr s) key_string iv_string
     = Ok (JDict [(lit "error",
                   JStr (lit "Decryption Failed: Invalid padding value."))]).
Proof.
  intros Hp Hn Hbad.
  assert (Hb : decrypt_and_decompress_payload_body (JStr s) key_string iv_string
               = Raise invalid_padding).
  { rewrite decrypt_body_stages, Hp. cbn [bind].
    unfold unpad_and_parse. rewrite Hn. cbn [bind]. unfold AES.block_size.
    destruct Hbad as [-> | Hgt]; [reflexivity|].
    apply N.ltb_lt in Hgt. now rewrite Hgt. }
  split; [exact Hb|].
  now rewrite (decrypt_of_raise _ _ _ _ Hb).
Qed.

(** C3. PKCS#7 padding: the encoder appends to the compressed bytes [p]
    bytes of value [p], where [p] is 16 minus the compressed length
    modulo 16; [p] lies between 1 and 16, the padded length is a multiple
    of 16, and a compressed length that is already a multiple of 16 gets
    a full block of 16 bytes. *)
Theorem pkcs7_padding (data_dict : json) (key_string iv_string : str)
    (compressed_bytes : bytes) :
  compressed_bytes_of data_dict = Ok compressed_bytes ->
  let p := pad_len_of compressed_bytes in
  let padded_bytes := compressed_bytes ++ repeat (byte_of_N p) (N.to_nat p) in
  p = 16 - N.of_nat (length compressed_bytes) mod 16
  /\ 1 <= p <= 16
  /\ Byte.to_N (byte_of_N p) = p
  /\ (length padded_bytes mod 16 = 0)%nat
  /\ (N.of_nat (length compressed_bytes) mod 16 = 0 -> p = 16)
  /\ encrypt_aes_payload_body data_dict key_string iv_string
     = encrypt_and_encode padded_bytes key_string iv_string.
Proof.
  intros Hc p padded_bytes.
  pose proof (pad_len_range compressed_bytes) as Hr.
  repeat split; try apply Hr.
  - rewrite to_N_byte_of_N. apply N.mod_small. fold p in Hr. lia.
  - apply padded_length.
  - intros H. unfold p, pad_len_of, AES.block_size. rewrite H. reflexivity.
  - rewrite encrypt_body_stages, Hc. cbn [bind].
    rewrite padded_bytes_of_eq. reflexivity.
Qed.

(** C4. Base64 re-padding: an input whose length is not a multiple of 4
    gets one to three pad characters appended, which makes its length a
    multiple of 4, and the result is what is base64-decoded; hence a text
    that lacks up to three trailing pad characters decodes to the same
    result as the padded text. *)
Theorem base64_repadding (s key_string iv_string : str) :
  ((length s mod 4 <> 0)%nat ->
   exists k, (1 <= k <= 3)%nat
             /\ restore_padding s = s ++ str_mul (lit "=") k
             /\ (length (restore_padding s) mod 4 = 0)%nat)
  /\ decrypt_and_decompress_payload_body (JStr s) key_string iv_string
     = (encrypted_bytes <- Base64.b64decode (restore_padding s) ;;
        cipher <- cipher_of key_string iv_string ;;
        padded_plaintext <- AES.decrypt cipher encrypted_bytes ;;
        unpad_and_parse padded_plaintext)
  /\ (forall k, (k <= 3)%nat ->
        (length (s ++ str_mul (lit "=") k) mod 4 = 0)%nat ->
        decrypt_and_decompress_payload (JStr s) key_string iv_string
        = decrypt_and_decompress_payload (JStr (s ++ str_mul (lit "=") k))
            key_string iv_string).
Proof.
  split; [|split].
  - intros Hne. exists (4 - length s mod 4)%nat.
    pose proof (Nat.mod_upper_bound (length s) 4 ltac:(lia)).
    split; [lia|]. split; [|apply restore_padding_length].
    unfold restore_padding.
    destruct (length s mod 4 =? 0)%nat eqn:E; [|reflexivity].
    apply Nat.eqb_eq in E. contradiction.
  - rewrite decrypt_body_stages. unfold padded_plaintext_of.
    destruct (Base64.b64decode (restore_padding s)); cbn [bind]; [|reflexivity].
    destruct (cipher_of key_string iv_string); reflexivity.
  - intros k Hk Hm.
    unfold decrypt_and_decompress_payload.
    rewrite !decrypt_body_stages. unfold padded_plaintext_of.
    rewrite (restore_padding_stripped s k Hk Hm).
    now rewrite (restore_padding_aligned _ Hm).
Qed.

(** C5. Soft failure: the decoder never raises.  Whenever its body raises,
    at whatever stage, it returns the record with the single field
    [error] that carries the message. *)
Theorem decode_soft_fail (v : json) (key_string iv_string : str) :
  (exists r, decrypt_and_decompress_payload v key_string iv_string = Ok r)
  /\ (forall e,
        decrypt_and_decompress_payload_body v key_string iv_string = Raise e ->
        decrypt_and_decompress_payload v key_string iv_string
        = Ok (JDict [(lit "error",
                      JStr (lit "Decryption Failed: " ++ exn_msg e))]))
  /\ (forall s e, v = JStr s ->
        Base64.b64decode (restore_padding s) = Raise e ->
        decrypt_and_decompress_payload v key_string iv_string
        = Ok (error_record e))
  /\ (forall s e, v = JStr s ->
        padded_plaintext_of s key_string iv_string = Raise e ->
        decrypt_and_decompress_payload v key_string iv_string
        = Ok (error_record e))
  /\ (forall s padded_plaintext e, v = JStr s ->
        padded_plaintext_of s key_string iv_string = Ok padded_plaintext ->
        unpad_and_parse padded_plaintext = Raise e ->
        decrypt_and_decompress_payload v key_string iv_string
        = Ok (error_record e))
  /\ (forall s padded_plaintext n e, v = JStr s ->
        padded_plaintext_of s key_string iv_string = Ok padded_plaintext ->
        index_last padded_plaintext = Ok n ->
        (AES.block_size <? n) || (n =? 0) = false ->
        inflate_and_parse (slice_drop_last padded_plaintext n) = Raise e ->
        decrypt_and_decompress_payload v key_string iv_string
        = Ok (error_record e))
  /\ ((forall s, v <> JStr s) ->
        decrypt_and_decompress_payload v key_string iv_string
        = Ok (error_record (non_str_error v))).
Proof.
  split; [apply decrypt_total|].
  split; [intros e He; now rewrite (decrypt_of_raise _ _ _ _ He)|].
  split.
  { intros s e -> He. apply decrypt_of_raise.
    rewrite decrypt_body_stages. unfold padded_plaintext_of. now rewrite He. }
  split.
  { intros s e -> He. apply decrypt_of_raise.
    rewrite decrypt_body_stages. now rewrite He. }
  split.
  { intros s p e -> Hp He. apply decrypt_of_raise.
    rewrite decrypt_body_stages, Hp. exact He. }
  split.
  { intros s p n e -> Hp Hn Hc He. apply decrypt_of_raise.
    rewrite decrypt_body_stages, Hp. cbn [bind].
    unfold unpad_and_parse. rewrite Hn. cbn [bind]. now rewrite Hc. }
  intros Hns. apply decrypt_of_raise. now apply decrypt_body_not_str.
Qed.

(** The decrypted data has the length of the ciphertext, a multiple of
    16. *)
Lemma padded_plaintext_length s key_string iv_string padded_plaintext :
  padded_plaintext_of s key_string iv_string = Ok padded_plaintext ->
  (length padded_plaintext mod 16 = 0)%nat.
Proof.
  unfold padded_plaintext_of. intros H.
  apply bind_ok in H. destruct H as (eb & _ & H).
  apply bind_ok in H. destruct H as (c & Hc & H).
  destruct (cipher_of_inv _ _ _ Hc) as (kb & ivb & _ & _ & Hn).
  rewrite (AESFacts.decrypt_length _ _ _ _ _ Hn H).
  unfold AES.decrypt in H.
  destruct (length eb mod 16 =? 0)%nat eqn:E; cbn [negb] in H; [|discriminate].
  now apply Nat.eqb_eq.
Qed.

(** C9. The decoder looks at the last decrypted byte only: when that byte
    [n] lies between 1 and 16, the [n] trailing bytes are removed,
    whatever their values, and the rest is inflated and parsed. *)
Theorem strip_by_last_byte (s key_string iv_string : str)
    (padded_plaintext : bytes) (n : N) :
  padded_plaintext_of s key_string iv_string = Ok padded_plaintext ->
  index_last padded_plaintext = Ok n ->
  1 <= n <= 16 ->
  exists kept removed,
    padded_plaintext = kept ++ removed
    /\ length removed = N.to_nat n
    /\ slice_drop_last padded_plaintext n = kept
    /\ decrypt_and_decompress_payload_body (JStr s) key_string iv_string
       = inflate_and_parse kept.
Proof.
  intros Hp Hn Hr.
  pose proof (padded_plaintext_length _ _ _ _ Hp) as Hm.
  assert (Hlen : (16 <= length padded_plaintext)%nat).
  { destruct padded_plaintext as [|x l]; [discriminate Hn|].
    destruct (Nat.lt_ge_cases (length (x :: l)) 16) as [Hlt|]; [|assumption].
    rewrite Nat.mod_small in Hm by assumption. discriminate Hm. }
  exists (slice_drop_last padded_plaintext n),
         (skipn (length padded_plaintext - N.to_nat n) padded_plaintext).
  split; [symmetry; apply firstn_skipn|].
  split; [rewrite length_skipn; lia|].
  split; [reflexivity|].
  rewrite decrypt_body_stages, Hp. cbn [bind].
  unfold unpad_and_parse. rewrite Hn. cbn [bind]. unfold AES.block_size.
  replace (16 <? n) with false by (symmetry; apply N.ltb_ge; lia).
  replace (n =? 0) with false by (symmetry; apply N.eqb_neq; lia).
  reflexivity.
Qed.

End EnvelopeSpec.

(** ** The request driver *)

Section DriverFacts.
Context {zlib : ZlibLib} {jsonlib : JsonLib} {env : Env}.

Lemma encrypt_rsa_total s w : exists t w', encrypt_rsa s w = (Ok t, w').
Proof.
  unfold encrypt_rsa, io_try_except, io_ret.
  destruct (encrypt_rsa_body s w) as [[t|e] w']; eauto.
Qed.

Lemma encrypt_request_total username password w :
  exists ed ek ei w',
    encrypt_request username password w = (Ok (ed, ek, ei), w').
Proof.
  unfold encrypt_request, io_bind, io_lift, io_ret.
  destruct (encrypt_aes_payload_total (plaintext_data username password)
              fixed_key fixed_iv) as (ed & ->).
  destruct (encrypt_rsa_total fixed_key w) as (ek & w1 & ->).
  destruct (encrypt_rsa_total fixed_iv w1) as (ei & w2 & ->).
  eauto 6.
Qed.

Lemma encrypt_request_inv username password w ed ek ei w2 :
  encrypt_request username password w = (Ok (ed, ek, ei), w2) ->
  encrypt_aes_payload (plaintext_data username password) fixed_key fixed_iv
  = Ok ed.
Proof.
  unfold encrypt_request, io_bind, io_lift, io_ret.
  destruct (encrypt_aes_payload _ _ _) as [x|]; [|discriminate].
  destruct (encrypt_rsa fixed_key w) as [[y|] w1]; [|discriminate].
  destruct (encrypt_rsa fixed_iv w1) as [[z|] w3]; [|discriminate].
  now intros [= -> _ _ _].
Qed.

(** The body of the driver: encrypt, test for the marker, then either
    raise or send. *)
Lemma perform_request_body_run username password url w ed ek ei w2 :
  encrypt_request username password w = (Ok (ed, ek, ei), w2) ->
  perform_request_body username password url w =
  if error_in ed ek ei then (Raise encryption_failed, w2)
  else send_and_classify username password url ed ek ei w2.
Proof.
  unfold encrypt_request, perform_request_body, send_and_classify, classify,
    io_bind, io_lift, io_ret, io_raise, headers.
  destruct (encrypt_aes_payload _ _ _) as [x|]; [|discriminate].
  destruct (encrypt_rsa fixed_key w) as [[y|] w1]; [|discriminate].
  destruct (encrypt_rsa fixed_iv w1) as [[z|] w3]; [|discriminate].
  intros [= -> -> -> ->].
  destruct (error_in ed ek ei); [reflexivity|].
  destruct (requests_post _ _ _ _) as [[r|] w4]; [|reflexivity].
  destruct (raise_for_status r); cbn [bind]; [|reflexivity].
  destruct (Response_json r); cbn [bind]; [|reflexivity].
  destruct (is_hit_of _); reflexivity.
Qed.


Lemma perform_request_of_raise username password url w e w' :
  perform_request_body username password url w = (Raise e, w') ->
  perform_request username password url w
  = (Ok (failure_outcome username password e), w').
Proof. unfold perform_request, io_try_except. now intros ->. Qed.

(** The driver never raises. *)
Lemma perform_request_total username password url w :
  exists o w', perform_request username password url w = (Ok o, w').
Proof.
  unfold perform_request, io_try_except, io_ret.
  destruct (perform_request_body username password url w) as [[o|e] w'];
    eauto.
Qed.

(** A marker in the ciphertext string alone aborts the attempt. *)
Lemma marker_aborts username password url w ed ek ei w2 :
  encrypt_request username password w = (Ok (ed, ek, ei), w2) ->
  str_in (lit "Error") ed = true ->
  perform_request username password url w
  = (Ok (failure_outcome username password encryption_failed), w2).
Proof.
  intros Hr Hm. apply perform_request_of_raise.
  rewrite (perform_request_body_run _ _ _ _ _ _ _ _ Hr).
  unfold error_in. now rewrite Hm.
Qed.

(** *** Classifying a response *)

Lemma error_record_no_token e : ~ has_token (error_record e).
Proof.
  intros (d & t & Hd & Ht & _). unfold error_record in Hd.
  injection Hd as <-. vm_compute in Ht. discriminate.
Qed.

Lemma decrypt_empty_text :
  decrypt_and_decompress_payload_body (JStr []) fixed_key fixed_iv
  = Raise (Exn IndexError (lit "index out of range")).
Proof. vm_compute. reflexivity. Qed.

Lemma falsy_no_token d r :
  truthy d = false ->
  decrypt_and_decompress_payload d fixed_key fixed_iv = Ok r ->
  ~ has_token r.
Proof.
  intros Hf Hd.
  assert (exists e, decrypt_and_decompress_payload_body d fixed_key fixed_iv
                    = Raise e) as (e & He).
  { destruct d as [| | | |s|l|d'];
      try (eexists; apply decrypt_body_not_str; discriminate).
    destruct s; [|discriminate Hf].
    eexists. apply decrypt_empty_text. }
  rewrite (decrypt_of_raise _ _ _ _ He) in Hd. injection Hd as <-.
  apply error_record_no_token.
Qed.

(** Lines 101 to 106 give a hit exactly when the body has a [data] field
    that decodes to a record with a truthy [token]. *)
Lemma is_hit_of_spec body :
  exists hit, is_hit_of (JDict body) = Ok hit
    /\ (hit = true <->
        exists d r, dict_get (lit "data") body = Some d
                    /\ decrypt_and_decompress_payload d fixed_key fixed_iv = Ok r
                    /\ has_token r).
Proof.
  unfold is_hit_of. cbn [py_get bind].
  destruct (dict_get (lit "data") body) as [d|] eqn:Hg.
  2:{ exists false. split; [reflexivity|]. split; [discriminate|].
      intros (d & r & Hd & _). discriminate Hd. }
  destruct (decrypt_total d fixed_key fixed_iv) as (r & Hr).
  destruct (truthy d) eqn:Ht.
  - rewrite Hr. cbn [bind].
    destruct r as [| | | | | |rec]; cbn [is_dict];
      try (exists false; split; [reflexivity|];
           split; [discriminate|];
           intros (d0 & r' & [= <-] & Hr' & (d' & t & Hd' & _));
           rewrite Hr in Hr'; injection Hr' as <-; discriminate).
    cbn [py_get bind].
    destruct (dict_get (lit "token") rec) as [t|] eqn:Hk.
    + exists (truthy t). split; [reflexivity|]. split.
      * intros Htt. exists d, (JDict rec). split; [reflexivity|].
        split; [exact Hr|]. exists rec, t. auto.
      * intros (d0 & r' & [= <-] & Hr' & (d' & t' & Hd' & Hk' & Htt)).
        rewrite Hr in Hr'. injection Hr' as <-. injection Hd' as <-.
        rewrite Hk in Hk'. now injection Hk' as ->.
    + exists false. split; [reflexivity|]. split; [discriminate|].
      intros (d0 & r' & [= <-] & Hr' & (d' & t' & Hd' & Hk' & _)).
      rewrite Hr in Hr'. injection Hr' as <-. injection Hd' as <-.
      rewrite Hk in Hk'. discriminate.
  - exists false. split; [reflexivity|]. split; [discriminate|].
    intros (d0 & r' & [= <-] & Hr' & Htok). exfalso.
    exact (falsy_no_token d r' Ht Hr' Htok).
Qed.

(** *** The body that the driver returns *)

Lemma dict_replace_same k v d :
  dict_get k d = Some v -> dict_replace k v d = d.
Proof.
  induction d as [|[k' v'] d IH]; cbn [dict_get dict_replace]; [reflexivity|].
  destruct (str_eqb k k').
  - now intros [= ->].
  - intros H. now rewrite (IH H).
Qed.

Lemma argument_after_not_list v :
  (forall l, v <> JList l) -> argument_after v = v.
Proof.
  intros H. unfold argument_after. destruct v; try reflexivity.
  now destruct (H l).
Qed.

(** Only a [data] list is changed by the call of the decoder. *)
Lemma returned_json_unchanged body :
  (forall l, dict_get (lit "data") body <> Some (JList l)) ->
  returned_json (JDict body) = JDict body.
Proof.
  intros H. unfold returned_json.
  destruct (dict_get (lit "data") body) as [d|] eqn:Hd; [|reflexivity].
  destruct (truthy d); [|reflexivity].
  rewrite argument_after_not_list.
  - now rewrite (dict_replace_same _ _ _ Hd).
  - intros l ->. now apply (H l).
Qed.

Lemma returned_json_is_dict body :
  exists body', returned_json (JDict body) = JDict body'.
Proof.
  unfold returned_json.
  destruct (dict_get (lit "data") body) as [d|]; [|eauto].
  destruct (truthy d); eauto.
Qed.

(** A record with a token is decoded from a [str] only. *)
Lemma token_needs_str d r :
  decrypt_and_decompress_payload d fixed_key fixed_iv = Ok r ->
  has_token r -> exists s, d = JStr s.
Proof.
  intros Hd Ht.
  assert (Hn : (forall s, d <> JStr s) -> False).
  { intros Hns.
    rewrite (decrypt_of_raise _ _ _ _
               (decrypt_body_not_str d fixed_key fixed_iv Hns)) in Hd.
    injection Hd as <-. exact (error_record_no_token _ Ht). }
  destruct d as [| | | |s|l|d']; eauto; exfalso; apply Hn; discriminate.
Qed.


End DriverFacts.

(** ** The specification of the request driver *)

Section DriverSpec.
Context {zlib : ZlibLib} {jsonlib : JsonLib} {env : Env}.



(** C8, amended. The encoder turns the 32 characters of the key string
    into 32 bytes and uses all of them as an AES-256 key (15 round keys),
    with the 16 bytes of the IV string; the example record, encoded under
    them, decodes to itself, [zlib] and [json] undoing themselves on its
    text. *)
Theorem example_record_decodes (text : str) (raw comp : bytes) :
  json_dumps (json_of_record example_record) = Ok text ->
  utf8_encode text = Ok raw ->
  zlib_compress 1 (-15) raw = Ok comp ->
  zlib_decompress comp (-15) = Ok raw ->
  json_loads text = Ok (json_of_record example_record) ->
  (exists kb ivb,
     utf8_encode fixed_key = Ok kb /\ length kb = 32%nat
     /\ utf8_encode fixed_iv = Ok ivb /\ length ivb = 16%nat
     /\ cipher_of fixed_key fixed_iv
        = Ok (AES.Cipher (AES.key_expansion kb) ivb)
     /\ length (AES.key_expansion kb) = 15%nat)
  /\ json_of_record example_record
     = plaintext_data (lit "a@b.com") (lit "x")
  /\ exists envelope,
       encrypt_aes_payload (json_of_record example_record) fixed_key fixed_iv
       = Ok envelope
       /\ decrypt_and_decompress_payload (JStr envelope) fixed_key fixed_iv
          = Ok (json_of_record example_record).
Proof.
  intros Hd Hr Hc Hi Hl.
  split; [|split; [reflexivity|]].
  - eexists _, _. repeat split; vm_compute; reflexivity.
  - eapply (encode_then_decode (json_of_record example_record)
              fixed_key fixed_iv); eauto; vm_compute; reflexivity.
Qed.

End DriverSpec.

(** ** The program on the scenarios *)

(** Each recorded output of the compressor inflates to its input. *)
Example recorded_runs_inflate :
  forallb (fun r => match Ref.inflate (snd r) with
                    | Ok d => Ref.bytes_eqb d (fst r)
                    | Raise _ => false
                    end) Ref.recorded_runs = true.
Proof. vm_compute. reflexivity. Qed.

Example inflate_stored_block :
  Ref.inflate (Ref.stored_block (list_byte_of_string "stored")) =
  Ok (list_byte_of_string "stored").
Proof. vm_compute. reflexivity. Qed.

(** The reader takes a surrogate pair of escapes for one code point, as
    [json.loads] does. *)
Example loads_surrogate_pair :
  Ref.loads ([34; 92] ++ lit "ud83d" ++ [92] ++ lit "ude00" ++ [34])
  = Ok (JStr [0x1F600]).
Proof. vm_compute. reflexivity. Qed.

Example marked_envelope_encoded :
  @encrypt_aes_payload_body Ref.zlib Ref.jsonlib
    (plaintext_data Scenario.marked_username Scenario.marked_password)
    fixed_key fixed_iv = Ok Scenario.marked_envelope.
Proof. vm_compute. reflexivity. Qed.

Example example_envelope_encoded :
  @encrypt_aes_payload Ref.zlib Ref.jsonlib
    (json_of_record example_record) fixed_key fixed_iv
  = Ok Scenario.example_envelope.
Proof. vm_compute. reflexivity. Qed.

Example token_envelope_decoded :
  @decrypt_and_decompress_payload Ref.zlib Ref.jsonlib
    (JStr Scenario.token_envelope) fixed_key fixed_iv
  = Ok (JDict [(lit "token", JStr (lit "abc"))]).
Proof. vm_compute. reflexivity. Qed.

Example empty_envelope_decoded :
  @decrypt_and_decompress_payload Ref.zlib Ref.jsonlib
    (JStr Scenario.empty_envelope) fixed_key fixed_iv = Ok (JDict []).
Proof. vm_compute. reflexivity. Qed.

Example encrypt_request_answering status answer_text :
  @encrypt_request Ref.zlib Ref.jsonlib Ref.env (lit "a@b.com") (lit "x")
    (Scenario.answering status answer_text)
  = (Ok (Scenario.example_envelope, Scenario.key_rsa, Scenario.iv_rsa),
     Scenario.drained status answer_text).
Proof. vm_compute. reflexivity. Qed.

Example odd_padding_decrypted :
  padded_plaintext_of Scenario.odd_padding_envelope fixed_key fixed_iv
  = Ok Scenario.odd_padding.
Proof. vm_compute. reflexivity. Qed.

(** The padded compression of the empty object under the key string and
    under its first 16 bytes. *)
Example aes256_and_aes128_envelopes :
  encrypt_and_encode (unhex "abae05000c0c0c0c0c0c0c0c0c0c0c0c")
    fixed_key fixed_iv = Ok Scenario.empty_envelope
  /\ encrypt_and_encode (unhex "abae05000c0c0c0c0c0c0c0c0c0c0c0c")
       (firstn 16 fixed_key) fixed_iv = Ok Scenario.aes128_envelope.
Proof. split; vm_compute; reflexivity. Qed.

(** A key string of 20 characters: the encoder returns the error string
    and the driver would abort on it. *)
Example bad_key_length :
  @encrypt_aes_payload Ref.zlib Ref.jsonlib (json_of_record example_record)
    (firstn 20 fixed_key) fixed_iv
  = Ok (lit "AES Encryption Error: Incorrect AES key length").
Proof. vm_compute. reflexivity. Qed.

(** Padding that is not PKCS#7 is accepted: the decoder returns the empty
    object. *)
Example odd_padding_accepted :
  @decrypt_and_decompress_payload Ref.zlib Ref.jsonlib
    (JStr Scenario.odd_padding_envelope) fixed_key fixed_iv = Ok (JDict []).
Proof. vm_compute. reflexivity. Qed.

(** End to end: a token is a hit; no token, an empty token and an error
    status are none. *)
Example token_is_a_hit :
  @perform_request Ref.zlib Ref.jsonlib Ref.env (lit "a@b.com") (lit "x")
    Scenario.url
    (Scenario.answering 200 (Scenario.answer Scenario.token_envelope))
  = (Ok (true, lit "a@b.com:x",
         JDict [(lit "data", JStr Scenario.token_envelope)]),
     Scenario.answered 200 (Scenario.answer Scenario.token_envelope)
       Scenario.example_envelope).
Proof. vm_compute. reflexivity. Qed.

Example no_token_is_no_hit :
  @perform_request Ref.zlib Ref.jsonlib Ref.env (lit "a@b.com") (lit "x")
    Scenario.url
    (Scenario.answering 200 (Scenario.answer Scenario.empty_envelope))
  = (Ok (false, lit "a@b.com:x",
         JDict [(lit "data", JStr Scenario.empty_envelope)]),
     Scenario.answered 200 (Scenario.answer Scenario.empty_envelope)
       Scenario.example_envelope).
Proof. vm_compute. reflexivity. Qed.

Example empty_token_is_no_hit :
  @perform_request Ref.zlib Ref.jsonlib Ref.env (lit "a@b.com") (lit "x")
    Scenario.url
    (Scenario.answering 200 (Scenario.answer Scenario.empty_token_envelope))
  = (Ok (false, lit "a@b.com:x",
         JDict [(lit "data", JStr Scenario.empty_token_envelope)]),
     Scenario.answered 200 (Scenario.answer Scenario.empty_token_envelope)
       Scenario.example_envelope).
Proof. vm_compute. reflexivity. Qed.

Example no_data_is_no_hit :
  fst (@perform_request Ref.zlib Ref.jsonlib Ref.env (lit "a@b.com")
         (lit "x") Scenario.url
         (Scenario.answering 200 (lit "{}")))
  = Ok (false, lit "a@b.com:x", JDict []).
Proof. vm_compute. reflexivity. Qed.

(** A [data] list of one item: the decoder extends it in place before it
    fails, and the driver returns the body with the three new items. *)
Example data_list_is_extended :
  fst (@perform_request Ref.zlib Ref.jsonlib Ref.env (lit "a@b.com")
         (lit "x") Scenario.url
         (Scenario.answering 200
            ([123; 34] ++ lit "data" ++ [34; 58; 91; 34] ++ lit "x"
             ++ [34; 93; 125])))
  = Ok (false, lit "a@b.com:x",
        JDict [(lit "data",
                JList [JStr (lit "x"); JStr (lit "="); JStr (lit "=");
                       JStr (lit "=")])]).
Proof. vm_compute. reflexivity. Qed.

Example error_status_is_no_hit :
  fst (@perform_request Ref.zlib Ref.jsonlib Ref.env (lit "a@b.com")
         (lit "x") Scenario.url
         (Scenario.answering 500 (Scenario.answer Scenario.token_envelope)))
  = Ok (false, lit "a@b.com:x",
        JDict [(lit "error", JStr (lit "Client or Server Error: -"))]).
Proof. vm_compute. reflexivity. Qed.

(** ** Witnesses and counterexamples *)

Lemma envelope_roundtrip_witness :
  exists envelope,
    @encrypt_aes_payload Ref.zlib Ref.jsonlib
      (json_of_record example_record) fixed_key fixed_iv = Ok envelope
    /\ @decrypt_and_decompress_payload Ref.zlib Ref.jsonlib
         (JStr envelope) fixed_key fixed_iv = Ok (json_of_record example_record).
Proof.
  eapply (@envelope_roundtrip Ref.zlib example_record fixed_key fixed_iv).
  - repeat constructor; cbn; intuition discriminate.
  - vm_compute. reflexivity.
  - vm_compute. reflexivity.
  - vm_compute. reflexivity.
  - vm_compute. reflexivity.
  - vm_compute. reflexivity.
  - vm_compute. reflexivity.
  - vm_compute. reflexivity.
  - vm_compute. reflexivity.
  - vm_compute. reflexivity.
Defined.

(** The record whose value is a high surrogate followed by a low one is
    encoded to [paired_envelope], and that envelope decodes to the record
    whose value is the one code point U+1F600. *)
Example paired_record_run :
  @encrypt_aes_payload_body Ref.zlib Ref.jsonlib
    (json_of_record paired_record) fixed_key fixed_iv = Ok paired_envelope
  /\ @decrypt_and_decompress_payload Ref.zlib Ref.jsonlib
       (JStr paired_envelope) fixed_key fixed_iv
     = Ok (JDict [(lit "k", JStr [0x1F600])]).
Proof. split; vm_compute; reflexivity. Qed.

(** C1 as stated fails: the round trip of the record whose value is the
    surrogate pair of U+1F600 gives the record whose value is U+1F600. *)
Lemma paired_record_is_not_recovered : ~ every_record_is_recovered.
Proof.
  intros H.
  assert (Hd :
    @decrypt_and_decompress_payload Ref.zlib Ref.jsonlib
      (JStr paired_envelope) fixed_key fixed_iv
    = Ok (json_of_record paired_record)).
  { eapply (H paired_record fixed_key fixed_iv paired_envelope).
    - repeat constructor. intros [].
    - vm_compute. reflexivity.
    - vm_compute. reflexivity.
    - vm_compute. reflexivity.
    - vm_compute. reflexivity.
    - vm_compute. reflexivity.
    - vm_compute. reflexivity. }
  vm_compute in Hd. discriminate Hd.
Qed.

Lemma invalid_padding_rejected_witness :
  @decrypt_and_decompress_payload_body Ref.zlib Ref.jsonlib
    (JStr Scenario.long_padding_envelope) fixed_key fixed_iv
  = Raise invalid_padding
  /\ @decrypt_and_decompress_payload Ref.zlib Ref.jsonlib
       (JStr Scenario.long_padding_envelope) fixed_key fixed_iv
     = Ok (JDict [(lit "error",
                   JStr (lit "Decryption Failed: Invalid padding value."))]).
Proof.
  apply (@invalid_padding_rejected Ref.zlib Ref.jsonlib
           Scenario.long_padding_envelope fixed_key fixed_iv
           Scenario.long_padding 17).
  - vm_compute. reflexivity.
  - vm_compute. reflexivity.
  - right. lia.
Defined.

Lemma pkcs7_padding_witness :
  let compressed_bytes :=
    match @compressed_bytes_of Ref.zlib Ref.jsonlib
            (json_of_record example_record) with
    | Ok c => c
    | Raise _ => []
    end in
  length compressed_bytes = 151%nat
  /\ pad_len_of compressed_bytes = 9
  /\ @encrypt_aes_payload_body Ref.zlib Ref.jsonlib
       (json_of_record example_record) fixed_key fixed_iv
     = encrypt_and_encode (compressed_bytes ++ repeat x09 9) fixed_key fixed_iv.
Proof.
  intros compressed_bytes.
  assert (Hc : @compressed_bytes_of Ref.zlib Ref.jsonlib
                 (json_of_record example_record) = Ok compressed_bytes)
    by (vm_compute; reflexivity).
  destruct (@pkcs7_padding Ref.zlib Ref.jsonlib (json_of_record example_record)
              fixed_key fixed_iv compressed_bytes Hc)
    as (Hp & _ & _ & _ & _ & He).
  split; [vm_compute; reflexivity|].
  split; [vm_compute; reflexivity|].
  exact He.
Defined.

Lemma base64_repadding_witness :
  @decrypt_and_decompress_payload Ref.zlib Ref.jsonlib
    (JStr Scenario.stripped_envelope) fixed_key fixed_iv
  = @decrypt_and_decompress_payload Ref.zlib Ref.jsonlib
      (JStr (Scenario.stripped_envelope ++ str_mul (lit "=") 2))
      fixed_key fixed_iv.
Proof.
  apply (proj2 (proj2 (@base64_repadding Ref.zlib Ref.jsonlib
                         Scenario.stripped_envelope fixed_key fixed_iv))).
  - lia.
  - reflexivity.
Defined.

Lemma strip_by_last_byte_witness :
  exists kept removed,
    Scenario.odd_padding = kept ++ removed
    /\ length removed = 12%nat
    /\ slice_drop_last Scenario.odd_padding 12 = kept
    /\ @decrypt_and_decompress_payload_body Ref.zlib Ref.jsonlib
         (JStr Scenario.odd_padding_envelope) fixed_key fixed_iv
       = @inflate_and_parse Ref.zlib Ref.jsonlib kept.
Proof.
  apply (@strip_by_last_byte Ref.zlib Ref.jsonlib
           Scenario.odd_padding_envelope fixed_key fixed_iv
           Scenario.odd_padding 12).
  - vm_compute. reflexivity.
  - vm_compute. reflexivity.
  - lia.
Defined.



(** C7. The encoder succeeds on the credentials
    [user2838821@example.com], [x]: its output is a base64 text, not the
    error string.  The text holds the marker, so the driver reports the
    attempt as an encryption failure and sends nothing. *)
Theorem marked_envelope_reported_as_failure :
  @encrypt_aes_payload_body Ref.zlib Ref.jsonlib
    (plaintext_data Scenario.marked_username Scenario.marked_password)
    fixed_key fixed_iv = Ok Scenario.marked_envelope
  /\ Forall (fun c => is_b64_char c = true) Scenario.marked_envelope
  /\ str_in (lit "Error") Scenario.marked_envelope = true
  /\ forall status answer_text,
       exists w',
         @perform_request Ref.zlib Ref.jsonlib Ref.env
           Scenario.marked_username Scenario.marked_password Scenario.url
           (Scenario.answering status answer_text)
         = (Ok (false, lit "user2838821@example.com:x",
                JDict [(lit "error",
                        JStr (lit "Encryption failed during payload creation."))]),
            w')
         /\ Ref.sent w' = [].
Proof.
  split; [vm_compute; reflexivity|].
  split; [apply forallb_Forall; vm_compute; reflexivity|].
  split; [vm_compute; reflexivity|].
  intros status answer_text. eexists. split.
  - vm_compute. reflexivity.
  - reflexivity.
Qed.

Lemma example_record_decodes_witness :
  (exists kb ivb,
     utf8_encode fixed_key = Ok kb /\ length kb = 32%nat
     /\ utf8_encode fixed_iv = Ok ivb /\ length ivb = 16%nat
     /\ cipher_of fixed_key fixed_iv
        = Ok (AES.Cipher (AES.key_expansion kb) ivb)
     /\ length (AES.key_expansion kb) = 15%nat)
  /\ json_of_record example_record
     = plaintext_data (lit "a@b.com") (lit "x")
  /\ exists envelope,
       @encrypt_aes_payload Ref.zlib Ref.jsonlib
         (json_of_record example_record) fixed_key fixed_iv = Ok envelope
       /\ @decrypt_and_decompress_payload Ref.zlib Ref.jsonlib
            (JStr envelope) fixed_key fixed_iv
          = Ok (json_of_record example_record).
Proof.
  eapply (@example_record_decodes Ref.zlib Ref.jsonlib).
  - vm_compute. reflexivity.
  - vm_compute. reflexivity.
  - vm_compute. reflexivity.
  - vm_compute. reflexivity.
  - vm_compute. reflexivity.
Defined.

(** The cipher of the example has the 15 round keys of AES-256; the first
    16 bytes of the key string give the 11 round keys of AES-128. *)
Lemma example_key_is_aes256 : ~ example_key_used_as_aes128.
Proof.
  unfold example_key_used_as_aes128. intros H.
  apply (f_equal (fun r => match r with
                           | Ok c => length (AES.cipher_round_keys c)
                           | Raise _ => O
                           end)) in H.
  vm_compute in H. discriminate H.
Qed.


(** ** Further properties: the command line *)

Lemma isspace_colon : isspace colon = false.
Proof. reflexivity. Qed.

Lemma str_in_colon s : str_in (lit ":") s = true <-> In colon s.
Proof.
  induction s as [|c s IH]; cbn [str_in starts_with lit map list_ascii_of_string].
  - cbn. split; [discriminate | intros []].
  - change (N_of_ascii ":") with colon in *.
    cbn [starts_with] in *. rewrite andb_true_r. rewrite orb_true_iff, IH.
    rewrite N.eqb_eq. cbn [In]. split; intros [H|H]; auto.
Qed.

Lemma lstrip_suffix s :
  exists pre, s = pre ++ lstrip s /\ Forall (fun c => isspace c = true) pre.
Proof.
  induction s as [|c s (pre & E & F)]; [exists []; split; [reflexivity|constructor]|].
  cbn [lstrip]. destruct (isspace c) eqn:Hc.
  - exists (c :: pre). split; [cbn; congruence | now constructor].
  - exists []. split; [reflexivity | constructor].
Qed.

Lemma lstrip_keeps_colon s : In colon s -> In colon (lstrip s).
Proof.
  destruct (lstrip_suffix s) as (pre & E & F). intros H.
  rewrite E in H. apply in_app_or in H. destruct H as [H|H]; [|exact H].
  rewrite Forall_forall in F. apply F in H. discriminate H.
Qed.

Lemma strip_keeps_colon s : In colon s -> In colon (strip s).
Proof.
  intros H. unfold strip, rstrip. apply in_rev. rewrite rev_involutive.
  apply lstrip_keeps_colon. apply -> in_rev. now apply lstrip_keeps_colon.
Qed.

Lemma partition_colon_spec s :
  In colon s ->
  exists a b, partition_colon s = Some (a, b)
              /\ s = a ++ colon :: b /\ ~ In colon a.
Proof.
  induction s as [|c s IH]; intros H; [destruct H|].
  cbn [partition_colon]. destruct (c =? colon) eqn:E.
  - apply N.eqb_eq in E. subst c. exists [], s. repeat split. intros [].
  - apply N.eqb_neq in E. destruct H as [H|H]; [congruence|].
    destruct (IH H) as (a & b & -> & Hs & Ha).
    exists (c :: a), b. repeat split; [cbn; congruence|].
    intros [H'|H']; [congruence | auto].
Qed.

Lemma lstrip_fixed_app u rest :
  lstrip u = u -> u <> [] -> lstrip (u ++ rest) = u ++ rest.
Proof.
  destruct u as [|c u]; [congruence|]. intros H _. cbn [lstrip app] in *.
  destruct (isspace c) eqn:E; [|reflexivity].
  exfalso. destruct (lstrip_suffix u) as (pre & Hu & _).
  assert (L : length (lstrip u) = length (c :: u)) by now rewrite H.
  rewrite Hu in L at 2. cbn [length] in L. rewrite length_app in L. lia.
Qed.

Lemma rstrip_space s c : isspace c = true -> rstrip (s ++ [c]) = rstrip s.
Proof.
  intros H. unfold rstrip. rewrite rev_app_distr. cbn [rev app lstrip].
  now rewrite H.
Qed.

Lemma rstrip_no_space s c : isspace c = false -> rstrip (s ++ [c]) = s ++ [c].
Proof.
  intros H. unfold rstrip. rewrite rev_app_distr. cbn [rev app lstrip].
  rewrite H. change (c :: rev s) with ([c] ++ rev s).
  rewrite <- (rev_involutive s) at 2.
  rewrite rev_app_distr. cbn [rev app]. now rewrite !rev_involutive.
Qed.

Lemma rstrip_fixed_app pre p :
  rstrip p = p -> p <> [] -> rstrip (pre ++ p) = pre ++ p.
Proof.
  intros H Hne. unfold rstrip in *. rewrite rev_app_distr.
  assert (Hfix : lstrip (rev p) = rev p).
  { rewrite <- (rev_involutive (lstrip (rev p))), H. reflexivity. }
  assert (Hne' : rev p <> []).
  { intros E. apply Hne. rewrite <- (rev_involutive p), E. reflexivity. }
  rewrite (lstrip_fixed_app _ _ Hfix Hne'). rewrite <- rev_app_distr.
  apply rev_involutive.
Qed.

(** X14. Every line that holds a colon gives one pair of arguments, in the
    order of the lines, and a line without a colon gives none; the
    unpacking of the pairs does not fail.  The first argument is the text
    before the first colon of the stripped line, and the pair joined by a
    colon is the stripped line. *)
Theorem credentials_are_pairs (lines : list str) :
  exists pairs,
    submitted (credentials_of_lines lines) = Ok pairs
    /\ map (fun up => credentials (fst up) (snd up)) pairs
       = map strip (filter (fun l => str_in (lit ":") l) lines)
    /\ Forall (fun up => ~ In colon (fst up)) pairs.
Proof.
  unfold credentials_of_lines.
  induction lines as [|l lines (pairs & Hs & Hm & Hf)].
  - exists []. repeat split. constructor.
  - cbn [filter]. destruct (str_in (lit ":") l) eqn:E; [|eauto].
    apply str_in_colon in E. apply strip_keeps_colon in E.
    destruct (partition_colon_spec _ E) as (a & b & Hp & Hl & Ha).
    exists ((a, b) :: pairs). cbn [map submitted].
    unfold split_colon at 1. rewrite Hp. cbn [unpack_pair bind].
    rewrite Hs. cbn [bind fst snd]. repeat split.
    + rewrite Hm. f_equal. now rewrite Hl.
    + now constructor.
Qed.

(** X15. A line made of a username without a colon and without leading
    white space, a colon, a password without trailing white space and the
    end of line is read back as that username and that password; the
    password may hold colons. *)
Theorem credentials_line_roundtrip (u p : str) :
  ~ In colon u -> lstrip u = u -> rstrip p = p ->
  submitted (credentials_of_lines [u ++ lit ":" ++ p ++ nl]) = Ok [(u, p)].
Proof.
  intros Hu Hl Hr.
  assert (Hs : strip (u ++ lit ":" ++ p ++ nl) = u ++ colon :: p).
  { unfold strip.
    assert (E1 : lstrip (u ++ lit ":" ++ p ++ nl) = u ++ lit ":" ++ p ++ nl).
    { destruct u as [|c u]; [reflexivity|]. now apply lstrip_fixed_app. }
    rewrite E1.
    replace (u ++ lit ":" ++ p ++ nl) with ((u ++ colon :: p) ++ [10])
      by (now rewrite <- app_assoc).
    rewrite rstrip_space by reflexivity.
    destruct p as [|c p].
    - apply rstrip_no_space. reflexivity.
    - change (u ++ colon :: c :: p) with (u ++ [colon] ++ c :: p).
      rewrite app_assoc. apply rstrip_fixed_app; [exact Hr | discriminate]. }
  unfold credentials_of_lines. cbn [filter].
  assert (Hin : str_in (lit ":") (u ++ lit ":" ++ p ++ nl) = true).
  { apply str_in_colon. apply in_or_app. right. left. reflexivity. }
  rewrite Hin. cbn [map]. rewrite Hs.
  assert (Hp : partition_colon (u ++ colon :: p) = Some (u, p)).
  { clear -Hu. induction u as [|c u IH]; cbn [app partition_colon].
    - reflexivity.
    - destruct (c =? colon) eqn:E.
      + apply N.eqb_eq in E. exfalso. apply Hu. now left.
      + rewrite IH; [reflexivity|]. intros H. apply Hu. now right. }
  unfold split_colon. rewrite Hp. reflexivity.
Qed.

Lemma credentials_line_roundtrip_witness :
  submitted (credentials_of_lines
               [lit "a@b.com" ++ lit ":" ++ lit "pa:ss word" ++ nl])
  = Ok [(lit "a@b.com", lit "pa:ss word")].
Proof.
  apply (credentials_line_roundtrip (lit "a@b.com") (lit "pa:ss word")).
  - vm_compute. intuition discriminate.
  - reflexivity.
  - reflexivity.
Defined.

(** ** Further properties: the request driver *)

Section DriverExtras.
Context {zlib : ZlibLib} {jsonlib : JsonLib} {env : Env}.

Lemma is_hit_of_dict j h : is_hit_of j = Ok h -> exists body, j = JDict body.
Proof. destruct j; try discriminate. eauto. Qed.

Lemma classify_inv username password response h c j :
  classify username password response = Ok (h, c, j) ->
  exists response_json,
    raise_for_status response = Ok tt
    /\ Response_json response = Ok response_json
    /\ is_hit_of response_json = Ok h
    /\ c = credentials username password
    /\ j = returned_json response_json.
Proof.
  unfold classify. intros H.
  apply bind_ok in H. destruct H as ([] & H0 & H).
  apply bind_ok in H. destruct H as (j' & H1 & H).
  apply bind_ok in H. destruct H as (h' & H2 & H).
  injection H as -> -> <-. exists j'. auto.
Qed.

Lemma raise_for_status_error response :
  (400 <= status_code response < 600)%Z ->
  exists e, raise_for_status response = Raise e /\ exn_kind e = HTTPError.
Proof.
  intros H. unfold raise_for_status.
  replace (400 <=? status_code response)%Z with true
    by (symmetry; apply Z.leb_le; lia).
  replace (status_code response <? 600)%Z with true
    by (symmetry; apply Z.ltb_lt; lia).
  eexists. split; reflexivity.
Qed.

(** What the driver does once the three strings are there. *)
Lemma perform_request_run username password url w ed ek ei w2 :
  encrypt_request username password w = (Ok (ed, ek, ei), w2) ->
  error_in ed ek ei = false ->
  perform_request username password url w =
  match requests_post url (request_body ed ek ei) headers w2 with
  | (Ok response, w3) =>
      (Ok match classify username password response with
          | Ok o => o
          | Raise e => failure_outcome username password e
          end, w3)
  | (Raise e, w3) => (Ok (failure_outcome username password e), w3)
  end.
Proof.
  intros Hr He. unfold perform_request, io_try_except.
  rewrite (perform_request_body_run _ _ _ _ _ _ _ _ Hr), He.
  unfold send_and_classify, io_bind, io_lift, io_ret.
  destruct (requests_post _ _ _ _) as [[r|e] w3]; [|reflexivity].
  destruct (classify username password r); reflexivity.
Qed.

(** A result of the body of the driver holds the credentials and an
    object. *)
Lemma body_result_is_object username password url w o w' :
  perform_request_body username password url w = (Ok o, w') ->
  exists hit body, o = (hit, credentials username password, JDict body).
Proof.
  intros Hb.
  destruct (encrypt_request_total username password w)
    as (ed & ek & ei & w2 & Hr).
  rewrite (perform_request_body_run _ _ _ _ _ _ _ _ Hr) in Hb.
  destruct (error_in ed ek ei); [discriminate|].
  unfold send_and_classify, io_bind, io_lift in Hb.
  destruct (requests_post _ _ _ _) as [[r|e] w3]; [|discriminate].
  destruct o as [[h c] j]. injection Hb as Hc _.
  apply classify_inv in Hc. destruct Hc as (rj & _ & _ & Hh & -> & ->).
  apply is_hit_of_dict in Hh. destruct Hh as (body & ->).
  destruct (returned_json_is_dict body) as (body' & ->). eauto.
Qed.

(** X8. The driver never raises.  It returns the credentials joined by a
    colon and an object: when its body raises, the verdict is false and
    the object has the one field [error] with the message. *)
Theorem perform_request_outcome (username password url : str) (w : World) :
  exists hit d w',
    perform_request username password url w
    = (Ok (hit, credentials username password, JDict d), w')
    /\ forall e w1,
         perform_request_body username password url w = (Raise e, w1) ->
         hit = false /\ d = [(lit "error", JStr (exn_msg e))] /\ w' = w1.
Proof.
  unfold perform_request, io_try_except, io_ret.
  destruct (perform_request_body username password url w) as [[o|e] w'] eqn:Hb.
  - destruct (body_result_is_object _ _ _ _ _ _ Hb) as (h & body & ->).
    exists h, body, w'. split; [reflexivity | discriminate].
  - exists false, [(lit "error", JStr (exn_msg e))], w'.
    split; [reflexivity|]. now intros e' w1 [= <- <-].
Qed.

(** X9. A hit is never reported without a token: when the verdict is
    true, the request was sent, the answer had no error status and
    parsed to the object that is returned, and its [data] field decodes
    to a record with a truthy [token]. *)
Theorem hit_needs_a_token (username password url c : str) (j : json)
    (w w' : World) :
  perform_request username password url w = (Ok (true, c, j), w') ->
  exists ed ek ei w2 response body d r,
    encrypt_request username password w = (Ok (ed, ek, ei), w2)
    /\ error_in ed ek ei = false
    /\ requests_post url (request_body ed ek ei) headers w2 = (Ok response, w')
    /\ raise_for_status response = Ok tt
    /\ Response_json response = Ok (JDict body)
    /\ j = JDict body
    /\ dict_get (lit "data") body = Some d
    /\ decrypt_and_decompress_payload d fixed_key fixed_iv = Ok r
    /\ has_token r.
Proof.
  intros H.
  destruct (encrypt_request_total username password w)
    as (ed & ek & ei & w2 & Hr).
  destruct (error_in ed ek ei) eqn:He.
  { unfold perform_request, io_try_except in H.
    rewrite (perform_request_body_run _ _ _ _ _ _ _ _ Hr), He in H.
    discriminate H. }
  rewrite (perform_request_run _ _ _ _ _ _ _ _ Hr He) in H.
  destruct (requests_post _ _ _ _) as [[r|e] w3] eqn:Hp; [|discriminate H].
  destruct (classify username password r) as [o|e] eqn:Hc; [|discriminate H].
  injection H as -> ->.
  apply classify_inv in Hc. destruct Hc as (rj & Hs & Hj & Hh & _ & ->).
  destruct (is_hit_of_dict _ _ Hh) as (body & ->).
  destruct (is_hit_of_spec body) as (hit & Hh' & Hiff).
  rewrite Hh in Hh'. injection Hh' as <-.
  destruct (proj1 Hiff eq_refl) as (d & rr & Hd & Hdec & Htok).
  destruct (token_needs_str _ _ Hdec Htok) as (s & ->).
  exists ed, ek, ei, w2, r, body, (JStr s), rr.
  repeat split; try assumption.
  apply returned_json_unchanged. intros l Hl. rewrite Hd in Hl. discriminate.
Qed.

(** X10. When the transport raises, the attempt is no hit: the driver
    returns the credentials and the object whose one field [error] is
    the message of the exception. *)
Theorem transport_failure_is_a_miss (username password url ed ek ei : str)
    (w w2 w3 : World) (e : exn) :
  encrypt_request username password w = (Ok (ed, ek, ei), w2) ->
  error_in ed ek ei = false ->
  requests_post url (request_body ed ek ei) headers w2 = (Raise e, w3) ->
  perform_request username password url w
  = (Ok (false, credentials username password,
         JDict [(lit "error", JStr (exn_msg e))]), w3).
Proof.
  intros Hr He Hp. rewrite (perform_request_run _ _ _ _ _ _ _ _ Hr He), Hp.
  reflexivity.
Qed.

(** X11. An answer with a status from 400 to 599 is no hit, whatever its
    body: the driver returns the error object of an HTTP error. *)
Theorem error_status_is_a_miss (username password url ed ek ei : str)
    (w w2 w3 : World) (response : Response) :
  encrypt_request username password w = (Ok (ed, ek, ei), w2) ->
  error_in ed ek ei = false ->
  requests_post url (request_body ed ek ei) headers w2 = (Ok response, w3) ->
  (400 <= status_code response < 600)%Z ->
  exists e,
    exn_kind e = HTTPError
    /\ perform_request username password url w
       = (Ok (false, credentials username password,
              JDict [(lit "error", JStr (exn_msg e))]), w3).
Proof.
  intros Hr He Hp Hs. rewrite (perform_request_run _ _ _ _ _ _ _ _ Hr He), Hp.
  destruct (raise_for_status_error response Hs) as (e & Hraise & Hk).
  exists e. split; [exact Hk|]. unfold classify. rewrite Hraise. reflexivity.
Qed.

(** X12. An answer whose body is JSON but no object (a list, a string, a
    number, [null]) is no hit: reading its [data] field raises an
    attribute error, and the driver returns the error object. *)
Theorem non_object_body_is_a_miss (username password url ed ek ei : str)
    (w w2 w3 : World) (response : Response) (v : json) :
  encrypt_request username password w = (Ok (ed, ek, ei), w2) ->
  error_in ed ek ei = false ->
  requests_post url (request_body ed ek ei) headers w2 = (Ok response, w3) ->
  raise_for_status response = Ok tt ->
  Response_json response = Ok v ->
  is_dict v = false ->
  exists e,
    exn_kind e = AttributeError
    /\ perform_request username password url w
       = (Ok (false, credentials username password,
              JDict [(lit "error", JStr (exn_msg e))]), w3).
Proof.
  intros Hr He Hp Hs Hj Hd. rewrite (perform_request_run _ _ _ _ _ _ _ _ Hr He), Hp.
  unfold classify. rewrite Hs, Hj. cbn [bind].
  exists (Exn AttributeError (lit "object has no attribute 'get'")).
  split; [reflexivity|].
  destruct v; try discriminate Hd; reflexivity.
Qed.

End DriverExtras.


(** ** Further properties: the envelope *)

Lemma b64text_size b : length (b64text b) = (4 * ((length b + 2) / 3))%nat.
Proof.
  unfold b64text, Base64.b64encode. rewrite length_map.
  induction b as [|b0|b0 b1|b0 b1 b2 r IH] using Base64Facts.list_ind3;
    try reflexivity.
  cbn [Base64.b2a_base64 length]. rewrite IH.
  replace (S (S (S (length r))) + 2)%nat with (length r + 2 + 1 * 3)%nat by lia.
  rewrite Nat.div_add by lia. lia.
Qed.

Lemma encrypt_length key iv c data enc :
  AES.new key AES.MODE_CBC iv = Ok c -> AES.encrypt c data = Ok enc ->
  length enc = length data.
Proof.
  intros Hn He. apply AESFacts.new_inv in Hn. destruct Hn as (Hk & Hi & ->).
  unfold AES.encrypt in He. cbn [AES.cipher_round_keys AES.cipher_iv] in He.
  destruct (length data mod 16 =? 0)%nat eqn:Em; cbn [negb] in He; [|discriminate].
  injection He as <-. apply Nat.eqb_eq in Em.
  rewrite AESFacts.cbc_encrypt_length;
    [now apply AESFacts.blocks_count | now apply AESFacts.key_expansion_wf
     | apply AESFacts.blocks_wf | exact Hi].
Qed.

Lemma padded_size c :
  length (c ++ repeat (byte_of_N (pad_len_of c)) (N.to_nat (pad_len_of c)))
  = (16 * (length c / 16 + 1))%nat.
Proof.
  rewrite length_app, repeat_length. unfold pad_len_of, AES.block_size.
  rewrite N2Nat.inj_sub, N2Nat.inj_mod, Nat2N.id.
  change (N.to_nat 16) with 16%nat.
  pose proof (Nat.mod_upper_bound (length c) 16 ltac:(lia)).
  pose proof (Nat.div_mod_eq (length c) 16). lia.
Qed.

Section EnvelopeExtras.
Context {zlib : ZlibLib} {jsonlib : JsonLib}.

(** X1. The shape of an envelope: when the encoder succeeds on data that
    compress to [n] bytes, its output is the base64 text of a ciphertext
    of [16 * (n / 16 + 1)] bytes; the text is made of base64 characters
    only, its length is four characters for every three bytes, rounded
    up, and decoding it as base64 gives the ciphertext back. *)
Theorem envelope_shape (data_dict : json) (key_string iv_string envelope : str)
    (compressed_bytes : bytes) :
  compressed_bytes_of data_dict = Ok compressed_bytes ->
  encrypt_aes_payload_body data_dict key_string iv_string = Ok envelope ->
  exists encrypted_bytes,
    envelope = b64text encrypted_bytes
    /\ length encrypted_bytes = (16 * (length compressed_bytes / 16 + 1))%nat
    /\ length envelope = (4 * ((length encrypted_bytes + 2) / 3))%nat
    /\ Forall (fun c => is_b64_char c = true) envelope
    /\ Base64.b64decode envelope = Ok encrypted_bytes.
Proof.
  intros Hc He. rewrite encrypt_body_stages, Hc in He. cbn [bind] in He.
  rewrite padded_bytes_of_eq in He. cbn [bind] in He.
  apply encrypt_and_encode_inv in He. destruct He as (c & enc & Hk & Henc & ->).
  destruct (cipher_of_inv _ _ _ Hk) as (kb & ivb & _ & _ & Hn).
  exists enc. split; [reflexivity|]. split.
  - rewrite (encrypt_length _ _ _ _ _ Hn Henc). apply padded_size.
  - split; [apply b64text_size|].
    split; [apply b64text_chars | apply b64decode_b64text].
Qed.

(** X2. A key whose UTF-8 encoding is not 16, 24 or 32 bytes long, or an
    IV whose encoding is not 16 bytes long, is rejected by both
    functions: the encoder returns the error string with the message of
    the cipher library, and the decoder returns the error record with
    that message for every text that decodes as base64. *)
Theorem bad_key_is_reported (data_dict : json) (key_string iv_string : str)
    (compressed_bytes key_bytes iv_bytes : bytes) :
  compressed_bytes_of data_dict = Ok compressed_bytes ->
  utf8_encode key_string = Ok key_bytes ->
  utf8_encode iv_string = Ok iv_bytes ->
  AES.valid_key_length (length key_bytes) = false \/ length iv_bytes <> 16%nat ->
  exists e,
    exn_kind e = ValueError
    /\ encrypt_aes_payload data_dict key_string iv_string
       = Ok (lit "AES Encryption Error: " ++ exn_msg e)
    /\ forall s encrypted_bytes,
         Base64.b64decode (restore_padding s) = Ok encrypted_bytes ->
         decrypt_and_decompress_payload (JStr s) key_string iv_string
         = Ok (JDict [(lit "error",
                       JStr (lit "Decryption Failed: " ++ exn_msg e))]).
Proof.
  intros Hc Hk Hi Hbad.
  assert (exists e, exn_kind e = ValueError
                    /\ cipher_of key_string iv_string = Raise e) as (e & Hkind & He).
  { unfold cipher_of. rewrite Hk, Hi. cbn [bind]. unfold AES.new.
    destruct (AES.valid_key_length (length key_bytes)) eqn:Ev; cbn [negb].
    - destruct Hbad as [Hbad|Hbad]; [discriminate|].
      apply Nat.eqb_neq in Hbad. rewrite Hbad. cbn [negb].
      eexists. split; [|reflexivity]. reflexivity.
    - eexists. split; [|reflexivity]. reflexivity. }
  exists e. split; [exact Hkind|]. split.
  - unfold encrypt_aes_payload. rewrite encrypt_body_stages, Hc. cbn [bind].
    rewrite padded_bytes_of_eq. cbn [bind]. unfold encrypt_and_encode.
    rewrite He. reflexivity.
  - intros s eb Hb. apply decrypt_of_raise. rewrite decrypt_body_stages.
    unfold padded_plaintext_of. rewrite Hb. cbn [bind]. rewrite He. reflexivity.
Qed.

(** X3. Whatever stage of the encoder raises, the encoder returns the
    string [AES Encryption Error: ] followed by the message.  The string
    holds the marker [Error] and a space: it is no base64 text, so no
    envelope is ever equal to it. *)
Theorem encoder_error_string (data_dict : json) (key_string iv_string : str)
    (e : exn) :
  encrypt_aes_payload_body data_dict key_string iv_string = Raise e ->
  encrypt_aes_payload data_dict key_string iv_string
  = Ok (lit "AES Encryption Error: " ++ exn_msg e)
  /\ str_in (lit "Error") (lit "AES Encryption Error: " ++ exn_msg e) = true
  /\ forall data_dict' key_string' iv_string' envelope,
       encrypt_aes_payload_body data_dict' key_string' iv_string' = Ok envelope ->
       envelope <> lit "AES Encryption Error: " ++ exn_msg e.
Proof.
  intros H.
  destruct (encoder_failure_is_tagged _ _ _ _ H) as (H1 & H2 & H3).
  split; [exact H1|]. split; [exact H2|].
  intros d' k' i' envelope Hok Heq.
  destruct (encoder_success_is_base64 _ _ _ _ Hok) as (b & Hb).
  apply (H3 b). congruence.
Qed.

(** X4. A text that decodes as base64 to no byte at all, the empty text
    among them, is rejected: reading the last byte of the empty plaintext
    raises an index error, and the decoder returns the error record. *)
Theorem empty_data_is_rejected (s key_string iv_string : str) (c : AES.cipher) :
  cipher_of key_string iv_string = Ok c ->
  Base64.b64decode (restore_padding s) = Ok [] ->
  decrypt_and_decompress_payload (JStr s) key_string iv_string
  = Ok (JDict [(lit "error",
                JStr (lit "Decryption Failed: index out of range"))]).
Proof.
  intros Hc Hb.
  apply (decrypt_of_raise _ _ _ (Exn IndexError (lit "index out of range"))).
  rewrite decrypt_body_stages.
  unfold padded_plaintext_of. rewrite Hb. cbn [bind]. rewrite Hc. reflexivity.
Qed.

(** X5. A ciphertext whose length is no multiple of 16 bytes is rejected
    by the cipher, and the decoder returns the error record with the
    message of the cipher. *)
Theorem unaligned_ciphertext_is_rejected (s key_string iv_string : str)
    (c : AES.cipher) (encrypted_bytes : bytes) :
  cipher_of key_string iv_string = Ok c ->
  Base64.b64decode (restore_padding s) = Ok encrypted_bytes ->
  (length encrypted_bytes mod 16 <> 0)%nat ->
  decrypt_and_decompress_payload (JStr s) key_string iv_string
  = Ok (JDict [(lit "error",
                JStr (lit "Decryption Failed: Data must be padded to 16 byte boundary in CBC mode"))]).
Proof.
  intros Hc Hb Hl. apply (decrypt_of_raise _ _ _ AES.not_padded).
  rewrite decrypt_body_stages.
  unfold padded_plaintext_of. rewrite Hb. cbn [bind]. rewrite Hc. cbn [bind].
  unfold AES.decrypt. apply Nat.eqb_neq in Hl. rewrite Hl. reflexivity.
Qed.

End EnvelopeExtras.


(** ** Further properties: the RSA strings *)

Section RsaExtras.
Context {zlib : ZlibLib} {jsonlib : JsonLib} {env : Env}.

Lemma encrypt_rsa_of_raise s w e w1 :
  encrypt_rsa_body s w = (Raise e, w1) ->
  encrypt_rsa s w = (Ok (lit "RSA Encryption Error: " ++ exn_msg e), w1).
Proof. unfold encrypt_rsa, io_try_except, io_ret. now intros ->. Qed.

(** X6. When the import of the public key or the encryption of the key
    string raises, [encrypt_rsa] returns the string
    [RSA Encryption Error: ] followed by the message; the driver still
    encrypts the IV string, finds the marker, and ends the attempt with
    the outcome of a failed encryption in the world that the second
    encryption left: nothing is sent. *)
Theorem rsa_failure_aborts (username password url : str) (w w1 : World)
    (e : exn) :
  encrypt_rsa_body fixed_key w = (Raise e, w1) ->
  encrypt_rsa fixed_key w
  = (Ok (lit "RSA Encryption Error: " ++ exn_msg e), w1)
  /\ exists encrypted_iv_rsa w2,
       encrypt_rsa fixed_iv w1 = (Ok encrypted_iv_rsa, w2)
       /\ perform_request username password url w
          = (Ok (false, credentials username password,
                 JDict [(lit "error",
                         JStr (lit "Encryption failed during payload creation."))]),
             w2).
Proof.
  intros H. pose proof (encrypt_rsa_of_raise _ _ _ _ H) as Hk.
  split; [exact Hk|].
  destruct (encrypt_rsa_total fixed_iv w1) as (ei & w2 & Hi).
  exists ei, w2. split; [exact Hi|].
  destruct (encrypt_aes_payload_total (plaintext_data username password)
              fixed_key fixed_iv) as (ed & Hd).
  assert (Hr : encrypt_request username password w
               = (Ok (ed, lit "RSA Encryption Error: " ++ exn_msg e, ei), w2)).
  { unfold encrypt_request, io_bind, io_lift, io_ret. now rewrite Hd, Hk, Hi. }
  apply (perform_request_of_raise _ _ _ _ encryption_failed).
  rewrite (perform_request_body_run _ _ _ _ _ _ _ _ Hr).
  unfold error_in.
  rewrite (str_in_app (lit "Error") (lit "RSA Encryption Error: ") (exn_msg e))
    by reflexivity.
  now rewrite orb_true_r.
Qed.

(** X7. When the key is imported and the encryption succeeds,
    [encrypt_rsa] returns the base64 text of the ciphertext: four
    characters for every three bytes, rounded up, from which base64
    decoding recovers the ciphertext. *)
Theorem encrypt_rsa_base64 (data_string : str) (w w' : World) (rsa_key : RsaKey)
    (data_bytes encrypted_data : bytes) :
  RSA_import_key RSA_PUBLIC_KEY_PEM = Ok rsa_key ->
  utf8_encode data_string = Ok data_bytes ->
  PKCS1_v1_5_encrypt rsa_key data_bytes w = (Ok encrypted_data, w') ->
  encrypt_rsa data_string w = (Ok (b64text encrypted_data), w')
  /\ length (b64text encrypted_data)
     = (4 * ((length encrypted_data + 2) / 3))%nat
  /\ Base64.b64decode (b64text encrypted_data) = Ok encrypted_data.
Proof.
  intros Hk Hd He. split; [|split].
  - unfold encrypt_rsa, encrypt_rsa_body, io_try_except, io_bind, io_lift.
    rewrite Hk, Hd, He, b64text_decode. reflexivity.
  - apply b64text_size.
  - apply b64decode_b64text.
Qed.

End RsaExtras.

(** ** Further properties: what a run leaves in the reference world *)

Section ReferenceWorld.
Context {zlib : ZlibLib} {jsonlib : JsonLib}.

Lemma ref_encrypt_rsa s raw (w : Ref.world) :
  utf8_encode s = Ok raw -> (length raw <= 117)%nat ->
  exists c,
    @encrypt_rsa Ref.env s w
    = (Ok (b64text c),
       {| Ref.ciphertexts := tl (Ref.ciphertexts w);
          Ref.server := Ref.server w; Ref.sent := Ref.sent w |}).
Proof.
  intros Hs Hl.
  unfold encrypt_rsa, encrypt_rsa_body, io_try_except, io_bind, io_lift.
  cbn [RSA_import_key PKCS1_v1_5_encrypt Ref.env].
  change (Ref.import_key RSA_PUBLIC_KEY_PEM) with (@Ok unit tt).
  rewrite Hs. unfold Ref.pkcs1_encrypt.
  replace (128 - 11 <? length raw)%nat with false
    by (symmetry; apply Nat.ltb_ge; lia).
  rewrite b64text_decode. eauto.
Qed.

(** X13. In the reference world, which keeps the requests that were
    posted: one attempt makes the two RSA encryptions, whether it sends
    or not, and posts at most once.  What it posts goes to the given URL
    and is the object of the four fields [data], [req_code], [key] and
    [iv], where [data] is the output of the encoder and none of the three
    strings holds the marker. *)
Theorem one_post_per_attempt (username password url : str) (w : Ref.world) :
  exists o w',
    @perform_request zlib jsonlib Ref.env username password url w = (Ok o, w')
    /\ Ref.ciphertexts w' = tl (tl (Ref.ciphertexts w))
    /\ Ref.server w' = Ref.server w
    /\ (Ref.sent w' = Ref.sent w
        \/ exists ed ek ei,
             encrypt_aes_payload (plaintext_data username password)
               fixed_key fixed_iv = Ok ed
             /\ error_in ed ek ei = false
             /\ Ref.sent w' = Ref.sent w ++ [(url, request_body ed ek ei)]).
Proof.
  destruct (encrypt_aes_payload_total (plaintext_data username password)
              fixed_key fixed_iv) as (ed & Hd).
  destruct (ref_encrypt_rsa fixed_key _ w eq_refl) as (ck & Hk);
    [vm_compute; lia|].
  set (w1 := {| Ref.ciphertexts := tl (Ref.ciphertexts w);
                Ref.server := Ref.server w; Ref.sent := Ref.sent w |}) in *.
  destruct (ref_encrypt_rsa fixed_iv _ w1 eq_refl) as (ci & Hi);
    [vm_compute; lia|].
  set (w2 := {| Ref.ciphertexts := tl (Ref.ciphertexts w1);
                Ref.server := Ref.server w1; Ref.sent := Ref.sent w1 |}) in *.
  assert (Hr : @encrypt_request zlib jsonlib Ref.env username password w
               = (Ok (ed, b64text ck, b64text ci), w2)).
  { unfold encrypt_request, io_bind, io_lift, io_ret. now rewrite Hd, Hk, Hi. }
  destruct (error_in ed (b64text ck) (b64text ci)) eqn:He.
  - exists (failure_outcome username password encryption_failed), w2.
    split; [|auto].
    apply perform_request_of_raise.
    now rewrite (perform_request_body_run _ _ _ _ _ _ _ _ Hr), He.
  - rewrite (perform_request_run _ _ _ _ _ _ _ _ Hr He).
    cbn [requests_post Ref.env]. unfold Ref.post.
    destruct (Ref.server w2 url _) as [r|e]; eexists _, _;
      (split; [reflexivity|]); cbn [Ref.ciphertexts Ref.server Ref.sent];
      (split; [reflexivity|]); (split; [reflexivity|]);
      right; exists ed, (b64text ck), (b64text ci); auto.
Qed.

End ReferenceWorld.


(** ** Further properties: the tallying loop *)








Section BatchExtras.
Context {zlib : ZlibLib} {jsonlib : JsonLib} {env : Env}.




(** X18. The message of a failed attempt is not printed: when the body of
    the driver raises (a failed encryption, a transport error, an error
    status, a body that is no JSON object), the object that the driver
    returns has no [msg] field, so the loop counts a fail and prints the
    credentials with the default [Unknown error]. *)
Theorem failure_message_is_not_printed (username password url : str)
    (w w' : World) (e : exn) (s : tally) :
  perform_request_body username password url w = (Raise e, w') ->
  count_result (fst (perform_request username password url w)) s
  = ({| checked := S (checked s); hits := hits s; fails := S (fails s);
        creds := Some (credentials username password);
        printed := printed s
                   ++ [Fail (credentials username password)
                            (JStr (lit "Unknown error"))] |},
     None).
Proof.
  intros H. rewrite (perform_request_of_raise _ _ _ _ _ _ H).
  reflexivity.
Qed.

End BatchExtras.


(** ** The further properties on the scenarios *)

Lemma envelope_shape_witness :
  exists encrypted_bytes,
    Scenario.example_envelope = b64text encrypted_bytes
    /\ length encrypted_bytes = (16 * (151 / 16 + 1))%nat
    /\ length Scenario.example_envelope
       = (4 * ((length encrypted_bytes + 2) / 3))%nat
    /\ Forall (fun c => is_b64_char c = true) Scenario.example_envelope
    /\ Base64.b64decode Scenario.example_envelope = Ok encrypted_bytes.
Proof.
  apply (@envelope_shape Ref.zlib Ref.jsonlib (json_of_record example_record)
           fixed_key fixed_iv Scenario.example_envelope
           (match @compressed_bytes_of Ref.zlib Ref.jsonlib
                    (json_of_record example_record) with
            | Ok c => c
            | Raise _ => []
            end)).
  - vm_compute. reflexivity.
  - vm_compute. reflexivity.
Defined.

(** A key string of 16 characters, the first of which takes two bytes. *)
Lemma bad_key_is_reported_witness :
  exists e,
    exn_kind e = ValueError
    /\ @encrypt_aes_payload Ref.zlib Ref.jsonlib (json_of_record example_record)
         (233 :: lit "fc0d8be37e5ca83") fixed_iv
       = Ok (lit "AES Encryption Error: " ++ exn_msg e)
    /\ forall s encrypted_bytes,
         Base64.b64decode (restore_padding s) = Ok encrypted_bytes ->
         @decrypt_and_decompress_payload Ref.zlib Ref.jsonlib (JStr s)
           (233 :: lit "fc0d8be37e5ca83") fixed_iv
         = Ok (JDict [(lit "error",
                       JStr (lit "Decryption Failed: " ++ exn_msg e))]).
Proof.
  eapply (@bad_key_is_reported Ref.zlib Ref.jsonlib
            (json_of_record example_record)
            (233 :: lit "fc0d8be37e5ca83") fixed_iv).
  - vm_compute. reflexivity.
  - vm_compute. reflexivity.
  - vm_compute. reflexivity.
  - left. vm_compute. reflexivity.
Defined.

Lemma encoder_error_string_witness :
  @encrypt_aes_payload Ref.zlib Ref.jsonlib (json_of_record example_record)
    (firstn 20 fixed_key) fixed_iv
  = Ok (lit "AES Encryption Error: "
        ++ exn_msg (Exn ValueError (lit "Incorrect AES key length")))
  /\ str_in (lit "Error")
       (lit "AES Encryption Error: "
        ++ exn_msg (Exn ValueError (lit "Incorrect AES key length"))) = true
  /\ forall data_dict' key_string' iv_string' envelope,
       @encrypt_aes_payload_body Ref.zlib Ref.jsonlib
         data_dict' key_string' iv_string' = Ok envelope ->
       envelope <> lit "AES Encryption Error: "
                   ++ exn_msg (Exn ValueError (lit "Incorrect AES key length")).
Proof.
  apply (@encoder_error_string Ref.zlib Ref.jsonlib
           (json_of_record example_record) (firstn 20 fixed_key) fixed_iv).
  vm_compute. reflexivity.
Defined.

Lemma empty_data_is_rejected_witness :
  @decrypt_and_decompress_payload Ref.zlib Ref.jsonlib (JStr [])
    fixed_key fixed_iv
  = Ok (JDict [(lit "error",
                JStr (lit "Decryption Failed: index out of range"))]).
Proof.
  eapply (@empty_data_is_rejected Ref.zlib Ref.jsonlib [] fixed_key fixed_iv).
  - vm_compute. reflexivity.
  - vm_compute. reflexivity.
Defined.

Lemma unaligned_ciphertext_is_rejected_witness :
  @decrypt_and_decompress_payload Ref.zlib Ref.jsonlib (JStr (lit "AAAA"))
    fixed_key fixed_iv
  = Ok (JDict [(lit "error",
                JStr (lit "Decryption Failed: Data must be padded to 16 byte boundary in CBC mode"))]).
Proof.
  eapply (@unaligned_ciphertext_is_rejected Ref.zlib Ref.jsonlib (lit "AAAA")
            fixed_key fixed_iv _ [x00; x00; x00]).
  - vm_compute. reflexivity.
  - vm_compute. reflexivity.
  - vm_compute. discriminate.
Defined.

Lemma rsa_failure_aborts_witness :
  @encrypt_rsa Faulty.keyless fixed_key (Scenario.answering 200 [])
  = (Ok (lit "RSA Encryption Error: "
         ++ exn_msg (Exn ValueError (lit "RSA key format is not supported"))),
     Scenario.answering 200 [])
  /\ exists encrypted_iv_rsa w2,
       @encrypt_rsa Faulty.keyless fixed_iv (Scenario.answering 200 [])
       = (Ok encrypted_iv_rsa, w2)
       /\ @perform_request Ref.zlib Ref.jsonlib Faulty.keyless
            (lit "a@b.com") (lit "x") Scenario.url (Scenario.answering 200 [])
          = (Ok (false, credentials (lit "a@b.com") (lit "x"),
                 JDict [(lit "error",
                         JStr (lit "Encryption failed during payload creation."))]),
             w2).
Proof.
  apply (@rsa_failure_aborts Ref.zlib Ref.jsonlib Faulty.keyless
           (lit "a@b.com") (lit "x") Scenario.url).
  vm_compute. reflexivity.
Defined.

Lemma encrypt_rsa_base64_witness :
  @encrypt_rsa Ref.env fixed_key (Scenario.answering 200 [])
  = (Ok (b64text Scenario.key_ciphertext),
     {| Ref.ciphertexts := [Scenario.iv_ciphertext];
        Ref.server := Ref.server (Scenario.answering 200 []);
        Ref.sent := [] |})
  /\ length (b64text Scenario.key_ciphertext)
     = (4 * ((length Scenario.key_ciphertext + 2) / 3))%nat
  /\ Base64.b64decode (b64text Scenario.key_ciphertext)
     = Ok Scenario.key_ciphertext.
Proof.
  eapply (@encrypt_rsa_base64 Ref.env fixed_key (Scenario.answering 200 [])).
  - vm_compute. reflexivity.
  - vm_compute. reflexivity.
  - vm_compute. reflexivity.
Defined.

Lemma hit_needs_a_token_witness :
  exists ed ek ei w2 response body d r,
    @encrypt_request Ref.zlib Ref.jsonlib Ref.env (lit "a@b.com") (lit "x")
      (Scenario.answering 200 (Scenario.answer Scenario.token_envelope))
    = (Ok (ed, ek, ei), w2)
    /\ error_in ed ek ei = false
    /\ @requests_post Ref.env Scenario.url (request_body ed ek ei) headers w2
       = (Ok response,
          Scenario.answered 200 (Scenario.answer Scenario.token_envelope)
            Scenario.example_envelope)
    /\ raise_for_status response = Ok tt
    /\ @Response_json Ref.jsonlib response = Ok (JDict body)
    /\ JDict [(lit "data", JStr Scenario.token_envelope)] = JDict body
    /\ dict_get (lit "data") body = Some d
    /\ @decrypt_and_decompress_payload Ref.zlib Ref.jsonlib d fixed_key fixed_iv
       = Ok r
    /\ has_token r.
Proof.
  apply (@hit_needs_a_token Ref.zlib Ref.jsonlib Ref.env (lit "a@b.com")
           (lit "x") Scenario.url (lit "a@b.com:x")).
  vm_compute. reflexivity.
Defined.

Lemma transport_failure_is_a_miss_witness :
  @perform_request Ref.zlib Ref.jsonlib Faulty.offline (lit "a@b.com") (lit "x")
    Scenario.url (Scenario.answering 200 [])
  = (Ok (false, credentials (lit "a@b.com") (lit "x"),
         JDict [(lit "error",
                 JStr (exn_msg (Exn RequestException (lit "Connection refused"))))]),
     Scenario.drained 200 []).
Proof.
  eapply (@transport_failure_is_a_miss Ref.zlib Ref.jsonlib Faulty.offline
            (lit "a@b.com") (lit "x") Scenario.url Scenario.example_envelope
            Scenario.key_rsa Scenario.iv_rsa).
  - vm_compute. reflexivity.
  - vm_compute. reflexivity.
  - vm_compute. reflexivity.
Defined.

Lemma error_status_is_a_miss_witness :
  exists e,
    exn_kind e = HTTPError
    /\ @perform_request Ref.zlib Ref.jsonlib Ref.env (lit "a@b.com") (lit "x")
         Scenario.url
         (Scenario.answering 500 (Scenario.answer Scenario.token_envelope))
       = (Ok (false, credentials (lit "a@b.com") (lit "x"),
              JDict [(lit "error", JStr (exn_msg e))]),
          Scenario.answered 500 (Scenario.answer Scenario.token_envelope)
            Scenario.example_envelope).
Proof.
  eapply (@error_status_is_a_miss Ref.zlib Ref.jsonlib Ref.env
            (lit "a@b.com") (lit "x") Scenario.url Scenario.example_envelope
            Scenario.key_rsa Scenario.iv_rsa).
  - vm_compute. reflexivity.
  - vm_compute. reflexivity.
  - vm_compute. reflexivity.
  - cbn. lia.
Defined.

Lemma non_object_body_is_a_miss_witness :
  exists e,
    exn_kind e = AttributeError
    /\ @perform_request Ref.zlib Ref.jsonlib Ref.env (lit "a@b.com") (lit "x")
         Scenario.url (Scenario.answering 200 (lit "[]"))
       = (Ok (false, credentials (lit "a@b.com") (lit "x"),
              JDict [(lit "error", JStr (exn_msg e))]),
          Scenario.answered 200 (lit "[]") Scenario.example_envelope).
Proof.
  eapply (@non_object_body_is_a_miss Ref.zlib Ref.jsonlib Ref.env
            (lit "a@b.com") (lit "x") Scenario.url Scenario.example_envelope
            Scenario.key_rsa Scenario.iv_rsa _ _ _ _ (JList [])).
  - vm_compute. reflexivity.
  - vm_compute. reflexivity.
  - vm_compute. reflexivity.
  - vm_compute. reflexivity.
  - vm_compute. reflexivity.
  - reflexivity.
Defined.



Lemma failure_message_is_not_printed_witness :
  count_result
    (fst (@perform_request Ref.zlib Ref.jsonlib Faulty.offline
            (lit "a@b.com") (lit "x") Scenario.url (Scenario.answering 200 [])))
    start
  = ({| checked := 1; hits := 0; fails := 1;
        creds := Some (credentials (lit "a@b.com") (lit "x"));
        printed := [Fail (credentials (lit "a@b.com") (lit "x"))
                         (JStr (lit "Unknown error"))] |},
     None).
Proof.
  eapply (@failure_message_is_not_printed Ref.zlib Ref.jsonlib Faulty.offline
            (lit "a@b.com") (lit "x") Scenario.url (Scenario.answering 200 [])
            _ _ start).
  vm_compute. reflexivity.
Defined.

